(** * Scenario manager of the planning module: a shallow embedding

    The C++ class [ScenarioManager] (modules/planning/scenarios/scenario_manager.cc)
    is embedded as functions of a small state-and-error monad over the manager's
    members, the process-wide [PlanningContext] scenario info, the clock and the
    heap allocator.  [double] values are IEEE binary64 primitive floats, so the
    comparisons below are the ones the compiled code performs; [a > b] is
    written [b <? a].  The [ego_point] argument, which the functions only pass
    on, is left out. *)

From Stdlib Require Import Floats List String Bool Arith Lia.
From stdpp Require Import base option list gmap strings.

(** ** Enumerations *)

(** [ScenarioConfig::ScenarioType], in the order the switch statements list it. *)
Inductive ScenarioType : Set :=
  | LANE_FOLLOW
  | CHANGE_LANE
  | SIDE_PASS
  | APPROACH
  | STOP_SIGN_PROTECTED
  | STOP_SIGN_UNPROTECTED
  | TRAFFIC_LIGHT_PROTECTED
  | TRAFFIC_LIGHT_UNPROTECTED_LEFT_TURN
  | TRAFFIC_LIGHT_UNPROTECTED_RIGHT_TURN.

#[export] Instance ScenarioType_eq_dec : EqDecision ScenarioType.
Proof. solve_decision. Defined.

Definition ScenarioType_number (t : ScenarioType) : nat :=
  match t with
  | LANE_FOLLOW => 0
  | CHANGE_LANE => 1
  | SIDE_PASS => 2
  | APPROACH => 3
  | STOP_SIGN_PROTECTED => 4
  | STOP_SIGN_UNPROTECTED => 5
  | TRAFFIC_LIGHT_PROTECTED => 6
  | TRAFFIC_LIGHT_UNPROTECTED_LEFT_TURN => 7
  | TRAFFIC_LIGHT_UNPROTECTED_RIGHT_TURN => 8
  end.

(** Every value of the enumeration, ascending: the order in which a
    [std::set<ScenarioType>] is iterated. *)
Definition ScenarioType_values : list ScenarioType :=
  [ LANE_FOLLOW; CHANGE_LANE; SIDE_PASS; APPROACH; STOP_SIGN_PROTECTED;
    STOP_SIGN_UNPROTECTED; TRAFFIC_LIGHT_PROTECTED;
    TRAFFIC_LIGHT_UNPROTECTED_LEFT_TURN; TRAFFIC_LIGHT_UNPROTECTED_RIGHT_TURN ].

Definition ScenarioType_of_number (n : nat) : option ScenarioType :=
  ScenarioType_values !! n.

#[export] Program Instance ScenarioType_countable : Countable ScenarioType :=
  inj_countable ScenarioType_number ScenarioType_of_number _.
Next Obligation. intros []; reflexivity. Qed.

(** Modelled from the spec: the status a [Scenario] reports through
    [GetStatus()]; the class declaration is not among the sources, which only
    name [STATUS_DONE].  The spec gives the two values RUNNING and DONE. *)
Inductive ScenarioStatus : Set :=
  | STATUS_RUNNING
  | STATUS_DONE.

#[export] Instance ScenarioStatus_eq_dec : EqDecision ScenarioStatus.
Proof. solve_decision. Defined.

(** Modelled from the spec: the categories of first-encountered overlaps
    ([ReferenceLineInfo::OverlapType]); the sources use these three. *)
Inductive OverlapType : Set :=
  | OBSTACLE
  | SIGNAL
  | STOP_SIGN.

#[export] Instance OverlapType_eq_dec : EqDecision OverlapType.
Proof. solve_decision. Defined.

(** Modelled from the spec: the turn classification of a path
    ([hdmap::Lane::LaneTurn]): straight, left turn, right turn. *)
Inductive LaneTurn : Set :=
  | NO_TURN
  | LEFT_TURN
  | RIGHT_TURN.

#[export] Instance LaneTurn_eq_dec : EqDecision LaneTurn.
Proof. solve_decision. Defined.

(** Modelled from the spec: the colour a detected traffic light reports. *)
Inductive Color : Set :=
  | UNKNOWN
  | RED
  | YELLOW
  | GREEN
  | BLACK.

(** ** Messages and per-cycle input *)

(** [hdmap::PathOverlap]. *)
Record PathOverlap : Set := {
  object_id : string;
  start_s : float;
  end_s : float
}.

(** [perception::TrafficLight]: the fields the manager reads or stores. *)
Record TrafficLight : Set := {
  id : string;
  color : Color
}.

(** [perception::TrafficLightDetection]. *)
Record TrafficLightDetection : Set := {
  header_timestamp_sec : float;
  traffic_light : list TrafficLight
}.

(** [ReferenceLineInfo], through the accessors the manager calls. *)
Record ReferenceLineInfo : Set := {
  AdcSlBoundary_end_s : float;
  GetPathTurnType : LaneTurn;
  FirstEncounteredOverlaps : list (OverlapType * PathOverlap);
  stop_sign_overlaps : list PathOverlap
}.

(** [Frame]: the reference lines and the local view's detection message, a
    null pointer when perception sent none. *)
Record Frame : Set := {
  reference_line_info : list ReferenceLineInfo;
  local_view_traffic_light : option TrafficLightDetection
}.

(** ** Configuration *)

Record ScenarioStopSignUnprotectedConfig : Set := {
  start_stop_sign_scenario_distance : float
}.

Record ScenarioTrafficLightUnprotectedRightTurnConfig : Set := {
  max_valid_stop_distance : float
}.

(** [ScenarioConfig]: the two sub-messages whose thresholds the manager reads. *)
Record ScenarioConfig : Set := {
  stop_sign_unprotected_config : ScenarioStopSignUnprotectedConfig;
  traffic_light_unprotected_right_turn_config :
    ScenarioTrafficLightUnprotectedRightTurnConfig
}.

(** ** Scenario instances *)

(** A [Scenario] object on the heap.  [instance] is the allocation that
    produced it: two values with the same [instance] are the same object. *)
Record Scenario : Set := {
  scenario_type : ScenarioType;
  GetStatus : ScenarioStatus;
  config : ScenarioConfig;
  instance : nat
}.

(** ** State *)

(** The members of [ScenarioManager]. *)
Record ScenarioManager : Type := {
  config_map_ : gmap ScenarioType ScenarioConfig;
  current_scenario_ : option Scenario;
  default_scenario_type_ : ScenarioType;
  supported_scenarios_ : gset ScenarioType;
  signal_expire_time_sec_ : float
}.

(** [PlanningContext::GetScenarioInfo()]: the process-wide record. *)
Record ScenarioInfo : Type := {
  current_stop_sign_overlap : PathOverlap;
  stop_done_overlap_ids : list string;
  traffic_lights : gmap string TrafficLight;
  current_traffic_light_overlaps : list PathOverlap
}.

(** What one call can read and change: the manager, the planning context, the
    reading of [Clock::NowInSeconds()], the number of [Scenario] objects
    allocated so far, and the trace of [IsTransferable] calls (the type of the
    scenario each was called on), kept for counting.  The clock reading is
    the one the call under study obtains: no operation advances it, and
    between two calls it may take any other value. *)
Record World : Type := {
  manager : ScenarioManager;
  scenario_info : ScenarioInfo;
  Clock_NowInSeconds : float;
  allocated : nat;
  probes : list ScenarioType
}.

Definition set_manager (m : ScenarioManager) (w : World) : World :=
  {| manager := m; scenario_info := scenario_info w;
     Clock_NowInSeconds := Clock_NowInSeconds w;
     allocated := allocated w; probes := probes w |}.

Definition set_scenario_info (i : ScenarioInfo) (w : World) : World :=
  {| manager := manager w; scenario_info := i;
     Clock_NowInSeconds := Clock_NowInSeconds w;
     allocated := allocated w; probes := probes w |}.

Definition set_config_map (c : gmap ScenarioType ScenarioConfig)
    (m : ScenarioManager) : ScenarioManager :=
  {| config_map_ := c; current_scenario_ := current_scenario_ m;
     default_scenario_type_ := default_scenario_type_ m;
     supported_scenarios_ := supported_scenarios_ m;
     signal_expire_time_sec_ := signal_expire_time_sec_ m |}.

Definition set_current_scenario (s : option Scenario)
    (m : ScenarioManager) : ScenarioManager :=
  {| config_map_ := config_map_ m; current_scenario_ := s;
     default_scenario_type_ := default_scenario_type_ m;
     supported_scenarios_ := supported_scenarios_ m;
     signal_expire_time_sec_ := signal_expire_time_sec_ m |}.

Definition set_default_scenario_type (t : ScenarioType)
    (m : ScenarioManager) : ScenarioManager :=
  {| config_map_ := config_map_ m; current_scenario_ := current_scenario_ m;
     default_scenario_type_ := t;
     supported_scenarios_ := supported_scenarios_ m;
     signal_expire_time_sec_ := signal_expire_time_sec_ m |}.

Definition set_supported_scenarios (s : gset ScenarioType)
    (m : ScenarioManager) : ScenarioManager :=
  {| config_map_ := config_map_ m; current_scenario_ := current_scenario_ m;
     default_scenario_type_ := default_scenario_type_ m;
     supported_scenarios_ := s;
     signal_expire_time_sec_ := signal_expire_time_sec_ m |}.

Definition set_traffic_lights (t : gmap string TrafficLight)
    (i : ScenarioInfo) : ScenarioInfo :=
  {| current_stop_sign_overlap := current_stop_sign_overlap i;
     stop_done_overlap_ids := stop_done_overlap_ids i;
     traffic_lights := t;
     current_traffic_light_overlaps := current_traffic_light_overlaps i |}.

Definition set_current_stop_sign_overlap (o : PathOverlap)
    (i : ScenarioInfo) : ScenarioInfo :=
  {| current_stop_sign_overlap := o;
     stop_done_overlap_ids := stop_done_overlap_ids i;
     traffic_lights := traffic_lights i;
     current_traffic_light_overlaps := current_traffic_light_overlaps i |}.

Definition set_stop_done_overlap_ids (l : list string)
    (i : ScenarioInfo) : ScenarioInfo :=
  {| current_stop_sign_overlap := current_stop_sign_overlap i;
     stop_done_overlap_ids := l;
     traffic_lights := traffic_lights i;
     current_traffic_light_overlaps := current_traffic_light_overlaps i |}.

(** ** The monad: state, a failed [CHECK], undefined behaviour *)

Inductive Result (A : Type) : Type :=
  | Ok (a : A)
  | CheckFailed
  | Undefined.

Arguments Ok {A} a.
Arguments CheckFailed {A}.
Arguments Undefined {A}.

Definition M (A : Type) : Type := World -> Result (A * World).

Definition ret {A} (a : A) : M A := fun w => Ok (a, w).

Definition bind {A B} (m : M A) (k : A -> M B) : M B :=
  fun w =>
    match m w with
    | Ok (a, w') => k a w'
    | CheckFailed => CheckFailed
    | Undefined => Undefined
    end.

Notation "x <- m ;; k" := (bind m (fun x => k))
  (at level 100, m at next level, right associativity).
Notation "m ;; k" := (bind m (fun _ => k))
  (at level 100, right associativity).

Definition gets {A} (f : World -> A) : M A := fun w => Ok (f w, w).

Definition modify (f : World -> World) : M unit := fun w => Ok (tt, f w).

(** glog's [CHECK(b)]: the process aborts when [b] is false. *)
Definition CHECK (b : bool) : M unit :=
  fun w => if b then Ok (tt, w) else CheckFailed.

(** [*p] or [p->...] on a pointer: undefined when it is null. *)
Definition deref {A} (p : option A) : M A :=
  fun w => match p with Some a => Ok (a, w) | None => Undefined end.

(** [v.front()]: undefined on an empty vector. *)
Definition front {A} (v : list A) : M A :=
  fun w => match v with a :: _ => Ok (a, w) | [] => Undefined end.

Definition modify_manager (f : ScenarioManager -> ScenarioManager) : M unit :=
  modify (fun w => set_manager (f (manager w)) w).

Definition modify_scenario_info (f : ScenarioInfo -> ScenarioInfo) : M unit :=
  modify (fun w => set_scenario_info (f (scenario_info w)) w).

Definition log_probe (t : ScenarioType) (w : World) : World :=
  {| manager := manager w; scenario_info := scenario_info w;
     Clock_NowInSeconds := Clock_NowInSeconds w;
     allocated := allocated w; probes := probes w ++ [t] |}.

Definition allocate (w : World) : World :=
  {| manager := manager w; scenario_info := scenario_info w;
     Clock_NowInSeconds := Clock_NowInSeconds w;
     allocated := S (allocated w); probes := probes w |}.

(** ** What the manager is linked against *)

(** The gflags the manager reads. *)
Class PlanningGflags : Set := {
  FLAGS_enable_scenario_dispatcher : bool;
  FLAGS_enable_scenario_stop_sign : bool;
  FLAGS_enable_scenario_traffic_light : bool;
  FLAGS_enable_scenario_side_pass : bool;
  FLAGS_scenario_lane_follow_config_file : string;
  FLAGS_scenario_side_pass_config_file : string;
  FLAGS_scenario_stop_sign_unprotected_config_file : string;
  FLAGS_scenario_traffic_light_protected_config_file : string;
  FLAGS_scenario_traffic_light_unprotected_left_turn_config_file : string;
  FLAGS_scenario_traffic_light_unprotected_right_turn_config_file : string
}.

(** The [Scenario] base class and its variants, whose code is outside the
    manager: the static [LoadConfig] ([None] when it returns false), the
    default-constructed [ScenarioConfig] message, the status a scenario has
    once constructed and [Init()]-ed, and the virtual
    [this->IsTransferable(current, frame)]. *)
Class ScenarioClass : Type := {
  LoadConfig : string -> option ScenarioConfig;
  ScenarioConfig_default : ScenarioConfig;
  Scenario_Init : ScenarioType -> ScenarioConfig -> ScenarioStatus;
  IsTransferable : Scenario -> Scenario -> Frame -> bool
}.

Section Manager.

Context {flags : PlanningGflags} {scenarios : ScenarioClass}.

(** [config_map_[k]]: a key that is absent is inserted with a
    default-constructed value. *)
Definition config_map_at (k : ScenarioType) : M ScenarioConfig :=
  fun w =>
    match config_map_ (manager w) !! k with
    | Some c => Ok (c, w)
    | None =>
        Ok (ScenarioConfig_default,
            set_manager
              (set_config_map
                 (<[k := ScenarioConfig_default]> (config_map_ (manager w)))
                 (manager w)) w)
    end.

(** [scenario->IsTransferable(current, frame)], recorded in the trace. *)
Definition probe (scenario current : Scenario) (frame : Frame) : M bool :=
  fun w =>
    Ok (IsTransferable scenario current frame,
        log_probe (scenario_type scenario) w).

(** [new XScenario(config_map_[t], &scenario_context_)] followed by
    [ptr->Init()].  The constructors and [Init()] belong to the scenario
    classes, outside the manager: [Scenario_Init] stands for what they leave
    when they return, which is what they do on a configuration that was
    registered.  What they do on a default-constructed configuration is not
    settled by the manager's code. *)
Definition new_Scenario (t : ScenarioType) : M (option Scenario) :=
  c <- config_map_at t ;;
  n <- gets allocated ;;
  modify allocate ;;
  ret (Some {| scenario_type := t; GetStatus := Scenario_Init t c;
               config := c; instance := n |}).

Definition CreateScenario (scenario_type : ScenarioType)
    : M (option Scenario) :=
  match scenario_type with
  | LANE_FOLLOW => new_Scenario scenario_type
  | SIDE_PASS => new_Scenario scenario_type
  | STOP_SIGN_UNPROTECTED => new_Scenario scenario_type
  | TRAFFIC_LIGHT_PROTECTED => new_Scenario scenario_type
  | TRAFFIC_LIGHT_UNPROTECTED_LEFT_TURN => new_Scenario scenario_type
  | TRAFFIC_LIGHT_UNPROTECTED_RIGHT_TURN => new_Scenario scenario_type
  | _ => ret None
  end.

(** [CHECK(Scenario::LoadConfig(file, &config_map_[k]))]. *)
Definition load_config_into (file : string) (k : ScenarioType) : M unit :=
  config_map_at k ;;
  match LoadConfig file with
  | Some c =>
      modify_manager (fun m => set_config_map (<[k := c]> (config_map_ m)) m) ;;
      CHECK true
  | None => CHECK false
  end.

Definition RegisterScenarios : M unit :=
  load_config_into FLAGS_scenario_lane_follow_config_file LANE_FOLLOW ;;
  load_config_into FLAGS_scenario_side_pass_config_file SIDE_PASS ;;
  load_config_into FLAGS_scenario_stop_sign_unprotected_config_file
    STOP_SIGN_UNPROTECTED ;;
  load_config_into FLAGS_scenario_traffic_light_protected_config_file
    TRAFFIC_LIGHT_PROTECTED ;;
  load_config_into
    FLAGS_scenario_traffic_light_unprotected_left_turn_config_file
    TRAFFIC_LIGHT_UNPROTECTED_LEFT_TURN ;;
  load_config_into
    FLAGS_scenario_traffic_light_unprotected_right_turn_config_file
    TRAFFIC_LIGHT_UNPROTECTED_RIGHT_TURN.

Definition Init (supported_scenarios : gset ScenarioType) : M bool :=
  RegisterScenarios ;;
  modify_manager (set_default_scenario_type LANE_FOLLOW) ;;
  modify_manager (set_supported_scenarios supported_scenarios) ;;
  default <- gets (fun w => default_scenario_type_ (manager w)) ;;
  scenario <- CreateScenario default ;;
  modify_manager (set_current_scenario scenario) ;;
  ret true.

(** [current_scenario_->...]. *)
Definition current_scenario : M Scenario :=
  p <- gets (fun w => current_scenario_ (manager w)) ;;
  deref p.

Definition SelectChangeLaneScenario (frame : Frame) : M ScenarioType :=
  if (1 <? length (reference_line_info frame))%nat
  then ret LANE_FOLLOW
  else ret LANE_FOLLOW.

Definition SelectStopSignScenario (frame : Frame)
    (first_encountered_stop_sign_overlap : PathOverlap) : M ScenarioType :=
  reference_line_info <- front (reference_line_info frame) ;;
  let adc_front_edge_s := AdcSlBoundary_end_s reference_line_info in
  let stop_sign_overlap_start_s :=
    start_s first_encountered_stop_sign_overlap in
  let adc_distance_to_stop_sign :=
    (stop_sign_overlap_start_s - adc_front_edge_s)%float in
  stop_sign <-
    (if (0 <? adc_distance_to_stop_sign)%float
     then c <- config_map_at STOP_SIGN_UNPROTECTED ;;
          ret (adc_distance_to_stop_sign <=?
                 start_stop_sign_scenario_distance
                   (stop_sign_unprotected_config c))%float
     else ret false) ;;
  let stop_sign_all_way := false in
  current <- current_scenario ;;
  match scenario_type current with
  | LANE_FOLLOW | CHANGE_LANE | SIDE_PASS | APPROACH =>
      if stop_sign : bool
      then ret (if stop_sign_all_way : bool
                then STOP_SIGN_PROTECTED else STOP_SIGN_UNPROTECTED)
      else ret (scenario_type current)
  | STOP_SIGN_PROTECTED | STOP_SIGN_UNPROTECTED =>
      if decide (GetStatus current = STATUS_DONE)
      then ret LANE_FOLLOW
      else ret (scenario_type current)
  | _ => ret (scenario_type current)
  end.

(** The body of the loop over the tracked traffic-light overlaps: [Some t]
    when an iteration returns [t]. *)
Fixpoint traffic_light_loop (current : Scenario)
    (adc_front_edge_s max_valid_stop_distance : float)
    (right_turn left_turn : bool) (overlaps : list PathOverlap)
    : option ScenarioType :=
  match overlaps with
  | [] => None
  | traffic_light_overlap :: rest =>
      let traffic_light_overlap_start_s := start_s traffic_light_overlap in
      let adc_distance_to_stop_line :=
        (traffic_light_overlap_start_s - adc_front_edge_s)%float in
      let continue :=
        traffic_light_loop current adc_front_edge_s max_valid_stop_distance
          right_turn left_turn rest in
      match scenario_type current with
      | LANE_FOLLOW | CHANGE_LANE | SIDE_PASS | APPROACH =>
          if (adc_distance_to_stop_line <=? max_valid_stop_distance)%float
          then if right_turn
               then Some TRAFFIC_LIGHT_UNPROTECTED_RIGHT_TURN
               else if left_turn
                    then Some TRAFFIC_LIGHT_PROTECTED
                    else Some TRAFFIC_LIGHT_PROTECTED
          else continue
      | STOP_SIGN_PROTECTED | STOP_SIGN_UNPROTECTED => continue
      | TRAFFIC_LIGHT_PROTECTED
      | TRAFFIC_LIGHT_UNPROTECTED_LEFT_TURN
      | TRAFFIC_LIGHT_UNPROTECTED_RIGHT_TURN =>
          if decide (GetStatus current = STATUS_DONE)
          then Some LANE_FOLLOW
          else continue
      end
  end.

Definition SelectTrafficLightScenario (frame : Frame)
    (first_encountered_traffic_Light_overlap : PathOverlap)
    : M ScenarioType :=
  c <- config_map_at TRAFFIC_LIGHT_PROTECTED ;;
  let scenario_config := traffic_light_unprotected_right_turn_config c in
  reference_line_info <- front (reference_line_info frame) ;;
  let adc_front_edge_s := AdcSlBoundary_end_s reference_line_info in
  let right_turn :=
    bool_decide (GetPathTurnType reference_line_info = RIGHT_TURN) in
  let left_turn :=
    bool_decide (GetPathTurnType reference_line_info = LEFT_TURN) in
  overlaps <-
    gets (fun w => current_traffic_light_overlaps (scenario_info w)) ;;
  current <- current_scenario ;;
  match traffic_light_loop current adc_front_edge_s
          (max_valid_stop_distance scenario_config)
          right_turn left_turn overlaps with
  | Some t => ret t
  | None => ret (scenario_type current)
  end.

Definition SelectSidePassScenario (frame : Frame) : M ScenarioType :=
  current <- current_scenario ;;
  reuse <-
    (if decide (scenario_type current = SIDE_PASS)
     then probe current current frame
     else ret false) ;;
  if reuse : bool
  then ret SIDE_PASS
  else
    p <- CreateScenario SIDE_PASS ;;
    scenario <- deref p ;;
    transferable <- probe scenario current frame ;;
    if transferable : bool then ret SIDE_PASS else ret LANE_FOLLOW.

Definition ReuseCurrentScenario (frame : Frame) : M bool :=
  current <- current_scenario ;;
  probe current current frame.

Definition SelectScenario (type : ScenarioType) (frame : Frame) : M bool :=
  current <- current_scenario ;;
  if decide (scenario_type current = type)
  then ret true
  else
    p <- CreateScenario type ;;
    scenario <- deref p ;;
    transferable <- probe scenario current frame ;;
    if transferable : bool
    then modify_manager (set_current_scenario (Some scenario)) ;; ret true
    else ret false.

Definition ReadTrafficLight (frame : Frame) : M unit :=
  modify_scenario_info (set_traffic_lights ∅) ;;
  match local_view_traffic_light frame with
  | None => ret tt
  | Some traffic_light_detection =>
      now <- gets Clock_NowInSeconds ;;
      let delay :=
        (header_timestamp_sec traffic_light_detection - now)%float in
      expire <- gets (fun w => signal_expire_time_sec_ (manager w)) ;;
      if (expire <? delay)%float
      then ret tt
      else
        modify_scenario_info (fun i =>
          set_traffic_lights
            (foldl (fun m light => <[id light := light]> m)
                   (traffic_lights i)
                   (traffic_light traffic_light_detection)) i)
  end.

Definition Observe (frame : Frame) : M unit :=
  ReadTrafficLight frame.

Definition IsStopSignScenario (scenario_type : ScenarioType) : bool :=
  bool_decide (scenario_type = STOP_SIGN_PROTECTED)
  || bool_decide (scenario_type = STOP_SIGN_UNPROTECTED).

Definition IsTrafficLightScenario (scenario_type : ScenarioType) : bool :=
  bool_decide (scenario_type = TRAFFIC_LIGHT_PROTECTED)
  || bool_decide (scenario_type = TRAFFIC_LIGHT_UNPROTECTED_LEFT_TURN)
  || bool_decide (scenario_type = TRAFFIC_LIGHT_UNPROTECTED_RIGHT_TURN).

(** The first overlap of the category, as the scanning loops find it. *)
Definition first_overlap_of (category : OverlapType)
    (overlaps : list (OverlapType * PathOverlap)) : option PathOverlap :=
  snd <$> find (fun overlap => bool_decide (fst overlap = category)) overlaps.

Definition UpdatePlanningContext (frame : Frame)
    (scenario_type_ : ScenarioType) : M unit :=
  reference_line_info <- front (reference_line_info frame) ;;
  if negb (IsStopSignScenario scenario_type_)
     && negb (IsTrafficLightScenario scenario_type_)
  then modify_scenario_info (set_stop_done_overlap_ids [])
  else if IsStopSignScenario scenario_type_
  then
    current <- current_scenario ;;
    if decide (scenario_type_ <> scenario_type current)
    then
      match first_overlap_of STOP_SIGN
              (FirstEncounteredOverlaps reference_line_info) with
      | Some stop_sign_overlap =>
          modify_scenario_info
            (set_current_stop_sign_overlap stop_sign_overlap)
      | None => ret tt
      end
    else
      current_stop_sign_overlap_id <-
        gets (fun w => object_id (current_stop_sign_overlap (scenario_info w))) ;;
      match find (fun overlap =>
                    bool_decide (object_id overlap = current_stop_sign_overlap_id))
                 (stop_sign_overlaps reference_line_info) with
      | Some stop_sign_overlap =>
          modify_scenario_info
            (set_current_stop_sign_overlap stop_sign_overlap)
      | None => ret tt
      end
  else ret tt.

(** Dispatch, "check current_scenario (not switchable)": the candidate after
    the first switch statement. *)
Definition not_switchable (current : Scenario) : ScenarioType :=
  match scenario_type current with
  | LANE_FOLLOW => LANE_FOLLOW
  | CHANGE_LANE => LANE_FOLLOW
  | SIDE_PASS =>
      if decide (GetStatus current <> STATUS_DONE)
      then scenario_type current else LANE_FOLLOW
  | APPROACH => LANE_FOLLOW
  | STOP_SIGN_PROTECTED | STOP_SIGN_UNPROTECTED =>
      if decide (GetStatus current <> STATUS_DONE)
      then scenario_type current else LANE_FOLLOW
  | TRAFFIC_LIGHT_PROTECTED
  | TRAFFIC_LIGHT_UNPROTECTED_LEFT_TURN
  | TRAFFIC_LIGHT_UNPROTECTED_RIGHT_TURN =>
      if decide (GetStatus current <> STATUS_DONE)
      then scenario_type current else LANE_FOLLOW
  end.

(** The loop over the first-encountered overlaps: the two pointers it leaves,
    stop sign first. *)
Definition scan_first_encountered
    (overlaps : list (OverlapType * PathOverlap))
    : option PathOverlap * option PathOverlap :=
  foldl
    (fun found overlap =>
       let stop_sign_overlap :=
         if bool_decide (fst found = None)
            && bool_decide (fst overlap = STOP_SIGN)
         then Some (snd overlap) else fst found in
       let traffic_light_overlap :=
         if bool_decide (snd found = None)
            && bool_decide (fst overlap = SIGNAL)
         then Some (snd overlap) else snd found in
       (stop_sign_overlap, traffic_light_overlap))
    (None, None) overlaps.

(** [stop_sign_found] and [traffic_light_found] once both pointers are set. *)
Definition overlap_found
    (stop_sign_overlap traffic_light_overlap : option PathOverlap)
    : bool * bool :=
  let stop_sign_found := bool_decide (stop_sign_overlap <> None) in
  let traffic_light_found := bool_decide (traffic_light_overlap <> None) in
  match stop_sign_overlap, traffic_light_overlap with
  | Some stop_sign, Some traffic_light_ =>
      (if (start_s stop_sign <? start_s traffic_light_)%float
       then true else false,
       if (start_s stop_sign <? start_s traffic_light_)%float
       then false else true)
  | _, _ => (stop_sign_found, traffic_light_found)
  end.

(** Dispatch, "intersection scenarios": the candidate after the block, entered
    with the candidate LANE_FOLLOW. *)
Definition intersection_scenarios (frame : Frame) : M ScenarioType :=
  reference_line_info <- front (reference_line_info frame) ;;
  let first_encountered_overlaps :=
    FirstEncounteredOverlaps reference_line_info in
  let pointers := scan_first_encountered first_encountered_overlaps in
  let stop_sign_overlap := fst pointers in
  let traffic_light_overlap := snd pointers in
  let found := overlap_found stop_sign_overlap traffic_light_overlap in
  if fst found
  then
    if FLAGS_enable_scenario_stop_sign
    then overlap <- deref stop_sign_overlap ;;
         SelectStopSignScenario frame overlap
    else ret LANE_FOLLOW
  else if snd found
  then
    if FLAGS_enable_scenario_traffic_light
    then overlap <- deref traffic_light_overlap ;;
         SelectTrafficLightScenario frame overlap
    else ret LANE_FOLLOW
  else ret LANE_FOLLOW.

(** Dispatch up to the debug line: the resolved [scenario_type]. *)
Definition dispatch_scenario_type (frame : Frame) : M ScenarioType :=
  current <- current_scenario ;;
  let scenario_type_ := not_switchable current in
  scenario_type_ <-
    (if decide (scenario_type_ = LANE_FOLLOW)
     then intersection_scenarios frame else ret scenario_type_) ;;
  scenario_type_ <-
    (if decide (scenario_type_ = LANE_FOLLOW)
     then SelectChangeLaneScenario frame else ret scenario_type_) ;;
  if decide (scenario_type_ = LANE_FOLLOW)
  then SelectSidePassScenario frame else ret scenario_type_.

Definition ScenarioDispatch (frame : Frame) : M unit :=
  CHECK (negb (bool_decide (reference_line_info frame = []))) ;;
  scenario_type_ <- dispatch_scenario_type frame ;;
  UpdatePlanningContext frame scenario_type_ ;;
  current <- current_scenario ;;
  if decide (scenario_type current <> scenario_type_)
  then scenario <- CreateScenario scenario_type_ ;;
       modify_manager (set_current_scenario scenario)
  else ret tt.

(** Self-vote: what one first-encountered overlap appends to the preferred
    scenarios. *)
Definition preferred_of (overlap : OverlapType * PathOverlap)
    : list ScenarioType :=
  (if bool_decide (fst overlap = OBSTACLE) then [SIDE_PASS] else [])
  ++ (if bool_decide (fst overlap = STOP_SIGN)
      then [STOP_SIGN_UNPROTECTED] else [])
  ++ (if bool_decide (fst overlap = SIGNAL)
      then [TRAFFIC_LIGHT_PROTECTED; TRAFFIC_LIGHT_UNPROTECTED_LEFT_TURN;
            TRAFFIC_LIGHT_UNPROTECTED_RIGHT_TURN]
      else []).

(** Self-vote, the walk over the preferred scenarios: [true] when an
    iteration returned from the function, with the rejected set it leaves. *)
Fixpoint walk_preferred (frame : Frame) (preferred : list ScenarioType)
    (rejected_scenarios : gset ScenarioType)
    : M (bool * gset ScenarioType) :=
  match preferred with
  | [] => ret (false, rejected_scenarios)
  | preferred_scenario :: rest =>
      supported <- gets (fun w => supported_scenarios_ (manager w)) ;;
      if bool_decide (preferred_scenario ∈ rejected_scenarios)
         || bool_decide (preferred_scenario ∉ supported)
      then walk_preferred frame rest rejected_scenarios
      else
        selected <- SelectScenario preferred_scenario frame ;;
        if selected : bool
        then ret (true, rejected_scenarios)
        else walk_preferred frame rest
               ({[preferred_scenario]} ∪ rejected_scenarios)
  end.

(** The feature-flag tests of the second walk: [true] when the iteration
    continues without trying the scenario. *)
Definition flag_disabled (scenario : ScenarioType) : bool :=
  (negb FLAGS_enable_scenario_side_pass
   && bool_decide (scenario = SIDE_PASS))
  || (negb FLAGS_enable_scenario_stop_sign
      && bool_decide (scenario = STOP_SIGN_UNPROTECTED))
  || (negb FLAGS_enable_scenario_traffic_light
      && (bool_decide (scenario = TRAFFIC_LIGHT_PROTECTED)
          || bool_decide (scenario = TRAFFIC_LIGHT_UNPROTECTED_LEFT_TURN)
          || bool_decide (scenario = TRAFFIC_LIGHT_UNPROTECTED_RIGHT_TURN))).

(** Self-vote, the walk over the supported scenarios. *)
Fixpoint walk_supported (frame : Frame) (supported : list ScenarioType)
    (rejected_scenarios : gset ScenarioType)
    : M (bool * gset ScenarioType) :=
  match supported with
  | [] => ret (false, rejected_scenarios)
  | scenario :: rest =>
      if bool_decide (scenario ∈ rejected_scenarios)
      then walk_supported frame rest rejected_scenarios
      else if flag_disabled scenario
      then walk_supported frame rest rejected_scenarios
      else
        selected <- SelectScenario scenario frame ;;
        if selected : bool
        then ret (true, rejected_scenarios)
        else walk_supported frame rest ({[scenario]} ∪ rejected_scenarios)
  end.

(** The elements of a [std::set<ScenarioType>] in iteration order. *)
Definition set_elements (s : gset ScenarioType) : list ScenarioType :=
  filter (fun t => t ∈ s) ScenarioType_values.

Definition ScenarioSelfVote (frame : Frame) : M unit :=
  CHECK (negb (bool_decide (reference_line_info frame = []))) ;;
  reference_line_info <- front (reference_line_info frame) ;;
  current <- current_scenario ;;
  default <- gets (fun w => default_scenario_type_ (manager w)) ;;
  reuse <-
    (if decide (scenario_type current <> default)
     then ReuseCurrentScenario frame else ret false) ;;
  if reuse : bool
  then ret tt
  else
    let rejected_scenarios : gset ScenarioType :=
      {[scenario_type current]} ∪ ∅ in
    let preferred_scenarios :=
      LANE_FOLLOW
      :: concat (map preferred_of (FirstEncounteredOverlaps reference_line_info)) in
    walked <- walk_preferred frame preferred_scenarios rejected_scenarios ;;
    if fst walked
    then ret tt
    else
      supported <- gets (fun w => supported_scenarios_ (manager w)) ;;
      walked <- walk_supported frame (set_elements supported) (snd walked) ;;
      if fst walked
      then ret tt
      else
        current <- current_scenario ;;
        if decide (scenario_type current <> default)
        then scenario <- CreateScenario default ;;
             modify_manager (set_current_scenario scenario)
        else ret tt.

Definition Update (frame : Frame) : M unit :=
  CHECK (negb (bool_decide (reference_line_info frame = []))) ;;
  Observe frame ;;
  if FLAGS_enable_scenario_dispatcher
  then ScenarioDispatch frame
  else ScenarioSelfVote frame.

End Manager.

(** ** Reading results *)

(** [m] run from [w] returns [a]. *)
Definition returns {A} (m : M A) (w : World) (a : A) : Prop :=
  exists w', m w = Ok (a, w').

(** The entry [config_map_[k]] yields in [w]. *)
Definition configured {scenarios : ScenarioClass} (w : World)
    (k : ScenarioType) : ScenarioConfig :=
  default ScenarioConfig_default (config_map_ (manager w) !! k).

(** The scenario types [CreateScenario] has a case for. *)
Definition constructible (t : ScenarioType) : bool :=
  match t with
  | LANE_FOLLOW | SIDE_PASS | STOP_SIGN_UNPROTECTED
  | TRAFFIC_LIGHT_PROTECTED | TRAFFIC_LIGHT_UNPROTECTED_LEFT_TURN
  | TRAFFIC_LIGHT_UNPROTECTED_RIGHT_TURN => true
  | _ => false
  end.

(** The active types from which the intersection rules may trigger. *)
Definition cruising (t : ScenarioType) : bool :=
  match t with
  | LANE_FOLLOW | CHANGE_LANE | SIDE_PASS | APPROACH => true
  | _ => false
  end.

(** The classification of a traffic-light scenario by turn type. *)
Definition traffic_light_scenario_of (turn : LaneTurn) : ScenarioType :=
  match turn with
  | RIGHT_TURN => TRAFFIC_LIGHT_UNPROTECTED_RIGHT_TURN
  | LEFT_TURN => TRAFFIC_LIGHT_PROTECTED
  | NO_TURN => TRAFFIC_LIGHT_PROTECTED
  end.

(** The flag naming the configuration file of a scenario type, for the six
    types [RegisterScenarios] loads. *)
Definition config_file {flags : PlanningGflags} (t : ScenarioType)
    : option string :=
  match t with
  | LANE_FOLLOW => Some FLAGS_scenario_lane_follow_config_file
  | SIDE_PASS => Some FLAGS_scenario_side_pass_config_file
  | STOP_SIGN_UNPROTECTED =>
      Some FLAGS_scenario_stop_sign_unprotected_config_file
  | TRAFFIC_LIGHT_PROTECTED =>
      Some FLAGS_scenario_traffic_light_protected_config_file
  | TRAFFIC_LIGHT_UNPROTECTED_LEFT_TURN =>
      Some FLAGS_scenario_traffic_light_unprotected_left_turn_config_file
  | TRAFFIC_LIGHT_UNPROTECTED_RIGHT_TURN =>
      Some FLAGS_scenario_traffic_light_unprotected_right_turn_config_file
  | _ => None
  end.

(** ** What the selection steps leave unchanged *)

(** [steady w w']: the manager's members other than the configuration map,
    the configuration each key yields, and the planning context are the same
    in [w'] as in [w], and no allocation was undone. *)
Record steady {scenarios : ScenarioClass} (w w' : World) : Prop := {
  steady_current :
    current_scenario_ (manager w') = current_scenario_ (manager w);
  steady_default :
    default_scenario_type_ (manager w') = default_scenario_type_ (manager w);
  steady_supported :
    supported_scenarios_ (manager w') = supported_scenarios_ (manager w);
  steady_configured : forall k, configured w' k = configured w k;
  steady_info : scenario_info w' = scenario_info w;
  steady_allocated : allocated w <= allocated w'
}.

(** [quiet w w']: moreover nothing was allocated and nothing probed. *)
Record quiet {scenarios : ScenarioClass} (w w' : World) : Prop := {
  quiet_steady : steady w w';
  quiet_allocated : allocated w' = allocated w;
  quiet_probes : probes w' = probes w
}.

(** What a walk over candidate types does: [walked rejected w selected
    rejected' w'] relates the start of a walk to its end. *)
Definition walked (rejected : gset ScenarioType) (w : World)
    (selected : bool) (rejected' : gset ScenarioType) (w' : World) : Prop :=
  exists tried : list ScenarioType,
    probes w' = probes w ++ tried
    /\ NoDup tried
    /\ (forall t, t ∈ tried ->
                  (t ∉ rejected) /\ (t ∈ supported_scenarios_ (manager w)))
    /\ default_scenario_type_ (manager w') = default_scenario_type_ (manager w)
    /\ supported_scenarios_ (manager w') = supported_scenarios_ (manager w)
    /\ allocated w <= allocated w'
    /\ if selected
       then exists s, current_scenario_ (manager w') = Some s
                      /\ scenario_type s ∈ supported_scenarios_ (manager w)
                      /\ instance s < allocated w'
       else current_scenario_ (manager w') = current_scenario_ (manager w)
            /\ forall t, t ∈ rejected' <-> t ∈ rejected \/ t ∈ tried.

(** What the walks of a self-vote leave, from an active scenario [current]
    and with the types of [avoid] rejected from the start: the types probed,
    each once, none of them in [avoid] and all of them supported, and an
    active scenario that is [current] itself or a newer object of the default
    type or of a supported type. *)
Definition voted (avoid : gset ScenarioType) (current : Scenario)
    (w w' : World) : Prop :=
  exists tried : list ScenarioType,
    probes w' = probes w ++ tried
    /\ NoDup tried
    /\ (forall t, t ∈ tried ->
          (t ∉ avoid) /\ (t ∈ supported_scenarios_ (manager w)))
    /\ default_scenario_type_ (manager w') = default_scenario_type_ (manager w)
    /\ supported_scenarios_ (manager w') = supported_scenarios_ (manager w)
    /\ allocated w <= allocated w'
    /\ exists s,
         current_scenario_ (manager w') = Some s
         /\ (s = current
             \/ instance s < allocated w'
                /\ (scenario_type s = default_scenario_type_ (manager w)
                    \/ scenario_type s ∈ supported_scenarios_ (manager w))).

(** ** Concrete inputs *)

Module Example.

Definition config_ : ScenarioConfig :=
  {| stop_sign_unprotected_config :=
       {| start_stop_sign_scenario_distance := 10 |};
     traffic_light_unprotected_right_turn_config :=
       {| max_valid_stop_distance := 15 |} |}.

Definition flags (dispatcher : bool) : PlanningGflags :=
  {| FLAGS_enable_scenario_dispatcher := dispatcher;
     FLAGS_enable_scenario_stop_sign := true;
     FLAGS_enable_scenario_traffic_light := true;
     FLAGS_enable_scenario_side_pass := true;
     FLAGS_scenario_lane_follow_config_file := "lane_follow_config.pb.txt";
     FLAGS_scenario_side_pass_config_file := "side_pass_config.pb.txt";
     FLAGS_scenario_stop_sign_unprotected_config_file :=
       "stop_sign_unprotected_config.pb.txt";
     FLAGS_scenario_traffic_light_protected_config_file :=
       "traffic_light_protected_config.pb.txt";
     FLAGS_scenario_traffic_light_unprotected_left_turn_config_file :=
       "traffic_light_unprotected_left_turn_config.pb.txt";
     FLAGS_scenario_traffic_light_unprotected_right_turn_config_file :=
       "traffic_light_unprotected_right_turn_config.pb.txt" |}.

(** Scenarios whose configuration files all load and whose
    [IsTransferable] answers [transferable] whatever the arguments. *)
Definition scenarios (transferable : bool) : ScenarioClass :=
  {| LoadConfig := fun _ => Some config_;
     ScenarioConfig_default :=
       {| stop_sign_unprotected_config :=
            {| start_stop_sign_scenario_distance := 0 |};
          traffic_light_unprotected_right_turn_config :=
            {| max_valid_stop_distance := 0 |} |};
     Scenario_Init := fun _ _ => STATUS_RUNNING;
     IsTransferable := fun _ _ _ => transferable |}.

Definition overlap (name : string) (s : float) : PathOverlap :=
  {| object_id := name; start_s := s; end_s := (s + 1)%float |}.

(** A manager never initialised, in an empty planning context. *)
Definition blank : World :=
  {| manager :=
       {| config_map_ := ∅; current_scenario_ := None;
          default_scenario_type_ := LANE_FOLLOW;
          supported_scenarios_ := ∅;
          signal_expire_time_sec_ := 5 |};
     scenario_info :=
       {| current_stop_sign_overlap := overlap "" 0;
          stop_done_overlap_ids := [];
          traffic_lights := ∅;
          current_traffic_light_overlaps := [] |};
     Clock_NowInSeconds := 100;
     allocated := 0;
     probes := [] |}.

(** The world after the six configurations were registered, with the given
    supported set, tracked traffic-light overlaps and active scenario, the one
    object allocated so far. *)
Definition world (supported : gset ScenarioType)
    (tracked : list PathOverlap) (type : ScenarioType)
    (status : ScenarioStatus) : World :=
  {| manager :=
       {| config_map_ :=
            list_to_map
              [ (LANE_FOLLOW, config_); (SIDE_PASS, config_);
                (STOP_SIGN_UNPROTECTED, config_);
                (TRAFFIC_LIGHT_PROTECTED, config_);
                (TRAFFIC_LIGHT_UNPROTECTED_LEFT_TURN, config_);
                (TRAFFIC_LIGHT_UNPROTECTED_RIGHT_TURN, config_) ];
          current_scenario_ :=
            Some {| scenario_type := type; GetStatus := status;
                    config := config_; instance := 0 |};
          default_scenario_type_ := LANE_FOLLOW;
          supported_scenarios_ := supported;
          signal_expire_time_sec_ := 5 |};
     scenario_info :=
       {| current_stop_sign_overlap := overlap "" 0;
          stop_done_overlap_ids := [];
          traffic_lights := ∅;
          current_traffic_light_overlaps := tracked |};
     Clock_NowInSeconds := 100;
     allocated := 1;
     probes := [] |}.

(** One reference line whose vehicle front edge is at [front_edge_s]. *)
Definition frame (front_edge_s : float) (turn : LaneTurn)
    (overlaps : list (OverlapType * PathOverlap))
    (detection : option TrafficLightDetection) : Frame :=
  {| reference_line_info :=
       [ {| AdcSlBoundary_end_s := front_edge_s;
            GetPathTurnType := turn;
            FirstEncounteredOverlaps := overlaps;
            stop_sign_overlaps := [] |} ];
     local_view_traffic_light := detection |}.

(** The six scenario types the factory constructs. *)
Definition all_supported : gset ScenarioType :=
  {[ LANE_FOLLOW; SIDE_PASS; STOP_SIGN_UNPROTECTED; TRAFFIC_LIGHT_PROTECTED;
     TRAFFIC_LIGHT_UNPROTECTED_LEFT_TURN;
     TRAFFIC_LIGHT_UNPROTECTED_RIGHT_TURN ]}.

(** A stop sign at arc length 105 ahead of a front edge at [front_edge_s]. *)
Definition stop_sign_frame (front_edge_s : float) : Frame :=
  frame front_edge_s NO_TURN [ (STOP_SIGN, overlap "stop_sign_1" 105) ] None.

(** A signal at arc length 108, distance 8 from a front edge at 100. *)
Definition signal_frame (turn : LaneTurn) : Frame :=
  frame 100 turn [ (SIGNAL, overlap "signal_1" 108) ] None.

(** A stop sign and a signal ahead of a front edge at 100. *)
Definition junction_frame (stop_sign_s signal_s : float) : Frame :=
  frame 100 NO_TURN
    [ (STOP_SIGN, overlap "stop_sign_1" stop_sign_s);
      (SIGNAL, overlap "signal_1" signal_s) ] None.

(** An obstacle and a stop sign ahead of a front edge at 100. *)
Definition obstacle_frame : Frame :=
  frame 100 NO_TURN
    [ (OBSTACLE, overlap "obstacle_1" 120);
      (STOP_SIGN, overlap "stop_sign_1" 150) ] None.

(** Dispatch and self-vote as the selection strategy. *)
Definition dispatch : PlanningGflags := flags true.
Definition self_vote : PlanningGflags := flags false.

(** Scenarios none of which is ever transferable. *)
Definition stubborn : ScenarioClass := scenarios false.

(** The manager cruising in LANE_FOLLOW, tracking the given overlaps. *)
Definition cruise (tracked : list PathOverlap) : World :=
  world all_supported tracked LANE_FOLLOW STATUS_RUNNING.

(** A frame with one reference line and no overlap ahead. *)
Definition open_road : Frame := frame 100 NO_TURN [] None.

(** A detection message captured at time 0, read when the clock shows 100. *)
Definition stale_detection : TrafficLightDetection :=
  {| header_timestamp_sec := 0;
     traffic_light := [ {| id := "tl_1"; color := RED |} ] |}.

(** Scenarios every one of which is transferable. *)
Definition eager : ScenarioClass := scenarios true.

(** Scenarios of which only a LANE_FOLLOW one is transferable. *)
Definition homing : ScenarioClass :=
  {| LoadConfig := fun _ => Some config_;
     ScenarioConfig_default := @ScenarioConfig_default stubborn;
     Scenario_Init := fun _ _ => STATUS_RUNNING;
     IsTransferable := fun scenario _ _ =>
       bool_decide (scenario_type scenario = LANE_FOLLOW) |}.

(** The flags with the stop-sign, traffic-light and side-pass features
    switched off. *)
Definition featureless (dispatcher : bool) : PlanningGflags :=
  {| FLAGS_enable_scenario_dispatcher := dispatcher;
     FLAGS_enable_scenario_stop_sign := false;
     FLAGS_enable_scenario_traffic_light := false;
     FLAGS_enable_scenario_side_pass := false;
     FLAGS_scenario_lane_follow_config_file :=
       @FLAGS_scenario_lane_follow_config_file (flags dispatcher);
     FLAGS_scenario_side_pass_config_file :=
       @FLAGS_scenario_side_pass_config_file (flags dispatcher);
     FLAGS_scenario_stop_sign_unprotected_config_file :=
       @FLAGS_scenario_stop_sign_unprotected_config_file (flags dispatcher);
     FLAGS_scenario_traffic_light_protected_config_file :=
       @FLAGS_scenario_traffic_light_protected_config_file (flags dispatcher);
     FLAGS_scenario_traffic_light_unprotected_left_turn_config_file :=
       @FLAGS_scenario_traffic_light_unprotected_left_turn_config_file
         (flags dispatcher);
     FLAGS_scenario_traffic_light_unprotected_right_turn_config_file :=
       @FLAGS_scenario_traffic_light_unprotected_right_turn_config_file
         (flags dispatcher) |}.

(** The world [w] once the stop sign "stop_sign_1" at 105 was recorded as the
    one being handled, and "stop_sign_0" as done. *)
Definition at_stop_sign (w : World) : World :=
  set_scenario_info
    (set_current_stop_sign_overlap (overlap "stop_sign_1" 105)
       (set_stop_done_overlap_ids ["stop_sign_0"%string] (scenario_info w)))
    w.

(** A reference line on which the map now places "stop_sign_1" at 104. *)
Definition stop_line_frame : Frame :=
  {| reference_line_info :=
       [ {| AdcSlBoundary_end_s := 100;
            GetPathTurnType := NO_TURN;
            FirstEncounteredOverlaps :=
              [ (STOP_SIGN, overlap "stop_sign_1" 104) ];
            stop_sign_overlaps :=
              [ overlap "stop_sign_2" 150; overlap "stop_sign_1" 104 ] |} ];
     local_view_traffic_light := None |}.

(** A detection, captured when the clock shows 100, that reports the light
    "tl_1" twice. *)
Definition repeated_detection : TrafficLightDetection :=
  {| header_timestamp_sec := 100;
     traffic_light :=
       [ {| id := "tl_1"; color := RED |};
         {| id := "tl_2"; color := GREEN |};
         {| id := "tl_1"; color := GREEN |} ] |}.

(** A frame without a reference line. *)
Definition no_reference_line : Frame :=
  {| reference_line_info := []; local_view_traffic_light := None |}.

End Example.

(** * Properties *)

(** ** The monad *)

Lemma bind_step {A B} (m : M A) (k : A -> M B) (w w1 : World) (a : A) :
  m w = Ok (a, w1) -> bind m k w = k a w1.
Proof. unfold bind. intros ->. reflexivity. Qed.

(** ** Observe / ReadTrafficLight *)

(** The map the loop over the reported lights builds: an id maps to the last
    light reported under it, and ids not reported keep their entry. *)
Lemma traffic_lights_lookup (lights : list TrafficLight)
    (m : gmap string TrafficLight) (k : string) :
  foldl (fun m light => <[id light := light]> m) m lights !! k =
  match find (fun light => bool_decide (id light = k)) (rev lights) with
  | Some light => Some light
  | None => m !! k
  end.
Proof.
  induction lights as [|light lights IH] using rev_ind; [reflexivity|].
  rewrite foldl_app, rev_app_distr. cbn [foldl rev app find].
  rewrite lookup_insert. destruct (decide (id light = k)) as [Heq|Hne].
  - rewrite bool_decide_eq_true_2 by exact Heq. reflexivity.
  - rewrite bool_decide_eq_false_2 by exact Hne. exact IH.
Qed.

(** With no detection message the map is left empty. *)
Lemma ReadTrafficLight_absent (frame : Frame) (w : World) :
  local_view_traffic_light frame = None ->
  ReadTrafficLight frame w =
  Ok (tt, set_scenario_info (set_traffic_lights ∅ (scenario_info w)) w).
Proof. unfold ReadTrafficLight. intros ->. reflexivity. Qed.

(** The test the code performs: the message is dropped when its timestamp
    minus the clock exceeds the threshold. *)
Lemma ReadTrafficLight_dropped (frame : Frame) (w : World)
    (detection : TrafficLightDetection) :
  local_view_traffic_light frame = Some detection ->
  (signal_expire_time_sec_ (manager w)
   <? header_timestamp_sec detection - Clock_NowInSeconds w)%float = true ->
  ReadTrafficLight frame w =
  Ok (tt, set_scenario_info (set_traffic_lights ∅ (scenario_info w)) w).
Proof.
  unfold ReadTrafficLight. intros -> Hlt.
  unfold bind, modify_scenario_info, modify, gets. cbn. rewrite Hlt. reflexivity.
Qed.

(** Otherwise the map holds the reported lights and nothing else. *)
Lemma ReadTrafficLight_populated (frame : Frame) (w : World)
    (detection : TrafficLightDetection) :
  local_view_traffic_light frame = Some detection ->
  (signal_expire_time_sec_ (manager w)
   <? header_timestamp_sec detection - Clock_NowInSeconds w)%float = false ->
  exists w',
    ReadTrafficLight frame w = Ok (tt, w') /\
    manager w' = manager w /\
    forall k,
      traffic_lights (scenario_info w') !! k =
      find (fun light => bool_decide (id light = k))
           (rev (traffic_light detection)).
Proof.
  unfold ReadTrafficLight. intros -> Hlt.
  unfold bind, modify_scenario_info, modify, gets. cbn. rewrite Hlt.
  eexists. split; [reflexivity|]. split; [reflexivity|]. intros k. cbn.
  rewrite traffic_lights_lookup, lookup_empty.
  destruct (find _ _); reflexivity.
Qed.

(** C1 (evaluation at the failing input): a detection message captured at
    time 0 and read at time 100, with an expiry threshold of 5 seconds, is 100
    seconds old, yet [ReadTrafficLight] stores its light in the map: the test
    compares timestamp minus clock, -100, with the threshold. *)
Theorem ReadTrafficLight_keeps_stale_detection :
  let w := Example.blank in
  let detection := Example.stale_detection in
  let frame := Example.frame 100 NO_TURN [] (Some detection) in
  (signal_expire_time_sec_ (manager w)
   <? Clock_NowInSeconds w - header_timestamp_sec detection)%float = true /\
  exists w',
    ReadTrafficLight frame w = Ok (tt, w') /\
    traffic_lights (scenario_info w') =
      {[ "tl_1"%string := {| id := "tl_1"; color := RED |} ]} /\
    traffic_lights (scenario_info w') <> ∅.
Proof.
  cbv zeta. split; [reflexivity|].
  destruct (ReadTrafficLight_populated
              (Example.frame 100 NO_TURN [] (Some Example.stale_detection))
              Example.blank Example.stale_detection eq_refl eq_refl)
    as (w' & Hrun & _ & Hlookup).
  exists w'. split; [exact Hrun|].
  assert (Hmap : traffic_lights (scenario_info w') =
                 {[ "tl_1"%string := {| id := "tl_1"; color := RED |} ]}).
  { apply map_eq. intros k. rewrite Hlookup. cbn.
    destruct (decide ("tl_1"%string = k)) as [<-|Hne].
    - rewrite lookup_singleton_eq. reflexivity.
    - rewrite lookup_singleton_ne by exact Hne.
      rewrite bool_decide_eq_false_2 by exact Hne. reflexivity. }
  split; [exact Hmap|]. rewrite Hmap. intros Hempty.
  apply (f_equal (fun m => m !! "tl_1"%string)) in Hempty.
  rewrite lookup_singleton_eq, lookup_empty in Hempty. discriminate.
Qed.

(** ** Comparisons of doubles *)




Section Properties.

Context {flags : PlanningGflags} {scenarios : ScenarioClass}.

Lemma steady_refl (w : World) : steady w w.
Proof. split; reflexivity. Qed.

Lemma steady_trans (w1 w2 w3 : World) :
  steady w1 w2 -> steady w2 w3 -> steady w1 w3.
Proof.
  intros [] []; split; try congruence; try lia.
  all: intros k; etransitivity; eauto.
Qed.

Lemma quiet_refl (w : World) : quiet w w.
Proof. split; [apply steady_refl|reflexivity..]. Qed.

Lemma config_map_at_spec (k : ScenarioType) (w : World) :
  exists w', config_map_at k w = Ok (configured w k, w') /\ quiet w w'.
Proof.
  unfold config_map_at, configured.
  destruct (config_map_ (manager w) !! k) as [c|] eqn:Hk.
  - exists w. split; [reflexivity|apply quiet_refl].
  - eexists. split; [reflexivity|].
    split; [split|..]; try reflexivity.
    intros k'. unfold configured. cbn.
    destruct (decide (k = k')) as [<-|Hne].
    + rewrite lookup_insert_eq, Hk. reflexivity.
    + rewrite lookup_insert_ne by exact Hne. reflexivity.
Qed.

Lemma current_scenario_spec (w : World) (current : Scenario) :
  current_scenario_ (manager w) = Some current ->
  current_scenario w = Ok (current, w).
Proof. unfold current_scenario, bind, gets, deref. intros ->. reflexivity. Qed.

(** [SelectStopSignScenario]: its result, read off the switch statement. *)
Lemma SelectStopSignScenario_spec (frame : Frame) (overlap : PathOverlap)
    (w : World) (ref : ReferenceLineInfo) (rest : list ReferenceLineInfo)
    (current : Scenario) :
  reference_line_info frame = ref :: rest ->
  current_scenario_ (manager w) = Some current ->
  let distance := (start_s overlap - AdcSlBoundary_end_s ref)%float in
  let threshold :=
    start_stop_sign_scenario_distance
      (stop_sign_unprotected_config (configured w STOP_SIGN_UNPROTECTED)) in
  let stop_sign := ((0 <? distance) && (distance <=? threshold))%float in
  exists w',
    SelectStopSignScenario frame overlap w =
    Ok (if cruising (scenario_type current)
        then if stop_sign then STOP_SIGN_UNPROTECTED
             else scenario_type current
        else if IsStopSignScenario (scenario_type current)
             then if decide (GetStatus current = STATUS_DONE)
                  then LANE_FOLLOW else scenario_type current
             else scenario_type current, w')
    /\ quiet w w'.
Proof.
  intros Href Hcur. cbv zeta. unfold SelectStopSignScenario.
  rewrite Href. unfold bind at 1. cbn [front].
  destruct (0 <? start_s overlap - AdcSlBoundary_end_s ref)%float eqn:Hpos.
  - destruct (config_map_at_spec STOP_SIGN_UNPROTECTED w) as (w1 & Hc & Hq).
    unfold bind. rewrite Hc. cbn [ret].
    rewrite (current_scenario_spec w1 current)
      by (rewrite (steady_current _ _ (quiet_steady _ _ Hq)); exact Hcur).
    exists w1. split; [|exact Hq].
    cbn [andb].
    destruct (decide (GetStatus current = STATUS_DONE)),
      (_ <=? _)%float, (scenario_type current); reflexivity.
  - unfold bind. cbn [ret].
    rewrite (current_scenario_spec w current Hcur).
    exists w. split; [|apply quiet_refl].
    cbn [andb].
    destruct (decide (GetStatus current = STATUS_DONE)),
      (scenario_type current); reflexivity.
Qed.

(** The loop over the tracked overlaps, from a cruising scenario: the first
    overlap within the maximum distance decides. *)
Lemma traffic_light_loop_cruising (current : Scenario)
    (adc_front_edge_s max_distance : float) (turn : LaneTurn)
    (overlaps : list PathOverlap) :
  cruising (scenario_type current) = true ->
  traffic_light_loop current adc_front_edge_s max_distance
    (bool_decide (turn = RIGHT_TURN)) (bool_decide (turn = LEFT_TURN))
    overlaps =
  if existsb (fun o => (start_s o - adc_front_edge_s <=? max_distance)%float)
       overlaps
  then Some (traffic_light_scenario_of turn)
  else None.
Proof.
  intros Hcruising. induction overlaps as [|o overlaps IH]; [reflexivity|].
  cbn [traffic_light_loop existsb]. rewrite IH.
  destruct (start_s o - adc_front_edge_s <=? max_distance)%float;
    destruct (scenario_type current); try discriminate Hcruising;
    destruct turn; reflexivity.
Qed.

(** From a stop-sign or traffic-light scenario no iteration selects a
    traffic-light scenario. *)
Lemma traffic_light_loop_not_cruising (current : Scenario)
    (adc_front_edge_s max_distance : float) (right_turn left_turn : bool)
    (overlaps : list PathOverlap) :
  cruising (scenario_type current) = false ->
  traffic_light_loop current adc_front_edge_s max_distance
    right_turn left_turn overlaps =
  if IsTrafficLightScenario (scenario_type current)
     && bool_decide (GetStatus current = STATUS_DONE)
     && negb (bool_decide (overlaps = []))
  then Some LANE_FOLLOW
  else None.
Proof.
  intros Hcruising. induction overlaps as [|o overlaps IH].
  - cbn. rewrite andb_false_r. reflexivity.
  - cbn [traffic_light_loop]. rewrite IH.
    rewrite (bool_decide_eq_false_2 (o :: overlaps = [])) by discriminate.
    destruct (scenario_type current); try discriminate Hcruising; cbn;
      try reflexivity;
      destruct (decide (GetStatus current = STATUS_DONE)) as [Hd|Hd];
      [ rewrite (bool_decide_eq_true_2 _ Hd)
      | rewrite (bool_decide_eq_false_2 _ Hd)
      | rewrite (bool_decide_eq_true_2 _ Hd)
      | rewrite (bool_decide_eq_false_2 _ Hd)
      | rewrite (bool_decide_eq_true_2 _ Hd)
      | rewrite (bool_decide_eq_false_2 _ Hd) ];
      cbn; try reflexivity; destruct (bool_decide (overlaps = [])); reflexivity.
Qed.

Lemma SelectTrafficLightScenario_spec (frame : Frame) (overlap : PathOverlap)
    (w : World) (ref : ReferenceLineInfo) (rest : list ReferenceLineInfo)
    (current : Scenario) :
  reference_line_info frame = ref :: rest ->
  current_scenario_ (manager w) = Some current ->
  exists w',
    SelectTrafficLightScenario frame overlap w =
    Ok (match traffic_light_loop current (AdcSlBoundary_end_s ref)
                (max_valid_stop_distance
                   (traffic_light_unprotected_right_turn_config
                      (configured w TRAFFIC_LIGHT_PROTECTED)))
                (bool_decide (GetPathTurnType ref = RIGHT_TURN))
                (bool_decide (GetPathTurnType ref = LEFT_TURN))
                (current_traffic_light_overlaps (scenario_info w)) with
        | Some t => t
        | None => scenario_type current
        end, w')
    /\ quiet w w'.
Proof.
  intros Href Hcur. unfold SelectTrafficLightScenario.
  destruct (config_map_at_spec TRAFFIC_LIGHT_PROTECTED w) as (w1 & Hc & Hq).
  rewrite (bind_step _ _ _ _ _ Hc), Href.
  unfold bind at 1. cbn [front]. unfold bind at 1, gets at 1.
  rewrite (bind_step _ _ _ _ _ (current_scenario_spec w1 current
             (eq_trans (steady_current _ _ (quiet_steady _ _ Hq)) Hcur))).
  rewrite (steady_info _ _ (quiet_steady _ _ Hq)).
  exists w1. split; [|exact Hq].
  destruct (traffic_light_loop _ _ _ _ _ _); reflexivity.
Qed.

(** ** The factory *)

Lemma new_Scenario_spec (t : ScenarioType) (w : World) :
  exists w',
    new_Scenario t w =
    Ok (Some {| scenario_type := t;
                GetStatus := Scenario_Init t (configured w t);
                config := configured w t;
                instance := allocated w |}, w')
    /\ steady w w' /\ allocated w' = S (allocated w) /\ probes w' = probes w.
Proof.
  unfold new_Scenario.
  destruct (config_map_at_spec t w) as (w1 & Hc & [Hs Ha Hp]).
  rewrite (bind_step _ _ _ _ _ Hc).
  unfold bind, gets, modify, ret. rewrite Ha.
  eexists. split; [reflexivity|].
  destruct Hs. split; [split; try assumption; cbn; lia|]. cbn. split; congruence.
Qed.

Lemma CreateScenario_constructible (t : ScenarioType) (w : World) :
  constructible t = true ->
  exists w',
    CreateScenario t w =
    Ok (Some {| scenario_type := t;
                GetStatus := Scenario_Init t (configured w t);
                config := configured w t;
                instance := allocated w |}, w')
    /\ steady w w' /\ allocated w' = S (allocated w) /\ probes w' = probes w.
Proof.
  destruct t; try discriminate; intros _; apply new_Scenario_spec.
Qed.

Lemma CreateScenario_null (t : ScenarioType) (w : World) :
  constructible t = false -> CreateScenario t w = Ok (None, w).
Proof. destruct t; try discriminate; reflexivity. Qed.

Lemma probe_spec (scenario current : Scenario) (frame : Frame) (w : World) :
  probe scenario current frame w =
  Ok (IsTransferable scenario current frame,
      log_probe (scenario_type scenario) w).
Proof. reflexivity. Qed.

Lemma steady_log_probe (t : ScenarioType) (w : World) :
  steady w (log_probe t w).
Proof. split; reflexivity. Qed.

(** [SelectSidePassScenario] returns SIDE_PASS or LANE_FOLLOW, the latter
    when no side-pass scenario is transferable from the active one. *)
Lemma SelectSidePassScenario_spec (frame : Frame) (w : World)
    (current : Scenario) :
  current_scenario_ (manager w) = Some current ->
  exists t w',
    SelectSidePassScenario frame w = Ok (t, w')
    /\ steady w w'
    /\ (t = SIDE_PASS \/ t = LANE_FOLLOW)
    /\ ((forall s, scenario_type s = SIDE_PASS ->
                   IsTransferable s current frame = false) ->
        t = LANE_FOLLOW).
Proof.
  intros Hcur. unfold SelectSidePassScenario.
  rewrite (bind_step _ _ _ _ _ (current_scenario_spec w current Hcur)).
  assert (Htrial : forall w0, steady w w0 ->
    exists t w',
      (p <- CreateScenario SIDE_PASS ;;
       scenario <- deref p ;;
       transferable <- probe scenario current frame ;;
       if transferable : bool then ret SIDE_PASS else ret LANE_FOLLOW) w0
      = Ok (t, w')
      /\ steady w w'
      /\ (t = SIDE_PASS \/ t = LANE_FOLLOW)
      /\ ((forall s, scenario_type s = SIDE_PASS ->
                     IsTransferable s current frame = false) ->
          t = LANE_FOLLOW)).
  { intros w0 Hs0.
    destruct (CreateScenario_constructible SIDE_PASS w0 eq_refl)
      as (w1 & Hcreate & Hs1 & _ & _).
    rewrite (bind_step _ _ _ _ _ Hcreate).
    unfold bind at 1, deref at 1. unfold bind at 1. rewrite probe_spec.
    set (trial := {| scenario_type := SIDE_PASS |}).
    destruct (IsTransferable trial current frame) eqn:Htr.
    - eexists _, _. split; [reflexivity|].
      split; [eauto using steady_trans, steady_log_probe|].
      split; [left; reflexivity|].
      intros Hnever. rewrite (Hnever trial eq_refl) in Htr. discriminate.
    - eexists _, _. split; [reflexivity|].
      split; [eauto using steady_trans, steady_log_probe|].
      split; [right; reflexivity|]. reflexivity. }
  destruct (decide (scenario_type current = SIDE_PASS)) as [Hsp|Hsp].
  - unfold bind at 1. rewrite probe_spec.
    destruct (IsTransferable current current frame) eqn:Htr.
    + eexists _, _. split; [reflexivity|].
      split; [apply steady_log_probe|]. split; [left; reflexivity|].
      intros Hnever. rewrite (Hnever current Hsp) in Htr. discriminate.
    + apply Htrial. apply steady_log_probe.
  - unfold bind at 1. cbn [ret]. apply Htrial, steady_refl.
Qed.

(** ** Dispatch *)

(** The scanning loop leaves the first overlap of each category. *)
Lemma scan_first_encountered_spec
    (overlaps : list (OverlapType * PathOverlap)) :
  scan_first_encountered overlaps =
  (first_overlap_of STOP_SIGN overlaps, first_overlap_of SIGNAL overlaps).
Proof.
  unfold scan_first_encountered.
  enough (Hgen : forall found,
    foldl
      (fun found overlap =>
         (if bool_decide (fst found = None)
             && bool_decide (fst overlap = STOP_SIGN)
          then Some (snd overlap) else fst found,
          if bool_decide (snd found = None)
             && bool_decide (fst overlap = SIGNAL)
          then Some (snd overlap) else snd found))
      found overlaps =
    (match fst found with
     | Some o => Some o
     | None => first_overlap_of STOP_SIGN overlaps
     end,
     match snd found with
     | Some o => Some o
     | None => first_overlap_of SIGNAL overlaps
     end)) by exact (Hgen (None, None)).
  induction overlaps as [|[category o] overlaps IH]; intros [a b].
  - destruct a, b; reflexivity.
  - cbn [foldl]. rewrite IH. unfold first_overlap_of. cbn [find fst snd].
    destruct a, b, category; reflexivity.
Qed.

Lemma overlap_found_stop_sign (a b : option PathOverlap) :
  fst (overlap_found a b) = true -> exists o, a = Some o.
Proof. destruct a as [o|]; [eauto|]. destruct b; discriminate. Qed.

Lemma overlap_found_traffic_light (a b : option PathOverlap) :
  snd (overlap_found a b) = true -> exists o, b = Some o.
Proof. destruct b as [o|]; [eauto|]. destruct a; discriminate. Qed.

(** The intersection block, branch by branch. *)
Lemma intersection_scenarios_unfold (frame : Frame) (w : World)
    (ref : ReferenceLineInfo) (rest : list ReferenceLineInfo) :
  reference_line_info frame = ref :: rest ->
  let stop_sign := first_overlap_of STOP_SIGN (FirstEncounteredOverlaps ref) in
  let signal := first_overlap_of SIGNAL (FirstEncounteredOverlaps ref) in
  intersection_scenarios frame w =
  if fst (overlap_found stop_sign signal)
  then if FLAGS_enable_scenario_stop_sign
       then match stop_sign with
            | Some overlap => SelectStopSignScenario frame overlap w
            | None => Undefined
            end
       else Ok (LANE_FOLLOW, w)
  else if snd (overlap_found stop_sign signal)
  then if FLAGS_enable_scenario_traffic_light
       then match signal with
            | Some overlap => SelectTrafficLightScenario frame overlap w
            | None => Undefined
            end
       else Ok (LANE_FOLLOW, w)
  else Ok (LANE_FOLLOW, w).
Proof.
  intros Href. cbv zeta. unfold intersection_scenarios.
  rewrite Href. unfold bind at 1. cbn [front].
  rewrite scan_first_encountered_spec. cbn [fst snd].
  destruct (fst (overlap_found _ _)).
  - destruct FLAGS_enable_scenario_stop_sign; [|reflexivity].
    destruct (first_overlap_of STOP_SIGN _); reflexivity.
  - destruct (snd (overlap_found _ _)); [|reflexivity].
    destruct FLAGS_enable_scenario_traffic_light; [|reflexivity].
    destruct (first_overlap_of SIGNAL _); reflexivity.
Qed.

(** The intersection block always yields a type the factory constructs, or
    the active type, and allocates and probes nothing. *)
Lemma intersection_scenarios_spec (frame : Frame) (w : World)
    (ref : ReferenceLineInfo) (rest : list ReferenceLineInfo)
    (current : Scenario) :
  reference_line_info frame = ref :: rest ->
  current_scenario_ (manager w) = Some current ->
  exists t w',
    intersection_scenarios frame w = Ok (t, w')
    /\ quiet w w'
    /\ (constructible t = true \/ t = scenario_type current).
Proof.
  intros Href Hcur. rewrite (intersection_scenarios_unfold _ _ _ _ Href).
  cbv zeta.
  destruct (fst (overlap_found _ _)) eqn:Hss;
    [|destruct (snd (overlap_found _ _)) eqn:Htl].
  - destruct FLAGS_enable_scenario_stop_sign.
    + destruct (overlap_found_stop_sign _ _ Hss) as [o ->].
      destruct (SelectStopSignScenario_spec frame o w ref rest current
                  Href Hcur) as (w1 & Hsel & Hq).
      eexists _, w1. split; [exact Hsel|]. split; [exact Hq|].
      destruct (cruising _); [destruct (_ && _)%bool; auto|].
      destruct (IsStopSignScenario _); [destruct (decide _)|]; auto.
    + exists LANE_FOLLOW, w. auto using quiet_refl.
  - destruct FLAGS_enable_scenario_traffic_light.
    + destruct (overlap_found_traffic_light _ _ Htl) as [o ->].
      destruct (SelectTrafficLightScenario_spec frame o w ref rest current
                  Href Hcur) as (w1 & Hsel & Hq).
      eexists _, w1. split; [exact Hsel|]. split; [exact Hq|].
      destruct (cruising (scenario_type current)) eqn:Hcr.
      * rewrite (traffic_light_loop_cruising _ _ _ _ _ Hcr).
        destruct (existsb _ _); [|auto].
        left. destruct (GetPathTurnType ref); reflexivity.
      * rewrite (traffic_light_loop_not_cruising _ _ _ _ _ _ Hcr).
        destruct (_ && _)%bool; auto.
    + exists LANE_FOLLOW, w. auto using quiet_refl.
  - exists LANE_FOLLOW, w. auto using quiet_refl.
Qed.

(** Dispatch up to the debug line, block by block. *)
Lemma dispatch_scenario_type_unfold (frame : Frame) (w : World)
    (current : Scenario) :
  current_scenario_ (manager w) = Some current ->
  dispatch_scenario_type frame w =
  if decide (not_switchable current = LANE_FOLLOW)
  then match intersection_scenarios frame w with
       | Ok (t, w1) =>
           if decide (t = LANE_FOLLOW)
           then SelectSidePassScenario frame w1
           else Ok (t, w1)
       | CheckFailed => CheckFailed
       | Undefined => Undefined
       end
  else Ok (not_switchable current, w).
Proof.
  intros Hcur. unfold dispatch_scenario_type.
  rewrite (bind_step _ _ _ _ _ (current_scenario_spec w current Hcur)).
  destruct (decide (not_switchable current = LANE_FOLLOW)) as [Hlf|Hlf].
  - unfold bind at 1.
    destruct (intersection_scenarios frame w) as [[t w1]| |]; try reflexivity.
    destruct (decide (t = LANE_FOLLOW)) as [->|Ht].
    + unfold bind, SelectChangeLaneScenario.
      destruct (1 <? length (reference_line_info frame))%nat; reflexivity.
    + unfold bind, ret. rewrite !decide_False by exact Ht. reflexivity.
  - unfold bind, ret. rewrite !decide_False by exact Hlf. reflexivity.
Qed.

Lemma not_switchable_spec (current : Scenario) :
  not_switchable current = LANE_FOLLOW \/
  not_switchable current = scenario_type current.
Proof.
  unfold not_switchable.
  destruct (scenario_type current); auto; destruct (decide _); auto.
Qed.

(** Dispatch resolves to a type the factory constructs, or to the active
    type, and leaves the active scenario in place. *)
Lemma dispatch_scenario_type_spec (frame : Frame) (w : World)
    (current : Scenario) :
  reference_line_info frame <> [] ->
  current_scenario_ (manager w) = Some current ->
  exists t w',
    dispatch_scenario_type frame w = Ok (t, w')
    /\ steady w w'
    /\ (constructible t = true \/ t = scenario_type current).
Proof.
  intros Hne Hcur. rewrite (dispatch_scenario_type_unfold _ _ _ Hcur).
  destruct (reference_line_info frame) as [|ref rest] eqn:Href;
    [contradiction|].
  destruct (decide (not_switchable current = LANE_FOLLOW)) as [Hlf|Hlf].
  - destruct (intersection_scenarios_spec frame w ref rest current Href Hcur)
      as (t & w1 & -> & Hq & Ht).
    destruct (decide (t = LANE_FOLLOW)) as [->|Hnlf].
    + destruct (SelectSidePassScenario_spec frame w1 current) as
        (t' & w2 & Hsp & Hs & [-> | ->] & _).
      { rewrite (steady_current _ _ (quiet_steady _ _ Hq)). exact Hcur. }
      * exists SIDE_PASS, w2. split; [exact Hsp|].
        split; [eauto using steady_trans, quiet_steady|]. left; reflexivity.
      * exists LANE_FOLLOW, w2. split; [exact Hsp|].
        split; [eauto using steady_trans, quiet_steady|]. left; reflexivity.
    + exists t, w1. split; [reflexivity|].
      split; [exact (quiet_steady _ _ Hq)|exact Ht].
  - exists (not_switchable current), w. split; [reflexivity|].
    split; [apply steady_refl|].
    destruct (not_switchable_spec current); [contradiction|auto].
Qed.


(** C5: in Dispatch, when the active scenario is a side-pass, stop-sign or
    traffic-light scenario whose status is not DONE, the resolved type is the
    active type, and resolving it ran none of the selection steps: the world
    is untouched (no configuration read, no scenario constructed, no
    transferability test). *)
Theorem dispatch_sticky (frame : Frame) (w : World) (current : Scenario) :
  current_scenario_ (manager w) = Some current ->
  scenario_type current = SIDE_PASS
  \/ IsStopSignScenario (scenario_type current) = true
  \/ IsTrafficLightScenario (scenario_type current) = true ->
  GetStatus current <> STATUS_DONE ->
  dispatch_scenario_type frame w = Ok (scenario_type current, w).
Proof.
  intros Hcur Htype Hstatus.
  rewrite (dispatch_scenario_type_unfold _ _ _ Hcur).
  assert (Hpin : not_switchable current = scenario_type current
                 /\ scenario_type current <> LANE_FOLLOW).
  { unfold not_switchable.
    destruct (scenario_type current), Htype as [H|[H|H]];
      try discriminate H; rewrite ?decide_True by exact Hstatus;
      split; (reflexivity || discriminate). }
  destruct Hpin as [Heq Hne]. rewrite Heq.
  rewrite decide_False by exact Hne. reflexivity.
Qed.

(** C2 (amended): in Dispatch with the stop-sign feature enabled, when the
    candidate is still LANE_FOLLOW, the active type is LaneFollow, ChangeLane,
    SidePass or Approach and the stop-sign overlap wins, the candidate is
    StopSignUnprotected exactly when distance = start_s - front edge satisfies
    0 < distance <= threshold; otherwise the intersection block leaves the
    active scenario's type, which is LaneFollow only when the active scenario
    is LaneFollow.  With threshold 10 and start_s 105, front edges 100 and 96
    are inside the gate and 94 and 106 outside. *)
Theorem stop_sign_distance_gate (frame : Frame) (w : World)
    (ref : ReferenceLineInfo) (rest : list ReferenceLineInfo)
    (current : Scenario) (stop_sign : PathOverlap) :
  FLAGS_enable_scenario_stop_sign = true ->
  reference_line_info frame = ref :: rest ->
  current_scenario_ (manager w) = Some current ->
  cruising (scenario_type current) = true ->
  not_switchable current = LANE_FOLLOW ->
  first_overlap_of STOP_SIGN (FirstEncounteredOverlaps ref) = Some stop_sign ->
  fst (overlap_found (Some stop_sign)
         (first_overlap_of SIGNAL (FirstEncounteredOverlaps ref))) = true ->
  let distance := (start_s stop_sign - AdcSlBoundary_end_s ref)%float in
  let threshold :=
    start_stop_sign_scenario_distance
      (stop_sign_unprotected_config (configured w STOP_SIGN_UNPROTECTED)) in
  let within := ((0 <? distance) && (distance <=? threshold))%float in
  returns (intersection_scenarios frame) w
    (if within then STOP_SIGN_UNPROTECTED else scenario_type current)
  /\ (exists t,
        returns (dispatch_scenario_type frame) w t
        /\ (t = STOP_SIGN_UNPROTECTED <-> within = true)
        /\ (within = false ->
            (forall s, scenario_type s = SIDE_PASS ->
                       IsTransferable s current frame = false) ->
            t = scenario_type current))
  /\ (threshold = 10%float -> start_s stop_sign = 105%float ->
      (AdcSlBoundary_end_s ref = 100%float \/
       AdcSlBoundary_end_s ref = 96%float -> within = true)
      /\ (AdcSlBoundary_end_s ref = 94%float \/
          AdcSlBoundary_end_s ref = 106%float -> within = false)).
Proof.
  intros Hflag Href Hcur Hcr Hlf Hss Hwin. cbv zeta.
  destruct (SelectStopSignScenario_spec frame stop_sign w ref rest current
              Href Hcur) as (w1 & Hsel & Hq).
  cbv zeta in Hsel. rewrite Hcr in Hsel.
  assert (Hblock : intersection_scenarios frame w =
                   SelectStopSignScenario frame stop_sign w).
  { rewrite (intersection_scenarios_unfold _ _ _ _ Href). cbv zeta.
    rewrite Hss, Hwin, Hflag. reflexivity. }
  split; [exists w1; rewrite Hblock; exact Hsel|]. split.
  - unfold returns. rewrite (dispatch_scenario_type_unfold _ _ _ Hcur).
    rewrite decide_True by exact Hlf. rewrite Hblock, Hsel.
    destruct (_ && _)%bool eqn:Hwithin.
    + exists STOP_SIGN_UNPROTECTED. rewrite decide_False by discriminate.
      split; [exists w1; reflexivity|]. split; [tauto|discriminate].
    + destruct (decide (scenario_type current = LANE_FOLLOW)) as [Heq|Hne].
      * destruct (SelectSidePassScenario_spec frame w1 current) as
          (t & w2 & Hsp & _ & Hrange & Hnever).
        { rewrite (steady_current _ _ (quiet_steady _ _ Hq)). exact Hcur. }
        exists t. split; [exists w2; exact Hsp|]. split.
        -- split; [|discriminate].
           destruct Hrange as [-> | ->]; discriminate.
        -- intros _ Hno. rewrite (Hnever Hno). symmetry. exact Heq.
      * exists (scenario_type current).
        split; [exists w1; reflexivity|]. split; [|reflexivity].
        split; [|discriminate]. intros Heq. rewrite Heq in Hcr. discriminate.
  - intros -> ->. split; intros [-> | ->]; reflexivity.
Qed.

(** From a cruising scenario, a tracked overlap within the maximum distance
    makes [SelectTrafficLightScenario] classify by turn type. *)
Lemma SelectTrafficLightScenario_cruising (frame : Frame)
    (overlap : PathOverlap) (w : World) (ref : ReferenceLineInfo)
    (rest : list ReferenceLineInfo) (current : Scenario)
    (tracked : PathOverlap) :
  reference_line_info frame = ref :: rest ->
  current_scenario_ (manager w) = Some current ->
  cruising (scenario_type current) = true ->
  In tracked (current_traffic_light_overlaps (scenario_info w)) ->
  (start_s tracked - AdcSlBoundary_end_s ref <=?
   max_valid_stop_distance
     (traffic_light_unprotected_right_turn_config
        (configured w TRAFFIC_LIGHT_PROTECTED)))%float = true ->
  exists w',
    SelectTrafficLightScenario frame overlap w =
    Ok (traffic_light_scenario_of (GetPathTurnType ref), w')
    /\ quiet w w'.
Proof.
  intros Href Hcur Hcr Hin Hle.
  destruct (SelectTrafficLightScenario_spec frame overlap w ref rest current
              Href Hcur) as (w1 & Hsel & Hq).
  rewrite (traffic_light_loop_cruising _ _ _ _ _ Hcr) in Hsel.
  assert (Hex : existsb
                  (fun o =>
                     (start_s o - AdcSlBoundary_end_s ref <=?
                      max_valid_stop_distance
                        (traffic_light_unprotected_right_turn_config
                           (configured w TRAFFIC_LIGHT_PROTECTED)))%float)
                  (current_traffic_light_overlaps (scenario_info w)) = true)
    by (apply existsb_exists; eauto).
  rewrite Hex in Hsel. eauto.
Qed.

(** C3 (amended): in Dispatch with the traffic-light feature enabled, when
    the candidate is still LANE_FOLLOW, the active type is LaneFollow,
    ChangeLane, SidePass or Approach and the traffic-light overlap wins, the
    candidate is classified by the route's turn type as soon as one of the
    signaled overlaps tracked in the planning context lies within the maximum
    valid stop distance of the front edge: right turn gives
    TrafficLightUnprotectedRightTurn, left turn and any other turn type give
    TrafficLightProtected. *)
Theorem traffic_light_classification (frame : Frame) (w : World)
    (ref : ReferenceLineInfo) (rest : list ReferenceLineInfo)
    (current : Scenario) (tracked : PathOverlap) :
  FLAGS_enable_scenario_traffic_light = true ->
  reference_line_info frame = ref :: rest ->
  current_scenario_ (manager w) = Some current ->
  cruising (scenario_type current) = true ->
  not_switchable current = LANE_FOLLOW ->
  overlap_found (first_overlap_of STOP_SIGN (FirstEncounteredOverlaps ref))
    (first_overlap_of SIGNAL (FirstEncounteredOverlaps ref)) = (false, true) ->
  In tracked (current_traffic_light_overlaps (scenario_info w)) ->
  (start_s tracked - AdcSlBoundary_end_s ref <=?
   max_valid_stop_distance
     (traffic_light_unprotected_right_turn_config
        (configured w TRAFFIC_LIGHT_PROTECTED)))%float = true ->
  exists t,
    returns (intersection_scenarios frame) w t
    /\ returns (dispatch_scenario_type frame) w t
    /\ (GetPathTurnType ref = RIGHT_TURN ->
        t = TRAFFIC_LIGHT_UNPROTECTED_RIGHT_TURN)
    /\ (GetPathTurnType ref = LEFT_TURN -> t = TRAFFIC_LIGHT_PROTECTED)
    /\ (GetPathTurnType ref = NO_TURN -> t = TRAFFIC_LIGHT_PROTECTED).
Proof.
  intros Hflag Href Hcur Hcr Hlf Hfound Hin Hle.
  destruct (overlap_found_traffic_light _ _ (f_equal snd Hfound))
    as [signal Hsignal].
  destruct (SelectTrafficLightScenario_cruising frame signal w ref rest
              current tracked Href Hcur Hcr Hin Hle) as (w1 & Hsel & Hq).
  assert (Hblock : intersection_scenarios frame w =
                   Ok (traffic_light_scenario_of (GetPathTurnType ref), w1)).
  { rewrite (intersection_scenarios_unfold _ _ _ _ Href). cbv zeta.
    rewrite Hfound, Hsignal, Hflag. exact Hsel. }
  exists (traffic_light_scenario_of (GetPathTurnType ref)).
  split; [exists w1; exact Hblock|]. split.
  - exists w1. rewrite (dispatch_scenario_type_unfold _ _ _ Hcur).
    rewrite decide_True by exact Hlf. rewrite Hblock.
    rewrite decide_False by (destruct (GetPathTurnType ref); discriminate).
    reflexivity.
  - repeat split; intros ->; reflexivity.
Qed.

(** C10: in [SelectTrafficLightScenario], from an active LaneFollow,
    ChangeLane, SidePass or Approach scenario, any tracked traffic-light
    overlap whose start_s minus the front-edge s is at most
    max_valid_stop_distance selects a traffic-light scenario, whatever the
    sign of that distance; [SelectStopSignScenario] selects no stop-sign
    scenario unless the distance is strictly positive. *)
Theorem traffic_light_gate_has_no_lower_bound (frame : Frame)
    (first_encountered : PathOverlap) (w : World) (ref : ReferenceLineInfo)
    (rest : list ReferenceLineInfo) (current : Scenario)
    (tracked : PathOverlap) :
  reference_line_info frame = ref :: rest ->
  current_scenario_ (manager w) = Some current ->
  cruising (scenario_type current) = true ->
  In tracked (current_traffic_light_overlaps (scenario_info w)) ->
  (start_s tracked - AdcSlBoundary_end_s ref <=?
   max_valid_stop_distance
     (traffic_light_unprotected_right_turn_config
        (configured w TRAFFIC_LIGHT_PROTECTED)))%float = true ->
  (exists t,
     returns (SelectTrafficLightScenario frame first_encountered) w t
     /\ IsTrafficLightScenario t = true
     /\ t = traffic_light_scenario_of (GetPathTurnType ref))
  /\ (forall stop_sign : PathOverlap,
        (0 <? start_s stop_sign - AdcSlBoundary_end_s ref)%float = false ->
        returns (SelectStopSignScenario frame stop_sign) w
          (scenario_type current)
        /\ IsStopSignScenario (scenario_type current) = false).
Proof.
  intros Href Hcur Hcr Hin Hle. split.
  - destruct (SelectTrafficLightScenario_cruising frame first_encountered w
                ref rest current tracked Href Hcur Hcr Hin Hle)
      as (w1 & Hsel & _).
    exists (traffic_light_scenario_of (GetPathTurnType ref)).
    split; [exists w1; exact Hsel|].
    split; [destruct (GetPathTurnType ref)|]; reflexivity.
  - intros stop_sign Hpos.
    destruct (SelectStopSignScenario_spec frame stop_sign w ref rest current
                Href Hcur) as (w1 & Hsel & _).
    cbv zeta in Hsel. rewrite Hcr, Hpos in Hsel. cbn [andb] in Hsel.
    split; [exists w1; exact Hsel|].
    destruct (scenario_type current); try discriminate Hcr; reflexivity.
Qed.

(** ** Committing the resolved type *)

Lemma UpdatePlanningContext_spec (frame : Frame) (t : ScenarioType)
    (w : World) (current : Scenario) :
  reference_line_info frame <> [] ->
  current_scenario_ (manager w) = Some current ->
  exists w',
    UpdatePlanningContext frame t w = Ok (tt, w')
    /\ manager w' = manager w
    /\ allocated w' = allocated w
    /\ probes w' = probes w.
Proof.
  intros Hne Hcur. unfold UpdatePlanningContext.
  destruct (reference_line_info frame) as [|ref rest]; [contradiction|].
  unfold bind at 1. cbn [front].
  destruct (negb (IsStopSignScenario t) && negb (IsTrafficLightScenario t)).
  { eexists. split; [reflexivity|]. repeat split. }
  destruct (IsStopSignScenario t); [|eexists; split; [reflexivity|]; repeat split].
  rewrite (bind_step _ _ _ _ _ (current_scenario_spec w current Hcur)).
  destruct (decide (t <> scenario_type current)).
  - destruct (first_overlap_of _ _);
      eexists; (split; [reflexivity|]); repeat split.
  - unfold bind, gets. destruct (find _ _);
      eexists; (split; [reflexivity|]); repeat split.
Qed.

(** [ScenarioDispatch] completes; it keeps the active object when the
    resolved type is the active type and installs a newly allocated object of
    the resolved type otherwise. *)
Lemma ScenarioDispatch_spec (frame : Frame) (w : World) (current : Scenario) :
  reference_line_info frame <> [] ->
  current_scenario_ (manager w) = Some current ->
  exists t w1 w',
    dispatch_scenario_type frame w = Ok (t, w1)
    /\ ScenarioDispatch frame w = Ok (tt, w')
    /\ default_scenario_type_ (manager w') = default_scenario_type_ (manager w)
    /\ supported_scenarios_ (manager w') = supported_scenarios_ (manager w)
    /\ (t = scenario_type current ->
        current_scenario_ (manager w') = Some current)
    /\ (t <> scenario_type current ->
        exists fresh,
          current_scenario_ (manager w') = Some fresh
          /\ scenario_type fresh = t
          /\ allocated w <= instance fresh).
Proof.
  intros Hne Hcur.
  destruct (dispatch_scenario_type_spec frame w current Hne Hcur)
    as (t & w1 & Hres & Hs1 & Ht).
  assert (Hcur1 : current_scenario_ (manager w1) = Some current)
    by (rewrite (steady_current _ _ Hs1); exact Hcur).
  destruct (UpdatePlanningContext_spec frame t w1 current Hne Hcur1)
    as (w2 & Hupd & Hm2 & Ha2 & _).
  assert (Hcur2 : current_scenario_ (manager w2) = Some current)
    by (rewrite Hm2; exact Hcur1).
  assert (Hrun : ScenarioDispatch frame w =
                 if decide (scenario_type current <> t)
                 then (scenario <- CreateScenario t ;;
                       modify_manager (set_current_scenario scenario)) w2
                 else Ok (tt, w2)).
  { unfold ScenarioDispatch.
    rewrite (bool_decide_eq_false_2 _ Hne). unfold bind at 1. cbn [CHECK negb].
    rewrite (bind_step _ _ _ _ _ Hres), (bind_step _ _ _ _ _ Hupd).
    rewrite (bind_step _ _ _ _ _ (current_scenario_spec w2 current Hcur2)).
    destruct (decide _); reflexivity. }
  destruct (decide (scenario_type current <> t)) as [Hdiff|Hsame].
  - destruct Ht as [Hc|Heq]; [|congruence].
    destruct (CreateScenario_constructible t w2 Hc)
      as (w3 & Hcreate & Hs3 & _ & _).
    rewrite (bind_step _ _ _ _ _ Hcreate) in Hrun.
    eexists t, w1, _. split; [exact Hres|]. split; [exact Hrun|].
    cbn. rewrite (steady_default _ _ Hs3), (steady_supported _ _ Hs3), Hm2.
    split; [exact (steady_default _ _ Hs1)|].
    split; [exact (steady_supported _ _ Hs1)|].
    split; [congruence|].
    intros _. eexists. split; [reflexivity|]. split; [reflexivity|].
    cbn. rewrite Ha2. exact (steady_allocated _ _ Hs1).
  - assert (Heq : t = scenario_type current).
    { destruct (decide (t = scenario_type current)) as [|Hn]; [assumption|].
      exfalso. apply Hsame. congruence. }
    exists t, w1, w2. split; [exact Hres|]. split; [exact Hrun|].
    rewrite Hm2.
    split; [exact (steady_default _ _ Hs1)|].
    split; [exact (steady_supported _ _ Hs1)|].
    split; [intros _; congruence|congruence].
Qed.

(** C7: Dispatch replaces the active Scenario exactly when the resolved type
    differs from the active type.  When they are equal the manager still
    holds the very same object, status and configuration included; when they
    differ it holds a newly allocated object of the resolved type. *)
Theorem dispatch_replaces_iff_type_differs (frame : Frame) (w : World)
    (current : Scenario) :
  reference_line_info frame <> [] ->
  current_scenario_ (manager w) = Some current ->
  exists t w',
    returns (dispatch_scenario_type frame) w t
    /\ ScenarioDispatch frame w = Ok (tt, w')
    /\ (t = scenario_type current ->
        current_scenario_ (manager w') = Some current)
    /\ (t <> scenario_type current ->
        exists fresh,
          current_scenario_ (manager w') = Some fresh
          /\ scenario_type fresh = t
          /\ allocated w <= instance fresh)
    /\ (current_scenario_ (manager w') = Some current <->
        t = scenario_type current).
Proof.
  intros Hne Hcur.
  destruct (ScenarioDispatch_spec frame w current Hne Hcur)
    as (t & w1 & w' & Hres & Hrun & _ & _ & Hsame & Hdiff).
  exists t, w'. split; [exists w1; exact Hres|]. split; [exact Hrun|].
  split; [exact Hsame|]. split; [exact Hdiff|].
  split; [|exact Hsame].
  intros Hkept. destruct (decide (t = scenario_type current)) as [|Hn];
    [assumption|].
  destruct (Hdiff Hn) as (fresh & Hfresh & Htype & _). congruence.
Qed.

(** ** Registration and initialisation *)

Lemma config_map_at_registered (k : ScenarioType) (w : World)
    (c : ScenarioConfig) :
  config_map_ (manager w) !! k = Some c -> config_map_at k w = Ok (c, w).
Proof. unfold config_map_at. intros ->. reflexivity. Qed.

Lemma load_config_into_spec (file : string) (k : ScenarioType) (w : World) :
  load_config_into file k w =
  match LoadConfig file with
  | Some c =>
      Ok (tt, set_manager
                (set_config_map (<[k := c]> (config_map_ (manager w)))
                   (manager w)) w)
  | None => CheckFailed
  end.
Proof.
  unfold load_config_into, bind at 1, config_map_at.
  destruct (config_map_ (manager w) !! k) eqn:Hk;
    destruct (LoadConfig file); try reflexivity.
  unfold bind, modify_manager, modify, CHECK. cbn.
  rewrite insert_insert_eq. reflexivity.
Qed.

(** [RegisterScenarios] is where a configuration that cannot be loaded is
    fatal; otherwise it changes the configuration map only. *)
Lemma RegisterScenarios_spec (w : World) :
  match RegisterScenarios w with
  | Ok (_, w') =>
      (exists c, w' = set_manager (set_config_map c (manager w)) w)
      /\ forall k, constructible k = true ->
                   is_Some (config_map_ (manager w') !! k)
  | CheckFailed =>
      exists file,
        In file
          [ FLAGS_scenario_lane_follow_config_file;
            FLAGS_scenario_side_pass_config_file;
            FLAGS_scenario_stop_sign_unprotected_config_file;
            FLAGS_scenario_traffic_light_protected_config_file;
            FLAGS_scenario_traffic_light_unprotected_left_turn_config_file;
            FLAGS_scenario_traffic_light_unprotected_right_turn_config_file ]
        /\ LoadConfig file = None
  | Undefined => False
  end.
Proof.
  unfold RegisterScenarios, bind. rewrite load_config_into_spec.
  destruct (LoadConfig FLAGS_scenario_lane_follow_config_file) eqn:H1;
    [|eexists; split; [|exact H1]; cbn; tauto].
  rewrite load_config_into_spec.
  destruct (LoadConfig FLAGS_scenario_side_pass_config_file) eqn:H2;
    [|eexists; split; [|exact H2]; cbn; tauto].
  rewrite load_config_into_spec.
  destruct (LoadConfig FLAGS_scenario_stop_sign_unprotected_config_file)
    eqn:H3; [|eexists; split; [|exact H3]; cbn; tauto].
  rewrite load_config_into_spec.
  destruct (LoadConfig FLAGS_scenario_traffic_light_protected_config_file)
    eqn:H4; [|eexists; split; [|exact H4]; cbn; tauto].
  rewrite load_config_into_spec.
  destruct (LoadConfig
              FLAGS_scenario_traffic_light_unprotected_left_turn_config_file)
    eqn:H5; [|eexists; split; [|exact H5]; cbn; tauto].
  rewrite load_config_into_spec.
  destruct (LoadConfig
              FLAGS_scenario_traffic_light_unprotected_right_turn_config_file)
    eqn:H6; [|eexists; split; [|exact H6]; cbn; tauto].
  split; [eexists; reflexivity|].
  intros k Hk. cbn.
  destruct k; try discriminate Hk;
    repeat (rewrite lookup_insert_ne by discriminate);
    rewrite lookup_insert_eq; eauto.
Qed.

(** [Init] returns unless a configuration fails to load, and then the active
    scenario is a LANE_FOLLOW object. *)
Lemma Init_spec (supported : gset ScenarioType) (w : World) :
  match Init supported w with
  | Ok (_, w') =>
      (exists s, current_scenario_ (manager w') = Some s
                 /\ scenario_type s = LANE_FOLLOW
                 /\ instance s < allocated w')
      /\ default_scenario_type_ (manager w') = LANE_FOLLOW
      /\ supported_scenarios_ (manager w') = supported
  | CheckFailed => RegisterScenarios w = CheckFailed
  | Undefined => False
  end.
Proof.
  unfold Init. unfold bind at 1.
  pose proof (RegisterScenarios_spec w) as Hreg.
  destruct (RegisterScenarios w) as [[[] w1]| |]; [|reflexivity|contradiction].
  clear Hreg. unfold bind at 1, modify_manager at 1, modify at 1.
  unfold bind at 1, modify_manager at 1, modify at 1.
  unfold bind at 1, gets at 1. cbn [default_scenario_type_ manager set_manager
    set_supported_scenarios set_default_scenario_type].
  match goal with
  | |- context [bind (CreateScenario LANE_FOLLOW) ?k ?w0] =>
      destruct (CreateScenario_constructible LANE_FOLLOW w0 eq_refl)
        as (w2 & Hcreate & Hs & Ha & _);
      rewrite (bind_step _ _ _ _ _ Hcreate)
  end.
  unfold bind, modify_manager, modify, ret. cbn.
  cbn in Ha.
  split; [eexists; split; [reflexivity|]; cbn; split; [reflexivity|lia]|].
  rewrite (steady_default _ _ Hs), (steady_supported _ _ Hs). cbn. auto.
Qed.

(** What a completed [RegisterScenarios] leaves in the configuration map. *)
Lemma RegisterScenarios_loaded (w w' : World) :
  RegisterScenarios w = Ok (tt, w') ->
  (forall t,
      config_map_ (manager w') !! t
      = match config_file t with
        | Some file => LoadConfig file
        | None => config_map_ (manager w) !! t
        end)
  /\ w' = set_manager (set_config_map (config_map_ (manager w')) (manager w)) w.
Proof.
  unfold RegisterScenarios, bind. rewrite load_config_into_spec.
  destruct (LoadConfig FLAGS_scenario_lane_follow_config_file) eqn:H1;
    [|discriminate].
  rewrite load_config_into_spec.
  destruct (LoadConfig FLAGS_scenario_side_pass_config_file) eqn:H2;
    [|discriminate].
  rewrite load_config_into_spec.
  destruct (LoadConfig FLAGS_scenario_stop_sign_unprotected_config_file)
    eqn:H3; [|discriminate].
  rewrite load_config_into_spec.
  destruct (LoadConfig FLAGS_scenario_traffic_light_protected_config_file)
    eqn:H4; [|discriminate].
  rewrite load_config_into_spec.
  destruct (LoadConfig
              FLAGS_scenario_traffic_light_unprotected_left_turn_config_file)
    eqn:H5; [|discriminate].
  rewrite load_config_into_spec.
  destruct (LoadConfig
              FLAGS_scenario_traffic_light_unprotected_right_turn_config_file)
    eqn:H6; [|discriminate].
  intros [= <-]. split; [|reflexivity].
  intros t. cbn.
  destruct t; cbn [config_file];
    repeat (rewrite lookup_insert_ne by discriminate);
    rewrite ?lookup_insert_eq; congruence.
Qed.

(** The factory on a registered type. *)
Lemma CreateScenario_registered (t : ScenarioType) (w : World)
    (c : ScenarioConfig) :
  constructible t = true ->
  config_map_ (manager w) !! t = Some c ->
  CreateScenario t w
  = Ok (Some {| scenario_type := t; GetStatus := Scenario_Init t c;
                config := c; instance := allocated w |}, allocate w).
Proof.
  intros Hc Hreg.
  destruct t; try discriminate Hc; unfold CreateScenario, new_Scenario;
    rewrite (bind_step _ _ _ _ _ (config_map_at_registered _ w c Hreg));
    reflexivity.
Qed.

(** C9 (amended): invoked for a scenario type it has no case for (ChangeLane,
    Approach, StopSignProtected) [CreateScenario] does not fail: it returns a
    null pointer and changes nothing.  Invoked for one of the six other types
    with the configuration of that type registered, it returns a newly
    allocated, initialised Scenario of that type built from the registered
    configuration, and changes nothing besides the allocation.  After the
    registration at startup, from an empty configuration map, the types with
    no registered configuration are exactly the three types without a
    case. *)
Theorem CreateScenario_null_or_built (t : ScenarioType) (w : World) :
  (constructible t = false -> CreateScenario t w = Ok (None, w))
  /\ (constructible t = true ->
      forall c, config_map_ (manager w) !! t = Some c ->
        CreateScenario t w
        = Ok (Some {| scenario_type := t; GetStatus := Scenario_Init t c;
                      config := c; instance := allocated w |}, allocate w))
  /\ (forall w0, config_map_ (manager w0) = ∅ ->
        RegisterScenarios w0 = Ok (tt, w) ->
        (config_map_ (manager w) !! t = None <-> constructible t = false)).
Proof.
  split; [apply CreateScenario_null|].
  split; [intros Hc c Hreg; apply CreateScenario_registered; assumption|].
  intros w0 Hempty Hrun.
  destruct (RegisterScenarios_loaded w0 w Hrun) as [Hload _].
  pose proof (RegisterScenarios_spec w0) as Hspec. rewrite Hrun in Hspec.
  destruct Hspec as [_ Hsome].
  split.
  - intros Hnone. destruct (constructible t) eqn:Hc; [|reflexivity].
    destruct (Hsome t Hc) as [c Hc']. congruence.
  - intros Hc. rewrite Hload, Hempty.
    destruct t; try discriminate Hc; apply lookup_empty.
Qed.

(** ** Self-vote *)

(** [SelectScenario] on another type: one probe of a trial scenario of that
    type when the factory constructs it, a null pointer dereferenced when it
    does not. *)
Lemma SelectScenario_spec (t : ScenarioType) (frame : Frame) (w : World)
    (current : Scenario) :
  current_scenario_ (manager w) = Some current ->
  scenario_type current <> t ->
  match SelectScenario t frame w with
  | Ok (selected, w') =>
      constructible t = true
      /\ probes w' = probes w ++ [t]
      /\ default_scenario_type_ (manager w') = default_scenario_type_ (manager w)
      /\ supported_scenarios_ (manager w') = supported_scenarios_ (manager w)
      /\ allocated w <= allocated w'
      /\ if selected
         then exists s, current_scenario_ (manager w') = Some s
                        /\ scenario_type s = t
                        /\ instance s < allocated w'
         else current_scenario_ (manager w') = Some current
  | CheckFailed => False
  | Undefined => constructible t = false
  end.
Proof.
  intros Hcur Hne. unfold SelectScenario.
  rewrite (bind_step _ _ _ _ _ (current_scenario_spec w current Hcur)).
  rewrite decide_False by exact Hne.
  destruct (constructible t) eqn:Hc.
  - destruct (CreateScenario_constructible t w Hc)
      as (w1 & Hcreate & Hs & Ha & Hp).
    rewrite (bind_step _ _ _ _ _ Hcreate).
    unfold bind at 1, deref at 1. unfold bind at 1. rewrite probe_spec.
    destruct Hs.
    destruct (IsTransferable _ current frame).
    + unfold bind, modify_manager, modify, ret. cbn.
      repeat (split; [congruence || lia|]).
      eexists. split; [reflexivity|]. cbn. split; [reflexivity|lia].
    + cbn. repeat (split; [congruence || lia|]). congruence.
  - rewrite (bind_step _ _ _ _ _ (CreateScenario_null t w Hc)). reflexivity.
Qed.

Lemma walked_nothing (rejected : gset ScenarioType) (w : World) :
  walked rejected w false rejected w.
Proof.
  exists []. rewrite app_nil_r.
  split; [reflexivity|]. split; [constructor|].
  split; [intros t Ht; inversion Ht|].
  split; [reflexivity|]. split; [reflexivity|]. split; [reflexivity|].
  split; [reflexivity|]. intros t. split; [auto|].
  intros [Ht|Ht]; [exact Ht|inversion Ht].
Qed.

(** A rejected probe of [t] followed by a walk that started with [t]
    rejected. *)
Lemma walked_after_rejection (t : ScenarioType)
    (rejected rejected' : gset ScenarioType) (w w1 w' : World)
    (selected : bool) :
  t ∉ rejected ->
  t ∈ supported_scenarios_ (manager w) ->
  probes w1 = probes w ++ [t] ->
  default_scenario_type_ (manager w1) = default_scenario_type_ (manager w) ->
  supported_scenarios_ (manager w1) = supported_scenarios_ (manager w) ->
  allocated w <= allocated w1 ->
  current_scenario_ (manager w1) = current_scenario_ (manager w) ->
  walked ({[t]} ∪ rejected) w1 selected rejected' w' ->
  walked rejected w selected rejected' w'.
Proof.
  intros Hnew Hsup Hp Hd Hs Ha Hc
    (tried & Hp' & Hnd & Hin & Hd' & Hs' & Ha' & Hend).
  exists (t :: tried). split; [rewrite Hp', Hp, <- app_assoc; reflexivity|].
  split.
  { constructor; [|exact Hnd]. intros Ht. apply Hin in Ht as [Ht _].
    apply Ht, elem_of_union_l, elem_of_singleton. reflexivity. }
  split.
  { intros x [->|Hx]%elem_of_cons; [auto|]. apply Hin in Hx as [Hx1 Hx2].
    split; [|congruence]. intros Hr. apply Hx1, elem_of_union_r, Hr. }
  split; [congruence|]. split; [congruence|]. split; [lia|].
  destruct selected.
  - destruct Hend as (s & Hs1 & Hs2 & Hs3). exists s.
    split; [exact Hs1|]. split; [congruence|exact Hs3].
  - destruct Hend as [Hc' Hrej]. split; [congruence|].
    intros x. rewrite Hrej, elem_of_cons, elem_of_union, elem_of_singleton.
    tauto.
Qed.

Lemma walked_selected (t : ScenarioType) (rejected : gset ScenarioType)
    (w w' : World) (s : Scenario) :
  t ∉ rejected ->
  t ∈ supported_scenarios_ (manager w) ->
  probes w' = probes w ++ [t] ->
  default_scenario_type_ (manager w') = default_scenario_type_ (manager w) ->
  supported_scenarios_ (manager w') = supported_scenarios_ (manager w) ->
  allocated w <= allocated w' ->
  current_scenario_ (manager w') = Some s ->
  scenario_type s = t ->
  instance s < allocated w' ->
  walked rejected w true rejected w'.
Proof.
  intros Hnew Hsup Hp Hd Hs Ha Hc Ht Hi. exists [t].
  split; [exact Hp|]. split; [apply NoDup_singleton|].
  split; [intros x ->%list_elem_of_singleton; auto|].
  split; [exact Hd|]. split; [exact Hs|]. split; [exact Ha|].
  exists s. rewrite Ht. auto.
Qed.

(** One iteration of either walk on a candidate that is neither rejected nor
    unsupported, followed by the rest of the walk. *)
Lemma walk_step (frame : Frame) (candidate : ScenarioType)
    (rejected : gset ScenarioType) (w : World) (current : Scenario)
    (continue : gset ScenarioType -> M (bool * gset ScenarioType)) :
  current_scenario_ (manager w) = Some current ->
  scenario_type current ∈ rejected ->
  candidate ∉ rejected ->
  candidate ∈ supported_scenarios_ (manager w) ->
  (forall w1,
      current_scenario_ (manager w1) = Some current ->
      supported_scenarios_ (manager w1) = supported_scenarios_ (manager w) ->
      match continue ({[candidate]} ∪ rejected) w1 with
      | Ok ((selected, rejected'), w') =>
          walked ({[candidate]} ∪ rejected) w1 selected rejected' w'
      | CheckFailed => False
      | Undefined =>
          exists t, t ∈ supported_scenarios_ (manager w)
                    /\ constructible t = false
      end) ->
  match (selected <- SelectScenario candidate frame ;;
         if selected : bool
         then ret (true, rejected)
         else continue ({[candidate]} ∪ rejected)) w with
  | Ok ((selected, rejected'), w') => walked rejected w selected rejected' w'
  | CheckFailed => False
  | Undefined =>
      exists t, t ∈ supported_scenarios_ (manager w) /\ constructible t = false
  end.
Proof.
  intros Hcur Hrej Hnew Hsup Hcont.
  assert (Hne : scenario_type current <> candidate) by congruence.
  pose proof (SelectScenario_spec candidate frame w current Hcur Hne) as Hsel.
  unfold bind at 1.
  destruct (SelectScenario candidate frame w) as [[[] w1]| |];
    [| |contradiction|eauto].
  - destruct Hsel as (_ & Hp & Hd & Hs & Ha & s & Hc & Ht & Hi).
    eapply walked_selected; eassumption.
  - destruct Hsel as (_ & Hp & Hd & Hs & Ha & Hc).
    specialize (Hcont w1 Hc Hs).
    destruct (continue _ w1) as [[[selected rejected'] w']| |];
      [|contradiction|exact Hcont].
    eapply walked_after_rejection; try eassumption. congruence.
Qed.

Lemma walk_preferred_spec (frame : Frame) (preferred : list ScenarioType)
    (rejected : gset ScenarioType) (w : World) (current : Scenario) :
  current_scenario_ (manager w) = Some current ->
  scenario_type current ∈ rejected ->
  match walk_preferred frame preferred rejected w with
  | Ok ((selected, rejected'), w') => walked rejected w selected rejected' w'
  | CheckFailed => False
  | Undefined =>
      exists t, t ∈ supported_scenarios_ (manager w) /\ constructible t = false
  end.
Proof.
  revert rejected w.
  induction preferred as [|candidate rest IH]; intros rejected w Hcur Hrej.
  - apply walked_nothing.
  - cbn [walk_preferred]. unfold bind at 1, gets at 1.
    destruct (decide (candidate ∈ rejected)) as [Hin|Hnew].
    { rewrite (bool_decide_eq_true_2 _ Hin). cbn [orb]. apply IH; assumption. }
    rewrite (bool_decide_eq_false_2 _ Hnew). cbn [orb].
    destruct (decide (candidate ∈ supported_scenarios_ (manager w)))
      as [Hsup|Hnsup].
    2: { rewrite (bool_decide_eq_true_2 _ Hnsup). apply IH; assumption. }
    rewrite bool_decide_eq_false_2 by (intros Hn; exact (Hn Hsup)).
    apply (walk_step frame candidate rejected w current
             (walk_preferred frame rest)); try assumption.
    intros w1 Hcur1 Hs1. rewrite <- Hs1.
    apply IH; [exact Hcur1|apply elem_of_union_r, Hrej].
Qed.

Lemma walk_supported_spec (frame : Frame) (supported : list ScenarioType)
    (rejected : gset ScenarioType) (w : World) (current : Scenario) :
  current_scenario_ (manager w) = Some current ->
  scenario_type current ∈ rejected ->
  (forall t, t ∈ supported -> t ∈ supported_scenarios_ (manager w)) ->
  match walk_supported frame supported rejected w with
  | Ok ((selected, rejected'), w') => walked rejected w selected rejected' w'
  | CheckFailed => False
  | Undefined =>
      exists t, t ∈ supported_scenarios_ (manager w) /\ constructible t = false
  end.
Proof.
  revert rejected w.
  induction supported as [|candidate rest IH];
    intros rejected w Hcur Hrej Hall.
  - apply walked_nothing.
  - assert (Hrest : forall t, t ∈ rest -> t ∈ supported_scenarios_ (manager w))
      by (intros t Ht; apply Hall; right; exact Ht).
    cbn [walk_supported].
    destruct (decide (candidate ∈ rejected)) as [Hin|Hnew].
    { rewrite (bool_decide_eq_true_2 _ Hin). apply IH; assumption. }
    rewrite (bool_decide_eq_false_2 _ Hnew).
    destruct (flag_disabled candidate); [apply IH; assumption|].
    apply (walk_step frame candidate rejected w current
             (walk_supported frame rest)); try assumption.
    { apply Hall. left. }
    intros w1 Hcur1 Hs1. rewrite <- Hs1.
    apply IH; [exact Hcur1|apply elem_of_union_r, Hrej|].
    rewrite Hs1. exact Hrest.
Qed.

Lemma set_elements_spec (s : gset ScenarioType) (t : ScenarioType) :
  t ∈ set_elements s <-> t ∈ s.
Proof.
  unfold set_elements. rewrite list_elem_of_filter. split; [tauto|].
  intros Ht. split; [exact Ht|].
  destruct t; unfold ScenarioType_values; set_solver.
Qed.

Lemma walked_trans (rejected rejected1 rejected2 : gset ScenarioType)
    (w w1 w2 : World) (selected : bool) :
  walked rejected w false rejected1 w1 ->
  walked rejected1 w1 selected rejected2 w2 ->
  walked rejected w selected rejected2 w2.
Proof.
  intros (l1 & Hp1 & Hnd1 & Hin1 & Hd1 & Hs1 & Ha1 & Hc1 & Hrej1)
         (l2 & Hp2 & Hnd2 & Hin2 & Hd2 & Hs2 & Ha2 & Hend).
  exists (l1 ++ l2).
  split; [rewrite Hp2, Hp1, <- app_assoc; reflexivity|].
  split.
  { apply NoDup_app. split; [exact Hnd1|]. split; [|exact Hnd2].
    intros x Hx1 Hx2. apply Hin2 in Hx2 as [Hx2 _]. apply Hx2.
    apply Hrej1. right. exact Hx1. }
  split.
  { intros x [Hx|Hx]%elem_of_app; [auto|].
    apply Hin2 in Hx as [Hx Hsup]. split; [|congruence].
    intros Hr. apply Hx, Hrej1. left. exact Hr. }
  split; [congruence|]. split; [congruence|]. split; [lia|].
  destruct selected.
  - destruct Hend as (s & Hs & Ht & Hi). exists s.
    split; [exact Hs|]. split; [congruence|exact Hi].
  - destruct Hend as [Hc2 Hrej2]. split; [congruence|].
    intros x. rewrite Hrej2, Hrej1, elem_of_app. tauto.
Qed.

Lemma walked_voted (rejected rejected' : gset ScenarioType)
    (current s : Scenario) (w w' : World) (selected : bool) :
  walked rejected w selected rejected' w' ->
  current_scenario_ (manager w') = Some s ->
  (s = current
   \/ instance s < allocated w'
      /\ (scenario_type s = default_scenario_type_ (manager w)
          \/ scenario_type s ∈ supported_scenarios_ (manager w))) ->
  voted rejected current w w'.
Proof.
  intros (tried & Hp & Hnd & Hin & Hd & Hs & Ha & _) Hcur Hcase.
  exists tried. repeat (split; [assumption|]). eauto.
Qed.

Lemma walked_selected_voted (rejected rejected' : gset ScenarioType)
    (current : Scenario) (w w' : World) :
  walked rejected w true rejected' w' -> voted rejected current w w'.
Proof.
  intros Hwalked. assert (Hw := Hwalked).
  destruct Hw as (tried & _ & _ & _ & _ & _ & _ & s & Hs & Ht & Hi).
  apply (walked_voted _ _ _ s _ _ _ Hwalked Hs). right. tauto.
Qed.

(** The two walks and the fall-back of [ScenarioSelfVote], entered with the
    active type rejected. *)
Lemma self_vote_walks_spec (frame : Frame) (ref : ReferenceLineInfo)
    (w : World) (current : Scenario) :
  current_scenario_ (manager w) = Some current ->
  constructible (default_scenario_type_ (manager w)) = true ->
  match
    (walked <-
       walk_preferred frame
         (LANE_FOLLOW
          :: concat (map preferred_of (FirstEncounteredOverlaps ref)))
         ({[scenario_type current]} ∪ ∅) ;;
     if fst walked
     then ret tt
     else
       supported <- gets (fun w => supported_scenarios_ (manager w)) ;;
       walked <- walk_supported frame (set_elements supported) (snd walked) ;;
       if fst walked
       then ret tt
       else
         current <- current_scenario ;;
         if decide (scenario_type current
                    <> default_scenario_type_ (manager w))
         then scenario <-
                CreateScenario (default_scenario_type_ (manager w)) ;;
              modify_manager (set_current_scenario scenario)
         else ret tt) w
  with
  | Ok (_, w') => voted ({[scenario_type current]} ∪ ∅) current w w'
  | CheckFailed => False
  | Undefined =>
      exists t, t ∈ supported_scenarios_ (manager w) /\ constructible t = false
  end.
Proof.
  intros Hcur Hdefault.
  set (rejected := ({[scenario_type current]} ∪ ∅ : gset ScenarioType)).
  assert (Hrej : scenario_type current ∈ rejected)
    by (apply elem_of_union_l, elem_of_singleton; reflexivity).
  unfold bind at 1.
  pose proof (walk_preferred_spec frame
                (LANE_FOLLOW
                 :: concat (map preferred_of (FirstEncounteredOverlaps ref)))
                rejected w current Hcur Hrej) as Hwalk1.
  destruct (walk_preferred _ _ rejected w) as [[[selected1 rejected1] w1]| |];
    [|contradiction|exact Hwalk1].
  cbn [fst snd]. destruct selected1.
  { exact (walked_selected_voted _ _ _ _ _ Hwalk1). }
  assert (Hw1 := Hwalk1).
  destruct Hw1 as (tried1 & _ & _ & _ & _ & Hs1 & _ & Hc1 & Hrej1).
  assert (Hcur1 : current_scenario_ (manager w1) = Some current)
    by congruence.
  unfold bind at 1, gets at 1. unfold bind at 1.
  pose proof (walk_supported_spec frame
                (set_elements (supported_scenarios_ (manager w1)))
                rejected1 w1 current Hcur1
                (proj2 (Hrej1 _) (or_introl Hrej))
                (fun t => proj1 (set_elements_spec _ t))) as Hwalk2.
  destruct (walk_supported _ _ rejected1 w1)
    as [[[selected2 rejected2] w2]| |];
    [|contradiction|rewrite <- Hs1; exact Hwalk2].
  pose proof (walked_trans _ _ _ _ _ _ _ Hwalk1 Hwalk2) as Hboth.
  cbn [fst snd]. destruct selected2.
  { exact (walked_selected_voted _ _ _ _ _ Hboth). }
  assert (Hw2 := Hboth).
  destruct Hw2 as (tried & _ & _ & _ & Hd2 & Hs2 & Ha2 & Hc2 & _).
  assert (Hcur2 : current_scenario_ (manager w2) = Some current)
    by congruence.
  rewrite (bind_step _ _ _ _ _ (current_scenario_spec w2 current Hcur2)).
  destruct (decide _) as [Hswitch|Hkeep].
  - destruct (CreateScenario_constructible _ w2 Hdefault)
      as (w3 & Hcreate & Hst & Ha3 & Hp3).
    rewrite (bind_step _ _ _ _ _ Hcreate).
    unfold modify_manager, modify.
    destruct Hboth as (tried' & Hp & Hnd & Hin & _).
    exists tried'. cbn. destruct Hst.
    split; [congruence|]. split; [exact Hnd|]. split; [exact Hin|].
    split; [congruence|]. split; [congruence|]. split; [lia|].
    eexists. split; [reflexivity|]. right. cbn. split; [lia|]. left.
    reflexivity.
  - apply (walked_voted _ _ _ current _ _ _ Hboth Hcur2). left. reflexivity.
Qed.

(** A whole self-vote: it never fails a [CHECK]; it ends with an active
    scenario after probing distinct types, each supported or the active one;
    or it dereferences the null pointer the factory returned for a supported
    type it has no case for. *)
Lemma ScenarioSelfVote_spec (frame : Frame) (w : World) (current : Scenario) :
  reference_line_info frame <> [] ->
  current_scenario_ (manager w) = Some current ->
  constructible (default_scenario_type_ (manager w)) = true ->
  match ScenarioSelfVote frame w with
  | Ok (_, w') =>
      exists tried : list ScenarioType,
        probes w' = probes w ++ tried
        /\ NoDup tried
        /\ (forall t, t ∈ tried ->
              (t ∈ supported_scenarios_ (manager w))
              \/ (t = scenario_type current
                  /\ t <> default_scenario_type_ (manager w)))
        /\ default_scenario_type_ (manager w')
           = default_scenario_type_ (manager w)
        /\ supported_scenarios_ (manager w')
           = supported_scenarios_ (manager w)
        /\ allocated w <= allocated w'
        /\ exists s,
             current_scenario_ (manager w') = Some s
             /\ (s = current
                 \/ instance s < allocated w'
                    /\ (scenario_type s = default_scenario_type_ (manager w)
                        \/ scenario_type s
                           ∈ supported_scenarios_ (manager w)))
  | CheckFailed => False
  | Undefined =>
      exists t, t ∈ supported_scenarios_ (manager w) /\ constructible t = false
  end.
Proof.
  intros Hne Hcur Hdefault. unfold ScenarioSelfVote.
  rewrite (bool_decide_eq_false_2 _ Hne). unfold bind at 1. cbn [CHECK negb].
  destruct (reference_line_info frame) as [|ref rest]; [contradiction|].
  unfold bind at 1. cbn [front].
  rewrite (bind_step _ _ _ _ _ (current_scenario_spec w current Hcur)).
  unfold bind at 1, gets at 1.
  destruct (decide (scenario_type current
                    <> default_scenario_type_ (manager w))) as [Hnd|Hd].
  - unfold bind at 1, ReuseCurrentScenario.
    rewrite (bind_step _ _ _ _ _ (current_scenario_spec w current Hcur)).
    rewrite probe_spec.
    destruct (IsTransferable current current frame).
    + exists [scenario_type current]. cbn.
      split; [reflexivity|]. split; [apply NoDup_singleton|].
      split; [intros t ->%list_elem_of_singleton; auto|].
      repeat (split; [reflexivity|]). eauto.
    + pose proof (self_vote_walks_spec frame ref
                    (log_probe (scenario_type current) w) current
                    Hcur Hdefault) as Hwalks.
      cbn [manager log_probe] in Hwalks.
      match type of Hwalks with
      | match ?run with _ => _ end =>
          match goal with
          | |- match ?run' with _ => _ end => change run' with run
          end;
          destruct run as [[[] w']| |]; [|contradiction|exact Hwalks]
      end.
      destruct Hwalks as (tried & Hp & Hndup & Hin & Hrest).
      exists (scenario_type current :: tried). cbn in Hp.
      split; [rewrite Hp, <- app_assoc; reflexivity|].
      split.
      { constructor; [|exact Hndup]. intros Ht.
        apply Hin in Ht as [Ht _]. apply Ht.
        apply elem_of_union_l, elem_of_singleton. reflexivity. }
      split; [|exact Hrest].
      intros t [->|Ht]%elem_of_cons; [auto|].
      left. apply Hin, Ht.
  - unfold bind at 1. cbn [ret].
    pose proof (self_vote_walks_spec frame ref w current Hcur Hdefault)
      as Hwalks.
    match type of Hwalks with
    | match ?run with _ => _ end =>
        match goal with
        | |- match ?run' with _ => _ end => change run' with run
        end;
        destruct run as [[[] w']| |]; [|contradiction|exact Hwalks]
    end.
    destruct Hwalks as (tried & Hp & Hndup & Hin & Hrest).
    exists tried. split; [exact Hp|]. split; [exact Hndup|].
    split; [|exact Hrest]. intros t Ht. left. apply Hin, Ht.
Qed.

Lemma tried_bounded (tried : list ScenarioType) (supported : gset ScenarioType) :
  NoDup tried -> (forall t, t ∈ tried -> t ∈ supported) ->
  length tried <= size supported.
Proof.
  intros Hnd Hin.
  rewrite <- (size_list_to_set (C := gset ScenarioType) tried Hnd).
  apply subseteq_size. intros t Ht. apply Hin.
  apply elem_of_list_to_set in Ht. exact Ht.
Qed.

(** With every supported type constructible and the active type the default
    or a supported one (as after [Init] and after every self-vote), a
    self-vote ends with a decision after at most as many probes as there are
    supported types, none repeated. *)
Lemma self_vote_decides (frame : Frame) (w : World) (current : Scenario) :
  reference_line_info frame <> [] ->
  current_scenario_ (manager w) = Some current ->
  constructible (default_scenario_type_ (manager w)) = true ->
  (scenario_type current <> default_scenario_type_ (manager w) ->
   scenario_type current ∈ supported_scenarios_ (manager w)) ->
  (forall t, t ∈ supported_scenarios_ (manager w) -> constructible t = true) ->
  exists w' tried,
    ScenarioSelfVote frame w = Ok (tt, w')
    /\ probes w' = probes w ++ tried
    /\ NoDup tried
    /\ (forall t, t ∈ tried -> t ∈ supported_scenarios_ (manager w))
    /\ length tried <= size (supported_scenarios_ (manager w))
    /\ default_scenario_type_ (manager w') = default_scenario_type_ (manager w)
    /\ supported_scenarios_ (manager w') = supported_scenarios_ (manager w)
    /\ exists s,
         current_scenario_ (manager w') = Some s
         /\ (scenario_type s <> default_scenario_type_ (manager w') ->
             scenario_type s ∈ supported_scenarios_ (manager w')).
Proof.
  intros Hne Hcur Hdefault Hinv Hall.
  pose proof (ScenarioSelfVote_spec frame w current Hne Hcur Hdefault) as Hv.
  destruct (ScenarioSelfVote frame w) as [[[] w']| |]; [|contradiction|].
  2: { destruct Hv as (t & Ht & Hc). rewrite (Hall t Ht) in Hc. discriminate. }
  destruct Hv as (tried & Hp & Hnd & Hin & Hd & Hs & _ & s & Hs' & Hcase).
  assert (Hsup : forall t, t ∈ tried -> t ∈ supported_scenarios_ (manager w)).
  { intros t Ht.
    destruct (Hin t Ht) as [Hsup|[-> Hn]]; [exact Hsup|exact (Hinv Hn)]. }
  exists w', tried. split; [reflexivity|]. split; [exact Hp|].
  split; [exact Hnd|]. split; [exact Hsup|].
  split; [apply tried_bounded; assumption|].
  split; [exact Hd|]. split; [exact Hs|].
  exists s. split; [exact Hs'|]. rewrite Hd, Hs.
  destruct Hcase as [->|[_ [Heq|Hin']]]; [exact Hinv| |]; intros; tauto.
Qed.

Lemma Observe_spec (frame : Frame) (w : World) :
  exists w',
    Observe frame w = Ok (tt, w')
    /\ manager w' = manager w
    /\ allocated w' = allocated w
    /\ probes w' = probes w.
Proof.
  unfold Observe, ReadTrafficLight.
  unfold bind at 1, modify_scenario_info at 1, modify at 1.
  destruct (local_view_traffic_light frame) as [detection|].
  - unfold bind, gets. cbn.
    destruct (_ <? _)%float; eexists; (split; [reflexivity|]); repeat split.
  - eexists. split; [reflexivity|]. repeat split.
Qed.

(** [Update]: it never fails its [CHECK] on a frame with a reference line;
    whenever it completes the manager holds an active scenario and the
    default type and the supported set are unchanged; it completes under
    Dispatch, and under self-vote unless a supported type has no case in the
    factory. *)
Lemma Update_spec (frame : Frame) (w : World) (current : Scenario) :
  reference_line_info frame <> [] ->
  current_scenario_ (manager w) = Some current ->
  constructible (default_scenario_type_ (manager w)) = true ->
  match Update frame w with
  | Ok (_, w') =>
      (exists s, current_scenario_ (manager w') = Some s)
      /\ default_scenario_type_ (manager w')
         = default_scenario_type_ (manager w)
      /\ supported_scenarios_ (manager w') = supported_scenarios_ (manager w)
  | CheckFailed => False
  | Undefined =>
      FLAGS_enable_scenario_dispatcher = false
      /\ exists t, t ∈ supported_scenarios_ (manager w)
                   /\ constructible t = false
  end.
Proof.
  intros Hne Hcur Hdefault. unfold Update.
  rewrite (bool_decide_eq_false_2 _ Hne). unfold bind at 1. cbn [CHECK negb].
  destruct (Observe_spec frame w) as (w1 & Hobs & Hm & _ & _).
  rewrite (bind_step _ _ _ _ _ Hobs).
  assert (Hcur1 : current_scenario_ (manager w1) = Some current)
    by (rewrite Hm; exact Hcur).
  destruct FLAGS_enable_scenario_dispatcher.
  - destruct (ScenarioDispatch_spec frame w1 current Hne Hcur1)
      as (t & w2 & w' & _ & Hrun & Hd & Hs & Hsame & Hdiff).
    rewrite Hrun, Hd, Hs, Hm. split; [|auto].
    destruct (decide (t = scenario_type current)) as [Heq|Hn].
    + eauto.
    + destruct (Hdiff Hn) as (fresh & Hf & _). eauto.
  - pose proof (ScenarioSelfVote_spec frame w1 current Hne Hcur1) as Hv.
    rewrite Hm in Hv. specialize (Hv Hdefault).
    destruct (ScenarioSelfVote frame w1) as [[[] w']| |]; [|contradiction|].
    + destruct Hv as (_ & _ & _ & _ & Hd & Hs & _ & s & Hs' & _). eauto.
    + split; [reflexivity|exact Hv].
Qed.

Lemma all_constructible (supported : gset ScenarioType) :
  forallb constructible (set_elements supported) = true ->
  forall t, t ∈ supported -> constructible t = true.
Proof.
  intros Hall t Ht. rewrite forallb_forall in Hall. apply Hall.
  apply list_elem_of_In, set_elements_spec, Ht.
Qed.

(** X19: after [Init] returns the manager holds an active LANE_FOLLOW
    scenario, and [Init] returns unless a configuration fails to load.  From
    a manager holding an active scenario, [Update] on a frame with a
    reference line completes and leaves the manager holding an active
    scenario, under Dispatch for every supported set, and under self-vote for
    every supported set all of whose types the factory has a case for. *)
Theorem active_scenario_invariant :
  (forall (supported : gset ScenarioType) (w : World),
      match Init supported w with
      | Ok (_, w') =>
          (exists s, current_scenario_ (manager w') = Some s
                     /\ scenario_type s = LANE_FOLLOW)
          /\ default_scenario_type_ (manager w') = LANE_FOLLOW
          /\ supported_scenarios_ (manager w') = supported
      | CheckFailed => RegisterScenarios w = CheckFailed
      | Undefined => False
      end)
  /\ (forall (frame : Frame) (w : World) (current : Scenario),
        reference_line_info frame <> [] ->
        current_scenario_ (manager w) = Some current ->
        default_scenario_type_ (manager w) = LANE_FOLLOW ->
        FLAGS_enable_scenario_dispatcher = true
        \/ forallb constructible
             (set_elements (supported_scenarios_ (manager w))) = true ->
        exists w' s,
          Update frame w = Ok (tt, w')
          /\ current_scenario_ (manager w') = Some s
          /\ default_scenario_type_ (manager w') = LANE_FOLLOW
          /\ supported_scenarios_ (manager w')
             = supported_scenarios_ (manager w)).
Proof.
  split.
  - intros supported w. pose proof (Init_spec supported w) as Hinit.
    destruct (Init supported w) as [[b w']| |]; try exact Hinit.
    destruct Hinit as ((s & Hs & Ht & _) & Hd & Hsup). eauto.
  - intros frame w current Hne Hcur Hdefault Hmode.
    pose proof (Update_spec frame w current Hne Hcur) as Hupd.
    rewrite Hdefault in Hupd. specialize (Hupd eq_refl).
    destruct (Update frame w) as [[[] w']| |]; [|contradiction|].
    + destruct Hupd as ((s & Hs) & Hd & Hsup).
      exists w', s. rewrite Hd, Hsup. auto.
    + destruct Hupd as (Hflag & t & Ht & Hc).
      destruct Hmode as [Hdisp|Hall]; [congruence|].
      rewrite (all_constructible _ Hall t Ht) in Hc. discriminate.
Qed.

(** X20: under the self-vote strategy, for every frame with a reference
    line and every supported set of size N all of whose types the factory
    has a case for, from an active scenario whose type is the default or a
    supported one, [Update] ends with a decision (an active scenario whose
    type is again the default or a supported one) after probing only
    supported types, each at most once, hence after at most N probes. *)
Theorem self_vote_terminates_within_bound (frame : Frame) (w : World)
    (current : Scenario) :
  FLAGS_enable_scenario_dispatcher = false ->
  reference_line_info frame <> [] ->
  current_scenario_ (manager w) = Some current ->
  default_scenario_type_ (manager w) = LANE_FOLLOW ->
  scenario_type current = LANE_FOLLOW
  \/ scenario_type current ∈ supported_scenarios_ (manager w) ->
  forallb constructible (set_elements (supported_scenarios_ (manager w)))
  = true ->
  exists w' tried,
    Update frame w = Ok (tt, w')
    /\ probes w' = probes w ++ tried
    /\ NoDup tried
    /\ (forall t, t ∈ tried -> t ∈ supported_scenarios_ (manager w))
    /\ length tried <= size (supported_scenarios_ (manager w))
    /\ default_scenario_type_ (manager w') = LANE_FOLLOW
    /\ supported_scenarios_ (manager w') = supported_scenarios_ (manager w)
    /\ exists s,
         current_scenario_ (manager w') = Some s
         /\ (scenario_type s = LANE_FOLLOW
             \/ scenario_type s ∈ supported_scenarios_ (manager w')).
Proof.
  intros Hflag Hne Hcur Hdefault Hinv Hall.
  destruct (Observe_spec frame w) as (w1 & Hobs & Hm & _ & Hp1).
  assert (Hrun : Update frame w = ScenarioSelfVote frame w1).
  { unfold Update. rewrite (bool_decide_eq_false_2 _ Hne).
    unfold bind at 1. cbn [CHECK negb].
    rewrite (bind_step _ _ _ _ _ Hobs), Hflag. reflexivity. }
  assert (Hcur1 : current_scenario_ (manager w1) = Some current)
    by (rewrite Hm; exact Hcur).
  assert (Hdefault1 : constructible (default_scenario_type_ (manager w1))
                      = true)
    by (rewrite Hm, Hdefault; reflexivity).
  assert (Hinv1 : scenario_type current <> default_scenario_type_ (manager w1)
                  -> scenario_type current ∈ supported_scenarios_ (manager w1))
    by (rewrite Hm, Hdefault; tauto).
  assert (Hall1 : forall t, t ∈ supported_scenarios_ (manager w1) ->
                            constructible t = true)
    by (rewrite Hm; apply all_constructible, Hall).
  destruct (self_vote_decides frame w1 current Hne Hcur1 Hdefault1 Hinv1 Hall1)
    as (w' & tried & Hvote & Hp & Hnd & Hsup & Hlen & Hd & Hs & s & Hs'
        & Hinv').
  - rewrite Hm in *. rewrite Hdefault in Hd.
    exists w', tried. split; [congruence|]. split; [congruence|].
    split; [exact Hnd|]. split; [exact Hsup|]. split; [exact Hlen|].
    split; [exact Hd|]. split; [exact Hs|].
    exists s. split; [exact Hs'|]. rewrite Hd in Hinv'.
    destruct (decide (scenario_type s = LANE_FOLLOW)); auto.
Qed.

End Properties.

(** * More of the manager *)

(** ** Observe: the detection message as stored *)

(** Looking a key up among the lights in reverse finds the last light
    reported under it. *)
Lemma find_rev_last (lights : list TrafficLight) (k : string) :
  find (fun light => bool_decide (id light = k)) (rev lights)
  = last (filter (fun light => id light = k) lights).
Proof.
  induction lights as [|light lights IH] using rev_ind; [reflexivity|].
  rewrite rev_app_distr, filter_app. cbn [rev app find].
  rewrite filter_cons, filter_nil.
  destruct (decide (id light = k)) as [Heq|Hne].
  - rewrite (bool_decide_eq_true_2 _ Heq), last_snoc. reflexivity.
  - rewrite (bool_decide_eq_false_2 _ Hne), app_nil_r. exact IH.
Qed.

(** Storing the lights one by one adds at most one entry per light, and
    exactly one when the identifiers are distinct and new. *)
Lemma stored_lights_size (lights : list TrafficLight)
    (m : gmap string TrafficLight) :
  size (foldl (fun m light => <[id light := light]> m) m lights)
  <= size m + length lights
  /\ (NoDup (id <$> lights) ->
      (forall light, light ∈ lights -> m !! id light = None) ->
      size (foldl (fun m light => <[id light := light]> m) m lights)
      = size m + length lights).
Proof.
  revert m. induction lights as [|light lights IH]; intros m.
  - cbn. split; intros; lia.
  - cbn [foldl]. destruct (IH (<[id light := light]> m)) as [Hle Heq].
    split.
    + etransitivity; [exact Hle|]. cbn [length].
      rewrite map_size_insert. destruct (m !! id light); cbn; lia.
    + intros Hnd Hfresh. rewrite fmap_cons in Hnd. apply NoDup_cons in Hnd as [Hnotin Hnd].
      rewrite Heq; [| exact Hnd |].
      * rewrite map_size_insert_None by (apply Hfresh; left). cbn [length]. lia.
      * intros l' Hl'. rewrite lookup_insert_ne; [apply Hfresh; right; exact Hl'|].
        intros Heq'. apply Hnotin. rewrite Heq'. apply list_elem_of_fmap_2, Hl'.
Qed.

(** X1: when a detection message is present and was not dropped by the
    expiry test, [Observe] leaves in the planning context exactly the lights
    of that message, keyed by identifier: under each key the last light the
    message reports with it, nothing under any other key, so at most as many
    entries as the message has lights and exactly as many when the
    identifiers are distinct.  Nothing of the previous cycle survives. *)
Theorem Observe_keeps_last_report (frame : Frame) (w : World)
    (detection : TrafficLightDetection) :
  local_view_traffic_light frame = Some detection ->
  (signal_expire_time_sec_ (manager w)
   <? header_timestamp_sec detection - Clock_NowInSeconds w)%float = false ->
  exists w',
    Observe frame w = Ok (tt, w')
    /\ (forall k,
          traffic_lights (scenario_info w') !! k
          = last (filter (fun light => id light = k)
                    (traffic_light detection)))
    /\ size (traffic_lights (scenario_info w'))
       <= length (traffic_light detection)
    /\ (NoDup (id <$> traffic_light detection) ->
        size (traffic_lights (scenario_info w'))
        = length (traffic_light detection)).
Proof.
  intros Hmsg Hkeep.
  destruct (ReadTrafficLight_populated frame w detection Hmsg Hkeep)
    as (w' & Hrun & _ & Hlookup).
  exists w'. split; [exact Hrun|].
  split; [intros k; rewrite Hlookup; apply find_rev_last|].
  assert (Hmap : traffic_lights (scenario_info w')
                 = foldl (fun m light => <[id light := light]> m) ∅
                     (traffic_light detection)).
  { apply map_eq. intros k. rewrite Hlookup, traffic_lights_lookup, lookup_empty.
    destruct (find _ _); reflexivity. }
  rewrite Hmap.
  destruct (stored_lights_size (traffic_light detection) ∅) as [Hle Heq].
  rewrite map_size_empty in Hle, Heq. split; [exact Hle|].
  intros Hnd. apply Heq; [exact Hnd|]. intros; apply lookup_empty.
Qed.

(** X2: [Observe] always completes, whether or not the frame carries a
    detection message, and changes nothing but the traffic lights of the
    planning context; the lights it leaves do not depend on the lights it
    found, the map being cleared first. *)
Theorem Observe_touches_only_traffic_lights (frame : Frame) (w : World) :
  exists w',
    Observe frame w = Ok (tt, w')
    /\ w' = set_scenario_info
              (set_traffic_lights (traffic_lights (scenario_info w'))
                 (scenario_info w)) w
    /\ forall found : gmap string TrafficLight,
         exists v',
           Observe frame
             (set_scenario_info
                (set_traffic_lights found (scenario_info w)) w)
           = Ok (tt, v')
           /\ traffic_lights (scenario_info v')
              = traffic_lights (scenario_info w').
Proof.
  assert (Hrun : forall w0,
            Observe frame w0 =
            Ok (tt,
                set_scenario_info
                  (set_traffic_lights
                     match local_view_traffic_light frame with
                     | None => ∅
                     | Some detection =>
                         if (signal_expire_time_sec_ (manager w0)
                             <? header_timestamp_sec detection
                                - Clock_NowInSeconds w0)%float
                         then ∅
                         else foldl (fun m light => <[id light := light]> m) ∅
                                (traffic_light detection)
                     end (scenario_info w0)) w0)).
  { intros w0. unfold Observe, ReadTrafficLight.
    unfold bind at 1, modify_scenario_info at 1, modify at 1.
    destruct (local_view_traffic_light frame) as [detection|]; [|reflexivity].
    unfold bind, gets. cbn. destruct (_ <? _)%float; reflexivity. }
  eexists. split; [apply Hrun|]. split; [reflexivity|].
  intros found. eexists. split; [apply Hrun|]. reflexivity.
Qed.

Section Coverage.

Context {flags : PlanningGflags} {scenarios : ScenarioClass}.

(** ** UpdatePlanningContext *)

(** X3: on a frame with a reference line and with an active scenario,
    [UpdatePlanningContext] completes and leaves the manager, the clock, the
    stored traffic lights and the tracked traffic-light overlaps alone; the
    list of done stop signs is kept for a stop-sign or traffic-light type and
    emptied for any other; the current stop-sign overlap can change only for
    a stop-sign type; for a traffic-light type nothing changes at all. *)
Theorem UpdatePlanningContext_frame (frame : Frame) (t : ScenarioType)
    (w : World) (current : Scenario) :
  reference_line_info frame <> [] ->
  current_scenario_ (manager w) = Some current ->
  exists w',
    UpdatePlanningContext frame t w = Ok (tt, w')
    /\ manager w' = manager w
    /\ Clock_NowInSeconds w' = Clock_NowInSeconds w
    /\ allocated w' = allocated w
    /\ probes w' = probes w
    /\ traffic_lights (scenario_info w') = traffic_lights (scenario_info w)
    /\ current_traffic_light_overlaps (scenario_info w')
       = current_traffic_light_overlaps (scenario_info w)
    /\ stop_done_overlap_ids (scenario_info w')
       = (if IsStopSignScenario t || IsTrafficLightScenario t
          then stop_done_overlap_ids (scenario_info w) else [])
    /\ (IsStopSignScenario t = false ->
        current_stop_sign_overlap (scenario_info w')
        = current_stop_sign_overlap (scenario_info w))
    /\ (IsTrafficLightScenario t = true -> w' = w).
Proof.
  intros Hne Hcur. unfold UpdatePlanningContext.
  destruct (reference_line_info frame) as [|ref rest]; [contradiction|].
  unfold bind at 1. cbn [front].
  destruct (IsStopSignScenario t) eqn:Hstop.
  - cbn [negb andb orb].
    rewrite (bind_step _ _ _ _ _ (current_scenario_spec w current Hcur)).
    assert (Hntl : IsTrafficLightScenario t = false)
      by (destruct t; try discriminate Hstop; reflexivity).
    rewrite Hntl.
    destruct (decide (t <> scenario_type current)).
    + destruct (first_overlap_of _ _);
        eexists; (split; [reflexivity|]); repeat split; discriminate.
    + unfold bind, gets. destruct (find _ _);
        eexists; (split; [reflexivity|]); repeat split; discriminate.
  - cbn [negb andb orb]. destruct (IsTrafficLightScenario t).
    + cbn. eexists. split; [reflexivity|]. repeat split.
    + cbn. eexists. split; [reflexivity|]. repeat split. discriminate.
Qed.

(** X4: while the same stop-sign scenario continues,
    [UpdatePlanningContext] never changes the identifier of the current
    stop-sign overlap: when the reference line still has a stop-sign overlap
    with that identifier the stored overlap is replaced by one of the
    reference line's, and when it has none nothing changes. *)
Theorem UpdatePlanningContext_refresh_keeps_id (frame : Frame)
    (w : World) (ref : ReferenceLineInfo) (rest : list ReferenceLineInfo)
    (current : Scenario) :
  reference_line_info frame = ref :: rest ->
  current_scenario_ (manager w) = Some current ->
  IsStopSignScenario (scenario_type current) = true ->
  exists w',
    UpdatePlanningContext frame (scenario_type current) w = Ok (tt, w')
    /\ object_id (current_stop_sign_overlap (scenario_info w'))
       = object_id (current_stop_sign_overlap (scenario_info w))
    /\ ((exists o, o ∈ stop_sign_overlaps ref
                   /\ object_id o
                      = object_id (current_stop_sign_overlap (scenario_info w)))
        -> current_stop_sign_overlap (scenario_info w')
           ∈ stop_sign_overlaps ref)
    /\ ((forall o, o ∈ stop_sign_overlaps ref ->
                   object_id o
                   <> object_id (current_stop_sign_overlap (scenario_info w)))
        -> w' = w).
Proof.
  intros Href Hcur Hstop. unfold UpdatePlanningContext.
  rewrite Href. unfold bind at 1. cbn [front]. rewrite Hstop.
  cbn [negb andb].
  rewrite (bind_step _ _ _ _ _ (current_scenario_spec w current Hcur)).
  rewrite decide_False by (intros Hn; apply Hn; reflexivity).
  unfold bind, gets.
  destruct (find _ _) as [o|] eqn:Hfind.
  - apply find_some in Hfind as [Hin Hid].
    apply bool_decide_eq_true in Hid.
    eexists. split; [reflexivity|]. cbn. split; [exact Hid|].
    split; [intros _; apply list_elem_of_In, Hin|].
    intros Hnone. exfalso. apply (Hnone o); [apply list_elem_of_In, Hin|exact Hid].
  - eexists. split; [reflexivity|]. split; [reflexivity|]. split; [|reflexivity].
    intros (o & Hin & Hid). exfalso.
    apply list_elem_of_In in Hin.
    pose proof (find_none _ _ Hfind o Hin) as Hno. cbn in Hno.
    apply bool_decide_eq_false in Hno. contradiction.
Qed.

(** ** Dispatch *)

(** The steps of a completed [ScenarioDispatch]. *)
Lemma ScenarioDispatch_steps (frame : Frame) (w : World) (current : Scenario) :
  reference_line_info frame <> [] ->
  current_scenario_ (manager w) = Some current ->
  exists t w1 w2 w',
    dispatch_scenario_type frame w = Ok (t, w1)
    /\ steady w w1
    /\ UpdatePlanningContext frame t w1 = Ok (tt, w2)
    /\ ScenarioDispatch frame w = Ok (tt, w')
    /\ scenario_info w' = scenario_info w2
    /\ exists s,
         current_scenario_ (manager w') = Some s
         /\ scenario_type s = t
         /\ (t = scenario_type current -> s = current).
Proof.
  intros Hne Hcur.
  destruct (dispatch_scenario_type_spec frame w current Hne Hcur)
    as (t & w1 & Hres & Hs1 & Ht).
  assert (Hcur1 : current_scenario_ (manager w1) = Some current)
    by (rewrite (steady_current _ _ Hs1); exact Hcur).
  destruct (UpdatePlanningContext_spec frame t w1 current Hne Hcur1)
    as (w2 & Hupd & Hm2 & _ & _).
  assert (Hcur2 : current_scenario_ (manager w2) = Some current)
    by (rewrite Hm2; exact Hcur1).
  exists t, w1, w2.
  unfold ScenarioDispatch.
  rewrite (bool_decide_eq_false_2 _ Hne). unfold bind at 1. cbn [CHECK negb].
  rewrite (bind_step _ _ _ _ _ Hres), (bind_step _ _ _ _ _ Hupd).
  rewrite (bind_step _ _ _ _ _ (current_scenario_spec w2 current Hcur2)).
  destruct (decide (scenario_type current <> t)) as [Hdiff|Hsame].
  - destruct Ht as [Hc|Heq]; [|congruence].
    destruct (CreateScenario_constructible t w2 Hc)
      as (w3 & Hcreate & Hs3 & _ & _).
    rewrite (bind_step _ _ _ _ _ Hcreate).
    eexists. split; [exact Hres|]. split; [exact Hs1|].
    split; [exact Hupd|]. split; [reflexivity|].
    split; [cbn; exact (steady_info _ _ Hs3)|].
    eexists. split; [reflexivity|]. split; [reflexivity|]. congruence.
  - assert (Heq : t = scenario_type current).
    { destruct (decide (t = scenario_type current)) as [|Hn]; [assumption|].
      exfalso. apply Hsame. congruence. }
    exists w2. split; [exact Hres|]. split; [exact Hs1|].
    split; [exact Hupd|]. split; [reflexivity|]. split; [reflexivity|].
    exists current. split; [exact Hcur2|]. split; [congruence|reflexivity].
Qed.

(** The list of done stop signs after [UpdatePlanningContext]. *)
Lemma UpdatePlanningContext_stop_done (frame : Frame) (t : ScenarioType)
    (w w' : World) :
  UpdatePlanningContext frame t w = Ok (tt, w') ->
  stop_done_overlap_ids (scenario_info w')
  = if IsStopSignScenario t || IsTrafficLightScenario t
    then stop_done_overlap_ids (scenario_info w) else [].
Proof.
  unfold UpdatePlanningContext.
  destruct (reference_line_info frame) as [|ref rest]; [discriminate|].
  unfold bind at 1. cbn [front].
  destruct (IsStopSignScenario t) eqn:Hstop; cbn [negb andb orb].
  - unfold bind at 1.
    destruct (current_scenario w) as [[current w0]| |] eqn:Hc; try discriminate.
    assert (w0 = w) as ->.
    { unfold current_scenario, bind, gets, deref in Hc.
      destruct (current_scenario_ (manager w)); congruence. }
    destruct (decide (t <> scenario_type current)).
    + destruct (first_overlap_of _ _); intros [= <-]; reflexivity.
    + unfold bind, gets. destruct (find _ _); intros [= <-]; reflexivity.
  - destruct (IsTrafficLightScenario t); cbn; intros [= <-]; reflexivity.
Qed.

(** The types the intersection block can yield. *)
Lemma intersection_scenarios_range (frame : Frame) (w : World)
    (ref : ReferenceLineInfo) (rest : list ReferenceLineInfo)
    (current : Scenario) :
  reference_line_info frame = ref :: rest ->
  current_scenario_ (manager w) = Some current ->
  exists t w',
    intersection_scenarios frame w = Ok (t, w')
    /\ quiet w w'
    /\ (In t [LANE_FOLLOW; STOP_SIGN_UNPROTECTED; TRAFFIC_LIGHT_PROTECTED;
              TRAFFIC_LIGHT_UNPROTECTED_RIGHT_TURN]
        \/ t = scenario_type current).
Proof.
  intros Href Hcur. rewrite (intersection_scenarios_unfold _ _ _ _ Href).
  cbv zeta.
  destruct (fst (overlap_found _ _)) eqn:Hss;
    [|destruct (snd (overlap_found _ _)) eqn:Htl].
  - destruct FLAGS_enable_scenario_stop_sign.
    + destruct (overlap_found_stop_sign _ _ Hss) as [o ->].
      destruct (SelectStopSignScenario_spec frame o w ref rest current
                  Href Hcur) as (w1 & Hsel & Hq).
      eexists _, w1. split; [exact Hsel|]. split; [exact Hq|].
      destruct (cruising _); [destruct (_ && _)%bool; cbn; auto|].
      destruct (IsStopSignScenario _); [destruct (decide _)|]; cbn; auto.
    + exists LANE_FOLLOW, w. split; [reflexivity|].
      split; [apply quiet_refl|]. cbn; auto.
  - destruct FLAGS_enable_scenario_traffic_light.
    + destruct (overlap_found_traffic_light _ _ Htl) as [o ->].
      destruct (SelectTrafficLightScenario_spec frame o w ref rest current
                  Href Hcur) as (w1 & Hsel & Hq).
      eexists _, w1. split; [exact Hsel|]. split; [exact Hq|].
      destruct (cruising (scenario_type current)) eqn:Hcr.
      * rewrite (traffic_light_loop_cruising _ _ _ _ _ Hcr).
        destruct (existsb _ _); [|auto].
        left. destruct (GetPathTurnType ref); cbn; auto.
      * rewrite (traffic_light_loop_not_cruising _ _ _ _ _ _ Hcr).
        destruct (_ && _)%bool; cbn; auto.
    + exists LANE_FOLLOW, w. split; [reflexivity|].
      split; [apply quiet_refl|]. cbn; auto.
  - exists LANE_FOLLOW, w. split; [reflexivity|].
    split; [apply quiet_refl|]. cbn; auto.
Qed.

(** The types Dispatch can resolve. *)
Lemma dispatch_scenario_type_range (frame : Frame) (w : World)
    (current : Scenario) :
  reference_line_info frame <> [] ->
  current_scenario_ (manager w) = Some current ->
  exists t w',
    dispatch_scenario_type frame w = Ok (t, w')
    /\ (In t [LANE_FOLLOW; SIDE_PASS; STOP_SIGN_UNPROTECTED;
              TRAFFIC_LIGHT_PROTECTED; TRAFFIC_LIGHT_UNPROTECTED_RIGHT_TURN]
        \/ t = scenario_type current).
Proof.
  intros Hne Hcur. rewrite (dispatch_scenario_type_unfold _ _ _ Hcur).
  destruct (reference_line_info frame) as [|ref rest] eqn:Href;
    [contradiction|].
  destruct (decide (not_switchable current = LANE_FOLLOW)) as [Hlf|Hlf].
  - destruct (intersection_scenarios_range frame w ref rest current Href Hcur)
      as (t & w1 & -> & Hq & Ht).
    destruct (decide (t = LANE_FOLLOW)) as [->|Hnlf].
    + destruct (SelectSidePassScenario_spec frame w1 current) as
        (t' & w2 & Hsp & _ & [-> | ->] & _).
      { rewrite (steady_current _ _ (quiet_steady _ _ Hq)). exact Hcur. }
      * exists SIDE_PASS, w2. split; [exact Hsp|]. cbn; auto.
      * exists LANE_FOLLOW, w2. split; [exact Hsp|]. cbn; auto.
    + exists t, w1. split; [reflexivity|]. cbn in *. tauto.
  - exists (not_switchable current), w. split; [reflexivity|].
    destruct (not_switchable_spec current); [contradiction|auto].
Qed.

(** X5: entering the stop-sign scenario records the overlap that
    triggered it.  With the stop-sign feature enabled, from a cruising active
    scenario that does not hold Dispatch to its type (a side-pass scenario
    must be DONE) and with a winning stop-sign overlap at a distance in
    (0, start_stop_sign_scenario_distance], [ScenarioDispatch] makes a
    STOP_SIGN_UNPROTECTED scenario active, stores that overlap as the current
    stop-sign overlap and keeps the list of done stop signs. *)
Theorem dispatch_records_triggering_stop_sign (frame : Frame) (w : World)
    (ref : ReferenceLineInfo) (rest : list ReferenceLineInfo)
    (current : Scenario) (stop_sign : PathOverlap) :
  FLAGS_enable_scenario_stop_sign = true ->
  reference_line_info frame = ref :: rest ->
  current_scenario_ (manager w) = Some current ->
  cruising (scenario_type current) = true ->
  not_switchable current = LANE_FOLLOW ->
  first_overlap_of STOP_SIGN (FirstEncounteredOverlaps ref) = Some stop_sign ->
  fst (overlap_found (Some stop_sign)
         (first_overlap_of SIGNAL (FirstEncounteredOverlaps ref))) = true ->
  (0 <? start_s stop_sign - AdcSlBoundary_end_s ref)%float = true ->
  (start_s stop_sign - AdcSlBoundary_end_s ref <=?
   start_stop_sign_scenario_distance
     (stop_sign_unprotected_config (configured w STOP_SIGN_UNPROTECTED)))%float
  = true ->
  exists w' s,
    ScenarioDispatch frame w = Ok (tt, w')
    /\ current_scenario_ (manager w') = Some s
    /\ scenario_type s = STOP_SIGN_UNPROTECTED
    /\ current_stop_sign_overlap (scenario_info w') = stop_sign
    /\ stop_done_overlap_ids (scenario_info w')
       = stop_done_overlap_ids (scenario_info w).
Proof.
  intros Hflag Href Hcur Hcr Hlf Hss Hwin Hpos Hle.
  assert (Hne : reference_line_info frame <> []) by (rewrite Href; discriminate).
  destruct (ScenarioDispatch_steps frame w current Hne Hcur)
    as (t & w1 & w2 & w' & Hres & Hs1 & Hupd & Hrun & Hinfo & s & Hs & Ht & _).
  assert (Htype : t = STOP_SIGN_UNPROTECTED).
  { rewrite (dispatch_scenario_type_unfold _ _ _ Hcur) in Hres.
    rewrite decide_True in Hres by exact Hlf.
    rewrite (intersection_scenarios_unfold _ _ _ _ Href) in Hres.
    cbv zeta in Hres. rewrite Hss, Hwin, Hflag in Hres.
    destruct (SelectStopSignScenario_spec frame stop_sign w ref rest current
                Href Hcur) as (w0 & Hsel & _).
    cbv zeta in Hsel. rewrite Hcr, Hpos, Hle in Hsel. cbn [andb] in Hsel.
    rewrite Hsel in Hres. rewrite decide_False in Hres by discriminate.
    congruence. }
  rewrite Htype in Ht, Hupd. clear Htype.
  exists w', s. split; [exact Hrun|]. split; [exact Hs|].
  split; [exact Ht|]. rewrite Hinfo.
  assert (Hcur1 : current_scenario_ (manager w1) = Some current)
    by (rewrite (steady_current _ _ Hs1); exact Hcur).
  unfold UpdatePlanningContext in Hupd. rewrite Href in Hupd.
  unfold bind at 1 in Hupd. cbn [front] in Hupd.
  cbn [IsStopSignScenario IsTrafficLightScenario negb andb orb] in Hupd.
  change (IsStopSignScenario STOP_SIGN_UNPROTECTED) with true in Hupd.
  cbn [negb andb] in Hupd.
  rewrite (bind_step _ _ _ _ _ (current_scenario_spec w1 current Hcur1)) in Hupd.
  rewrite decide_True in Hupd
    by (intros Heq; rewrite <- Heq in Hcr; discriminate).
  rewrite Hss in Hupd. injection Hupd as <-. cbn.
  rewrite (steady_info _ _ Hs1). split; reflexivity.
Qed.

(** X6: after [ScenarioDispatch] the list of done stop signs is the one
    before when the active scenario is of a stop-sign or traffic-light type,
    and empty for any other active type. *)
Theorem ScenarioDispatch_stop_done_overlap_ids (frame : Frame) (w : World)
    (current : Scenario) :
  reference_line_info frame <> [] ->
  current_scenario_ (manager w) = Some current ->
  exists w' s,
    ScenarioDispatch frame w = Ok (tt, w')
    /\ current_scenario_ (manager w') = Some s
    /\ stop_done_overlap_ids (scenario_info w')
       = if IsStopSignScenario (scenario_type s)
            || IsTrafficLightScenario (scenario_type s)
         then stop_done_overlap_ids (scenario_info w) else [].
Proof.
  intros Hne Hcur.
  destruct (ScenarioDispatch_steps frame w current Hne Hcur)
    as (t & w1 & w2 & w' & _ & Hs1 & Hupd & Hrun & Hinfo & s & Hs & Ht & _).
  exists w', s. split; [exact Hrun|]. split; [exact Hs|].
  rewrite Hinfo, (UpdatePlanningContext_stop_done _ _ _ _ Hupd), Ht.
  rewrite (steady_info _ _ Hs1). reflexivity.
Qed.

(** X7: after [ScenarioDispatch] the active scenario is the object that
    was active before, or a scenario of one of five types: LANE_FOLLOW,
    SIDE_PASS, STOP_SIGN_UNPROTECTED, TRAFFIC_LIGHT_PROTECTED or
    TRAFFIC_LIGHT_UNPROTECTED_RIGHT_TURN.  Dispatch never switches to
    CHANGE_LANE, APPROACH, STOP_SIGN_PROTECTED or
    TRAFFIC_LIGHT_UNPROTECTED_LEFT_TURN, whatever the supported set. *)
Theorem ScenarioDispatch_targets (frame : Frame) (w : World)
    (current : Scenario) :
  reference_line_info frame <> [] ->
  current_scenario_ (manager w) = Some current ->
  exists w' s,
    ScenarioDispatch frame w = Ok (tt, w')
    /\ current_scenario_ (manager w') = Some s
    /\ (s = current
        \/ In (scenario_type s)
             [LANE_FOLLOW; SIDE_PASS; STOP_SIGN_UNPROTECTED;
              TRAFFIC_LIGHT_PROTECTED; TRAFFIC_LIGHT_UNPROTECTED_RIGHT_TURN]).
Proof.
  intros Hne Hcur.
  destruct (ScenarioDispatch_steps frame w current Hne Hcur)
    as (t & w1 & w2 & w' & Hres & _ & _ & Hrun & _ & s & Hs & Ht & Hsame).
  destruct (dispatch_scenario_type_range frame w current Hne Hcur)
    as (t' & w1' & Hres' & Hrange).
  rewrite Hres in Hres'. injection Hres' as <- <-.
  exists w', s. split; [exact Hrun|]. split; [exact Hs|].
  destruct Hrange as [Hin|Heq]; [right; rewrite Ht; exact Hin|left; auto].
Qed.

(** X8: a stop-sign scenario that is DONE.  Dispatch resolves its own
    type again exactly when a traffic-light overlap wins and the
    traffic-light feature is enabled (the traffic-light selection returns the
    active type when the active scenario is not cruising); in every other
    case it resolves LANE_FOLLOW or SIDE_PASS. *)
Theorem dispatch_leaves_done_stop_sign (frame : Frame) (w : World)
    (ref : ReferenceLineInfo) (rest : list ReferenceLineInfo)
    (current : Scenario) :
  reference_line_info frame = ref :: rest ->
  current_scenario_ (manager w) = Some current ->
  IsStopSignScenario (scenario_type current) = true ->
  GetStatus current = STATUS_DONE ->
  let found :=
    overlap_found
      (first_overlap_of STOP_SIGN (FirstEncounteredOverlaps ref))
      (first_overlap_of SIGNAL (FirstEncounteredOverlaps ref)) in
  exists t,
    returns (dispatch_scenario_type frame) w t
    /\ if negb (fst found) && snd found && FLAGS_enable_scenario_traffic_light
       then t = scenario_type current
       else t = LANE_FOLLOW \/ t = SIDE_PASS.
Proof.
  intros Href Hcur Hstop Hdone. cbv zeta. unfold returns.
  rewrite (dispatch_scenario_type_unfold _ _ _ Hcur).
  assert (Hlf : not_switchable current = LANE_FOLLOW).
  { unfold not_switchable.
    destruct (scenario_type current); try discriminate Hstop;
      rewrite decide_False by (intros Hn; exact (Hn Hdone)); reflexivity. }
  assert (Hncr : cruising (scenario_type current) = false)
    by (destruct (scenario_type current); try discriminate Hstop; reflexivity).
  assert (Hnlf : scenario_type current <> LANE_FOLLOW)
    by (intros Heq; rewrite Heq in Hstop; discriminate).
  rewrite decide_True by exact Hlf.
  rewrite (intersection_scenarios_unfold _ _ _ _ Href). cbv zeta.
  assert (Hside : forall w1, steady w w1 ->
            exists t, (exists w', SelectSidePassScenario frame w1 = Ok (t, w'))
                      /\ (t = LANE_FOLLOW \/ t = SIDE_PASS)).
  { intros w1 Hs1.
    destruct (SelectSidePassScenario_spec frame w1 current) as
      (t & w2 & Hsp & _ & Hrange & _).
    { rewrite (steady_current _ _ Hs1). exact Hcur. }
    exists t. split; [eauto|tauto]. }
  destruct (fst (overlap_found _ _)) eqn:Hss; cbn [negb andb].
  - destruct FLAGS_enable_scenario_stop_sign.
    + destruct (overlap_found_stop_sign _ _ Hss) as [o Ho]. rewrite Ho.
      destruct (SelectStopSignScenario_spec frame o w ref rest current
                  Href Hcur) as (w1 & Hsel & Hq).
      cbv zeta in Hsel. rewrite Hncr, Hstop in Hsel.
      rewrite decide_True in Hsel by exact Hdone. rewrite Hsel.
      rewrite decide_True by reflexivity.
      apply Hside, (quiet_steady _ _ Hq).
    + rewrite decide_True by reflexivity. apply Hside, steady_refl.
  - destruct (snd (overlap_found _ _)) eqn:Htl; cbn [andb].
    + destruct FLAGS_enable_scenario_traffic_light.
      * destruct (overlap_found_traffic_light _ _ Htl) as [o Ho]. rewrite Ho.
        destruct (SelectTrafficLightScenario_spec frame o w ref rest current
                    Href Hcur) as (w1 & Hsel & Hq).
        rewrite (traffic_light_loop_not_cruising _ _ _ _ _ _ Hncr) in Hsel.
        assert (Hntl : IsTrafficLightScenario (scenario_type current) = false)
          by (destruct (scenario_type current); try discriminate Hstop;
              reflexivity).
        rewrite Hntl in Hsel. cbn [andb] in Hsel. rewrite Hsel.
        rewrite decide_False by exact Hnlf.
        exists (scenario_type current). split; [eauto|reflexivity].
      * rewrite decide_True by reflexivity. apply Hside, steady_refl.
    + rewrite decide_True by reflexivity. apply Hside, steady_refl.
Qed.

(** X9: a traffic-light scenario that is DONE.  Dispatch resolves its own
    type again exactly when a stop-sign overlap wins and the stop-sign
    feature is enabled, or a traffic-light overlap wins, the traffic-light
    feature is enabled and the planning context tracks no traffic-light
    overlap; in every other case it resolves LANE_FOLLOW or SIDE_PASS. *)
Theorem dispatch_leaves_done_traffic_light (frame : Frame) (w : World)
    (ref : ReferenceLineInfo) (rest : list ReferenceLineInfo)
    (current : Scenario) :
  reference_line_info frame = ref :: rest ->
  current_scenario_ (manager w) = Some current ->
  IsTrafficLightScenario (scenario_type current) = true ->
  GetStatus current = STATUS_DONE ->
  let found :=
    overlap_found
      (first_overlap_of STOP_SIGN (FirstEncounteredOverlaps ref))
      (first_overlap_of SIGNAL (FirstEncounteredOverlaps ref)) in
  let tracked := current_traffic_light_overlaps (scenario_info w) in
  exists t,
    returns (dispatch_scenario_type frame) w t
    /\ if (fst found && FLAGS_enable_scenario_stop_sign)
          || (negb (fst found) && snd found
              && FLAGS_enable_scenario_traffic_light
              && bool_decide (tracked = []))
       then t = scenario_type current
       else t = LANE_FOLLOW \/ t = SIDE_PASS.
Proof.
  intros Href Hcur Htype Hdone. cbv zeta. unfold returns.
  rewrite (dispatch_scenario_type_unfold _ _ _ Hcur).
  assert (Hlf : not_switchable current = LANE_FOLLOW).
  { unfold not_switchable.
    destruct (scenario_type current); try discriminate Htype;
      rewrite decide_False by (intros Hn; exact (Hn Hdone)); reflexivity. }
  assert (Hncr : cruising (scenario_type current) = false)
    by (destruct (scenario_type current); try discriminate Htype; reflexivity).
  assert (Hnss : IsStopSignScenario (scenario_type current) = false)
    by (destruct (scenario_type current); try discriminate Htype; reflexivity).
  assert (Hnlf : scenario_type current <> LANE_FOLLOW)
    by (intros Heq; rewrite Heq in Htype; discriminate).
  rewrite decide_True by exact Hlf.
  rewrite (intersection_scenarios_unfold _ _ _ _ Href). cbv zeta.
  assert (Hside : forall w1, steady w w1 ->
            exists t, (exists w', SelectSidePassScenario frame w1 = Ok (t, w'))
                      /\ (t = LANE_FOLLOW \/ t = SIDE_PASS)).
  { intros w1 Hs1.
    destruct (SelectSidePassScenario_spec frame w1 current) as
      (t & w2 & Hsp & _ & Hrange & _).
    { rewrite (steady_current _ _ Hs1). exact Hcur. }
    exists t. split; [eauto|tauto]. }
  destruct (fst (overlap_found _ _)) eqn:Hss; cbn [negb andb orb].
  - destruct FLAGS_enable_scenario_stop_sign; cbn [orb].
    + destruct (overlap_found_stop_sign _ _ Hss) as [o Ho]. rewrite Ho.
      destruct (SelectStopSignScenario_spec frame o w ref rest current
                  Href Hcur) as (w1 & Hsel & Hq).
      cbv zeta in Hsel. rewrite Hncr, Hnss in Hsel. rewrite Hsel.
      rewrite decide_False by exact Hnlf.
      exists (scenario_type current). split; [eauto|reflexivity].
    + rewrite decide_True by reflexivity. apply Hside, steady_refl.
  - destruct (snd (overlap_found _ _)) eqn:Htl; cbn [andb].
    + destruct FLAGS_enable_scenario_traffic_light; cbn [andb].
      * destruct (overlap_found_traffic_light _ _ Htl) as [o Ho]. rewrite Ho.
        destruct (SelectTrafficLightScenario_spec frame o w ref rest current
                    Href Hcur) as (w1 & Hsel & Hq).
        rewrite (traffic_light_loop_not_cruising _ _ _ _ _ _ Hncr) in Hsel.
        rewrite Htype, (bool_decide_eq_true_2 _ Hdone) in Hsel.
        cbn [andb] in Hsel. rewrite Hsel.
        destruct (bool_decide (current_traffic_light_overlaps
                                 (scenario_info w) = [])); cbn [negb].
        -- rewrite decide_False by exact Hnlf.
           exists (scenario_type current). split; [eauto|reflexivity].
        -- rewrite decide_True by reflexivity.
           apply Hside, (quiet_steady _ _ Hq).
      * rewrite decide_True by reflexivity. apply Hside, steady_refl.
    + rewrite decide_True by reflexivity. apply Hside, steady_refl.
Qed.

(** X10: with the stop-sign and traffic-light features disabled, and the
    active scenario not holding Dispatch to its type, the resolution is the
    side-pass selection alone, whatever overlaps lie ahead. *)
Theorem dispatch_without_intersection_features (frame : Frame) (w : World)
    (current : Scenario) :
  FLAGS_enable_scenario_stop_sign = false ->
  FLAGS_enable_scenario_traffic_light = false ->
  reference_line_info frame <> [] ->
  current_scenario_ (manager w) = Some current ->
  not_switchable current = LANE_FOLLOW ->
  dispatch_scenario_type frame w = SelectSidePassScenario frame w.
Proof.
  intros Hss Htl Hne Hcur Hlf.
  rewrite (dispatch_scenario_type_unfold _ _ _ Hcur).
  rewrite decide_True by exact Hlf.
  destruct (reference_line_info frame) as [|ref rest] eqn:Href;
    [contradiction|].
  rewrite (intersection_scenarios_unfold _ _ _ _ Href). cbv zeta.
  rewrite Hss, Htl.
  destruct (fst _); [|destruct (snd _)];
    rewrite decide_True by reflexivity; reflexivity.
Qed.

(** X11: [SelectSidePassScenario], exactly.  It yields SIDE_PASS when the
    active scenario is a side-pass scenario transferable from itself, or
    else when a newly created side-pass scenario is transferable from the
    active one, and LANE_FOLLOW otherwise; it leaves the active scenario in
    place, allocates one scenario unless the active one was reused, and asks
    [IsTransferable] once or twice. *)
Theorem SelectSidePassScenario_decision (frame : Frame) (w : World)
    (current : Scenario) :
  current_scenario_ (manager w) = Some current ->
  let trial :=
    {| scenario_type := SIDE_PASS;
       GetStatus := Scenario_Init SIDE_PASS (configured w SIDE_PASS);
       config := configured w SIDE_PASS;
       instance := allocated w |} in
  let reuse :=
    bool_decide (scenario_type current = SIDE_PASS)
    && IsTransferable current current frame in
  exists w',
    SelectSidePassScenario frame w
    = Ok (if reuse || IsTransferable trial current frame
          then SIDE_PASS else LANE_FOLLOW, w')
    /\ current_scenario_ (manager w') = Some current
    /\ allocated w' = (if reuse then allocated w else S (allocated w))
    /\ probes w'
       = probes w
         ++ (if bool_decide (scenario_type current = SIDE_PASS)
             then [SIDE_PASS] else [])
         ++ (if reuse then [] else [SIDE_PASS]).
Proof.
  intros Hcur. cbv zeta. unfold SelectSidePassScenario.
  rewrite (bind_step _ _ _ _ _ (current_scenario_spec w current Hcur)).
  assert (Htrial : forall w0,
    steady w w0 -> allocated w0 = allocated w ->
    exists w',
      (p <- CreateScenario SIDE_PASS ;;
       scenario <- deref p ;;
       transferable <- probe scenario current frame ;;
       if transferable : bool then ret SIDE_PASS else ret LANE_FOLLOW) w0
      = Ok (if IsTransferable
                 {| scenario_type := SIDE_PASS;
                    GetStatus :=
                      Scenario_Init SIDE_PASS (configured w SIDE_PASS);
                    config := configured w SIDE_PASS;
                    instance := allocated w |} current frame
            then SIDE_PASS else LANE_FOLLOW, w')
      /\ current_scenario_ (manager w') = Some current
      /\ allocated w' = S (allocated w)
      /\ probes w' = probes w0 ++ [SIDE_PASS]).
  { intros w0 Hs0 Ha0.
    destruct (CreateScenario_constructible SIDE_PASS w0 eq_refl)
      as (w1 & Hcreate & Hs1 & Ha1 & Hp1).
    rewrite (bind_step _ _ _ _ _ Hcreate).
    rewrite (steady_configured _ _ Hs0), Ha0.
    unfold bind at 1, deref at 1. unfold bind at 1. rewrite probe_spec.
    cbn [scenario_type].
    destruct (IsTransferable _ current frame);
      (eexists; split; [reflexivity|]; cbn;
       rewrite (steady_current _ _ Hs1), (steady_current _ _ Hs0), Ha1, Ha0,
         Hp1; auto). }
  destruct (decide (scenario_type current = SIDE_PASS)) as [Hsp|Hsp].
  - rewrite (bool_decide_eq_true_2 _ Hsp). cbn [andb].
    unfold bind at 1. rewrite probe_spec. rewrite Hsp.
    destruct (IsTransferable current current frame) eqn:Htr; cbn [orb].
    + eexists. split; [reflexivity|]. cbn. auto.
    + destruct (Htrial (log_probe SIDE_PASS w) (steady_log_probe _ _) eq_refl)
        as (w' & Hrun & Hc & Ha & Hp).
      exists w'. split; [exact Hrun|]. split; [exact Hc|]. split; [exact Ha|].
      rewrite Hp. cbn. rewrite <- app_assoc. reflexivity.
  - rewrite (bool_decide_eq_false_2 _ Hsp). cbn [andb orb].
    unfold bind at 1. cbn [ret].
    destruct (Htrial w (steady_refl _) eq_refl)
      as (w' & Hrun & Hc & Ha & Hp).
    exists w'. split; [exact Hrun|]. split; [exact Hc|]. split; [exact Ha|].
    rewrite Hp. reflexivity.
Qed.

(** ** Self-vote *)

(** A candidate of another type than the active one, none being
    transferable, is rejected. *)
Lemma SelectScenario_rejected (t : ScenarioType) (frame : Frame) (w : World)
    (current : Scenario) :
  current_scenario_ (manager w) = Some current ->
  scenario_type current <> t ->
  constructible t = true ->
  (forall s, IsTransferable s current frame = false) ->
  exists w', SelectScenario t frame w = Ok (false, w') /\ steady w w'.
Proof.
  intros Hcur Hne Hc Hnever. unfold SelectScenario.
  rewrite (bind_step _ _ _ _ _ (current_scenario_spec w current Hcur)).
  rewrite decide_False by exact Hne.
  destruct (CreateScenario_constructible t w Hc)
    as (w1 & Hcreate & Hs & _ & _).
  rewrite (bind_step _ _ _ _ _ Hcreate).
  unfold bind at 1, deref at 1. unfold bind at 1. rewrite probe_spec, Hnever.
  eexists. split; [reflexivity|].
  eapply steady_trans; [exact Hs|apply steady_log_probe].
Qed.

(** Both walks end without a selection when no scenario is
    transferable. *)
Lemma walk_preferred_rejected (frame : Frame) (preferred : list ScenarioType)
    (rejected : gset ScenarioType) (w : World) (current : Scenario) :
  current_scenario_ (manager w) = Some current ->
  scenario_type current ∈ rejected ->
  (forall t, t ∈ supported_scenarios_ (manager w) -> constructible t = true) ->
  (forall s, IsTransferable s current frame = false) ->
  exists rejected' w',
    walk_preferred frame preferred rejected w = Ok ((false, rejected'), w')
    /\ steady w w'
    /\ rejected ⊆ rejected'.
Proof.
  intros Hcur Hrej Hall Hnever. revert rejected w Hcur Hrej Hall.
  induction preferred as [|candidate rest IH]; intros rejected w Hcur Hrej Hall.
  - exists rejected, w. split; [reflexivity|]. split; [apply steady_refl|].
    reflexivity.
  - cbn [walk_preferred]. unfold bind at 1, gets at 1.
    destruct (bool_decide (candidate ∈ rejected)) eqn:Hin; cbn [orb].
    { apply IH; assumption. }
    apply bool_decide_eq_false in Hin.
    destruct (bool_decide (candidate ∉ supported_scenarios_ (manager w)))
      eqn:Hsup.
    { apply IH; assumption. }
    apply bool_decide_eq_false in Hsup.
    assert (Hsup' : candidate ∈ supported_scenarios_ (manager w))
      by (destruct (decide (candidate ∈ supported_scenarios_ (manager w)));
          [assumption|contradiction]).
    destruct (SelectScenario_rejected candidate frame w current Hcur)
      as (w1 & Hsel & Hs1); [congruence|auto|exact Hnever|].
    rewrite (bind_step _ _ _ _ _ Hsel).
    destruct (IH ({[candidate]} ∪ rejected) w1)
      as (rej' & w' & Hrun & Hs' & Hsub).
    + rewrite (steady_current _ _ Hs1). exact Hcur.
    + apply elem_of_union_r, Hrej.
    + rewrite (steady_supported _ _ Hs1). exact Hall.
    + exists rej', w'. split; [exact Hrun|].
      split; [eapply steady_trans; eassumption|].
      intros t Ht. apply Hsub, elem_of_union_r, Ht.
Qed.

Lemma walk_supported_rejected (frame : Frame) (supported : list ScenarioType)
    (rejected : gset ScenarioType) (w : World) (current : Scenario) :
  current_scenario_ (manager w) = Some current ->
  scenario_type current ∈ rejected ->
  (forall t, t ∈ supported -> constructible t = true) ->
  (forall s, IsTransferable s current frame = false) ->
  exists rejected' w',
    walk_supported frame supported rejected w = Ok ((false, rejected'), w')
    /\ steady w w'
    /\ rejected ⊆ rejected'.
Proof.
  intros Hcur Hrej Hall Hnever. revert rejected w Hcur Hrej.
  induction supported as [|candidate rest IH]; intros rejected w Hcur Hrej.
  - exists rejected, w. split; [reflexivity|]. split; [apply steady_refl|].
    reflexivity.
  - assert (Hrest : forall t, t ∈ rest -> constructible t = true)
      by (intros t Ht; apply Hall; right; exact Ht).
    cbn [walk_supported].
    destruct (bool_decide (candidate ∈ rejected)) eqn:Hin.
    { apply IH; assumption. }
    apply bool_decide_eq_false in Hin.
    destruct (flag_disabled candidate); [apply IH; assumption|].
    destruct (SelectScenario_rejected candidate frame w current Hcur)
      as (w1 & Hsel & Hs1); [congruence|apply Hall; left|exact Hnever|].
    rewrite (bind_step _ _ _ _ _ Hsel).
    destruct (IH Hrest ({[candidate]} ∪ rejected) w1)
      as (rej' & w' & Hrun & Hs' & Hsub).
    + rewrite (steady_current _ _ Hs1). exact Hcur.
    + apply elem_of_union_r, Hrej.
    + exists rej', w'. split; [exact Hrun|].
      split; [eapply steady_trans; eassumption|].
      intros t Ht. apply Hsub, elem_of_union_r, Ht.
Qed.

(** A non-default active scenario transferable from itself ends the
    self-vote at once. *)
Lemma ScenarioSelfVote_reuse (frame : Frame) (w : World)
    (current : Scenario) :
  reference_line_info frame <> [] ->
  current_scenario_ (manager w) = Some current ->
  scenario_type current <> default_scenario_type_ (manager w) ->
  IsTransferable current current frame = true ->
  ScenarioSelfVote frame w = Ok (tt, log_probe (scenario_type current) w).
Proof.
  intros Hne Hcur Hnd Htr. unfold ScenarioSelfVote.
  rewrite (bool_decide_eq_false_2 _ Hne). unfold bind at 1. cbn [CHECK negb].
  destruct (reference_line_info frame) as [|ref rest]; [contradiction|].
  unfold bind at 1. cbn [front].
  rewrite (bind_step _ _ _ _ _ (current_scenario_spec w current Hcur)).
  unfold bind at 1, gets at 1. rewrite decide_True by exact Hnd.
  unfold bind at 1, ReuseCurrentScenario.
  rewrite (bind_step _ _ _ _ _ (current_scenario_spec w current Hcur)).
  rewrite probe_spec, Htr. reflexivity.
Qed.

(** X12: when no scenario is transferable and every supported type can be
    constructed, the self-vote ends on the default type: the active scenario
    is kept when it already has the default type, and is replaced by a newly
    created scenario of the default type otherwise. *)
Theorem self_vote_falls_back_to_default (frame : Frame) (w : World)
    (current : Scenario) :
  reference_line_info frame <> [] ->
  current_scenario_ (manager w) = Some current ->
  constructible (default_scenario_type_ (manager w)) = true ->
  forallb constructible (set_elements (supported_scenarios_ (manager w)))
  = true ->
  (forall s, IsTransferable s current frame = false) ->
  exists w' s,
    ScenarioSelfVote frame w = Ok (tt, w')
    /\ current_scenario_ (manager w') = Some s
    /\ scenario_type s = default_scenario_type_ (manager w)
    /\ (scenario_type current = default_scenario_type_ (manager w) ->
        s = current)
    /\ (scenario_type current <> default_scenario_type_ (manager w) ->
        allocated w <= instance s).
Proof.
  intros Hne Hcur Hdefault Hall Hnever. unfold ScenarioSelfVote.
  rewrite (bool_decide_eq_false_2 _ Hne). unfold bind at 1. cbn [CHECK negb].
  destruct (reference_line_info frame) as [|ref rest]; [contradiction|].
  unfold bind at 1. cbn [front].
  rewrite (bind_step _ _ _ _ _ (current_scenario_spec w current Hcur)).
  unfold bind at 1, gets at 1.
  assert (Hwalks : forall w0, steady w w0 ->
    exists w' s,
      (walked <-
         walk_preferred frame
           (LANE_FOLLOW
            :: concat (map preferred_of (FirstEncounteredOverlaps ref)))
           ({[scenario_type current]} ∪ ∅) ;;
       if fst walked
       then ret tt
       else
         supported <- gets (fun w => supported_scenarios_ (manager w)) ;;
         walked <- walk_supported frame (set_elements supported) (snd walked) ;;
         if fst walked
         then ret tt
         else
           current <- current_scenario ;;
           if decide (scenario_type current
                      <> default_scenario_type_ (manager w))
           then scenario <-
                  CreateScenario (default_scenario_type_ (manager w)) ;;
                modify_manager (set_current_scenario scenario)
           else ret tt) w0 = Ok (tt, w')
      /\ current_scenario_ (manager w') = Some s
      /\ scenario_type s = default_scenario_type_ (manager w)
      /\ (scenario_type current = default_scenario_type_ (manager w) ->
          s = current)
      /\ (scenario_type current <> default_scenario_type_ (manager w) ->
          allocated w <= instance s)).
  { intros w0 Hs0.
    assert (Hcur0 : current_scenario_ (manager w0) = Some current)
      by (rewrite (steady_current _ _ Hs0); exact Hcur).
    assert (Hall0 : forall t, t ∈ supported_scenarios_ (manager w0) ->
                              constructible t = true)
      by (rewrite (steady_supported _ _ Hs0); apply all_constructible, Hall).
    destruct (walk_preferred_rejected frame
                (LANE_FOLLOW
                 :: concat (map preferred_of (FirstEncounteredOverlaps ref)))
                ({[scenario_type current]} ∪ ∅) w0 current Hcur0)
      as (rej1 & w1 & Hw1 & Hs1 & Hsub1);
      [apply elem_of_union_l, elem_of_singleton; reflexivity
      |exact Hall0|exact Hnever|].
    rewrite (bind_step _ _ _ _ _ Hw1). cbn [fst snd].
    unfold bind at 1, gets at 1.
    assert (Hcur1 : current_scenario_ (manager w1) = Some current)
      by (rewrite (steady_current _ _ Hs1); exact Hcur0).
    destruct (walk_supported_rejected frame
                (set_elements (supported_scenarios_ (manager w1)))
                rej1 w1 current Hcur1) as (rej2 & w2 & Hw2 & Hs2 & _).
    { apply Hsub1, elem_of_union_l, elem_of_singleton. reflexivity. }
    { intros t Ht. apply set_elements_spec in Ht.
      rewrite (steady_supported _ _ Hs1) in Ht. auto. }
    { exact Hnever. }
    rewrite (bind_step _ _ _ _ _ Hw2). cbn [fst snd].
    assert (Hs02 : steady w w2)
      by (eapply steady_trans; [exact Hs0|];
          eapply steady_trans; eassumption).
    assert (Hcur2 : current_scenario_ (manager w2) = Some current)
      by (rewrite (steady_current _ _ Hs02); exact Hcur).
    rewrite (bind_step _ _ _ _ _ (current_scenario_spec w2 current Hcur2)).
    destruct (decide _) as [Hswitch|Hkeep].
    - destruct (CreateScenario_constructible _ w2 Hdefault)
        as (w3 & Hcreate & Hs3 & _ & _).
      rewrite (bind_step _ _ _ _ _ Hcreate).
      eexists _, _. split; [reflexivity|]. cbn.
      split; [reflexivity|]. split; [reflexivity|].
      split; [intros Heq; contradiction|].
      intros _. exact (steady_allocated _ _ Hs02).
    - exists w2, current. split; [reflexivity|]. split; [exact Hcur2|].
      assert (Heq : scenario_type current = default_scenario_type_ (manager w)).
      { destruct (decide (scenario_type current
                          = default_scenario_type_ (manager w)));
          [assumption|contradiction]. }
      split; [exact Heq|]. split; [reflexivity|]. intros Hn. contradiction. }
  destruct (decide (scenario_type current
                    <> default_scenario_type_ (manager w))) as [Hnd|Hd].
  - unfold bind at 1, ReuseCurrentScenario.
    rewrite (bind_step _ _ _ _ _ (current_scenario_spec w current Hcur)).
    rewrite probe_spec, Hnever.
    apply (Hwalks (log_probe (scenario_type current) w)), steady_log_probe.
  - unfold bind at 1. cbn [ret]. apply Hwalks, steady_refl.
Qed.

(** X13: LANE_FOLLOW is tried before anything the overlaps suggest.  From
    an active scenario of another type that is not transferable from itself,
    with LANE_FOLLOW the default type and supported, and a LANE_FOLLOW
    scenario transferable, the self-vote makes a newly created LANE_FOLLOW
    scenario active after two calls of [IsTransferable], whatever overlaps
    lie ahead. *)
Theorem self_vote_returns_to_lane_follow (frame : Frame) (w : World)
    (current : Scenario) :
  reference_line_info frame <> [] ->
  current_scenario_ (manager w) = Some current ->
  default_scenario_type_ (manager w) = LANE_FOLLOW ->
  scenario_type current <> LANE_FOLLOW ->
  IsTransferable current current frame = false ->
  LANE_FOLLOW ∈ supported_scenarios_ (manager w) ->
  (forall s, scenario_type s = LANE_FOLLOW ->
             IsTransferable s current frame = true) ->
  exists w',
    ScenarioSelfVote frame w = Ok (tt, w')
    /\ current_scenario_ (manager w')
       = Some {| scenario_type := LANE_FOLLOW;
                 GetStatus :=
                   Scenario_Init LANE_FOLLOW (configured w LANE_FOLLOW);
                 config := configured w LANE_FOLLOW;
                 instance := allocated w |}
    /\ probes w' = probes w ++ [scenario_type current; LANE_FOLLOW]
    /\ allocated w' = S (allocated w).
Proof.
  intros Hne Hcur Hdefault Hnlf Hstuck Hsup Hlf. unfold ScenarioSelfVote.
  rewrite (bool_decide_eq_false_2 _ Hne). unfold bind at 1. cbn [CHECK negb].
  destruct (reference_line_info frame) as [|ref rest]; [contradiction|].
  unfold bind at 1. cbn [front].
  rewrite (bind_step _ _ _ _ _ (current_scenario_spec w current Hcur)).
  unfold bind at 1, gets at 1. rewrite Hdefault.
  rewrite decide_True by exact Hnlf.
  unfold bind at 1, ReuseCurrentScenario.
  rewrite (bind_step _ _ _ _ _ (current_scenario_spec w current Hcur)).
  rewrite probe_spec, Hstuck.
  set (w0 := log_probe (scenario_type current) w).
  unfold bind at 1. cbn [walk_preferred]. unfold bind at 1, gets at 1.
  rewrite bool_decide_eq_false_2.
  2: { intros Hin. apply elem_of_union in Hin as [Hin|Hin].
       - apply elem_of_singleton in Hin. congruence.
       - apply elem_of_empty in Hin. exact Hin. }
  rewrite bool_decide_eq_false_2 by (intros Hn; exact (Hn Hsup)).
  cbn [orb]. unfold bind at 1, SelectScenario.
  rewrite (bind_step _ _ _ _ _ (current_scenario_spec w0 current Hcur)).
  rewrite decide_False by exact Hnlf.
  destruct (CreateScenario_constructible LANE_FOLLOW w0 eq_refl)
    as (w1 & Hcreate & Hs1 & Ha1 & Hp1).
  rewrite (bind_step _ _ _ _ _ Hcreate).
  unfold bind at 1, deref at 1. unfold bind at 1. rewrite probe_spec.
  rewrite Hlf by reflexivity.
  unfold bind, modify_manager, modify, ret. cbn.
  eexists. split; [reflexivity|]. cbn.
  rewrite (steady_configured _ _ (steady_log_probe (scenario_type current) w)).
  split; [reflexivity|]. rewrite Hp1, Ha1. cbn.
  rewrite <- app_assoc. split; reflexivity.
Qed.

(** X14: the walk over the preferred scenarios does not read the feature
    flags.  From an active LANE_FOLLOW scenario, LANE_FOLLOW being the
    default type, the first scenario type the first overlap suggests, when
    supported and transferable, becomes the active type after a single call
    of [IsTransferable], whatever the values of the stop-sign, traffic-light
    and side-pass flags. *)
Theorem self_vote_preferred_ignores_feature_flags (frame : Frame) (w : World)
    (ref : ReferenceLineInfo) (rest : list ReferenceLineInfo)
    (current : Scenario) (overlap : OverlapType * PathOverlap)
    (others : list (OverlapType * PathOverlap)) (t : ScenarioType) :
  reference_line_info frame = ref :: rest ->
  FirstEncounteredOverlaps ref = overlap :: others ->
  head (preferred_of overlap) = Some t ->
  current_scenario_ (manager w) = Some current ->
  scenario_type current = LANE_FOLLOW ->
  default_scenario_type_ (manager w) = LANE_FOLLOW ->
  t ∈ supported_scenarios_ (manager w) ->
  (forall s, scenario_type s = t -> IsTransferable s current frame = true) ->
  exists w',
    ScenarioSelfVote frame w = Ok (tt, w')
    /\ current_scenario_ (manager w')
       = Some {| scenario_type := t;
                 GetStatus := Scenario_Init t (configured w t);
                 config := configured w t;
                 instance := allocated w |}
    /\ probes w' = probes w ++ [t].
Proof.
  intros Href Hfirst Hhead Hcur Htype Hdefault Hsup Htr.
  assert (Hne : reference_line_info frame <> [])
    by (rewrite Href; discriminate).
  assert (Ht : constructible t = true /\ t <> LANE_FOLLOW
               /\ exists tail, preferred_of overlap = t :: tail).
  { unfold preferred_of in *.
    destruct (bool_decide (overlap.1 = OBSTACLE));
      [cbn in Hhead; injection Hhead as <-;
       split; [reflexivity|]; split; [discriminate|]; eexists; reflexivity|].
    destruct (bool_decide (overlap.1 = STOP_SIGN));
      [cbn in Hhead; injection Hhead as <-;
       split; [reflexivity|]; split; [discriminate|]; eexists; reflexivity|].
    destruct (bool_decide (overlap.1 = SIGNAL));
      [cbn in Hhead; injection Hhead as <-;
       split; [reflexivity|]; split; [discriminate|]; eexists; reflexivity|].
    discriminate Hhead. }
  destruct Ht as (Hc & Hnlf & tail & Htail).
  unfold ScenarioSelfVote.
  rewrite (bool_decide_eq_false_2 _ Hne). unfold bind at 1. cbn [CHECK negb].
  rewrite Href. unfold bind at 1. cbn [front].
  rewrite (bind_step _ _ _ _ _ (current_scenario_spec w current Hcur)).
  unfold bind at 1, gets at 1. rewrite Hdefault, Htype.
  rewrite decide_False by (intros Hn; apply Hn; reflexivity).
  unfold bind at 1. cbn [ret].
  rewrite Hfirst. cbn [map concat]. rewrite Htail. cbn [app].
  unfold bind at 1. cbn [walk_preferred]. unfold bind at 1, gets at 1.
  rewrite (bool_decide_eq_true_2 (LANE_FOLLOW ∈ _))
    by (apply elem_of_union_l, elem_of_singleton; reflexivity).
  cbn [orb]. unfold bind at 1, gets at 1.
  rewrite bool_decide_eq_false_2.
  2: { intros Hin. apply elem_of_union in Hin as [Hin|Hin].
       - apply elem_of_singleton in Hin. congruence.
       - apply elem_of_empty in Hin. exact Hin. }
  rewrite bool_decide_eq_false_2 by (intros Hn; exact (Hn Hsup)).
  cbn [orb]. unfold bind at 1, SelectScenario.
  rewrite (bind_step _ _ _ _ _ (current_scenario_spec w current Hcur)).
  rewrite decide_False by congruence.
  destruct (CreateScenario_constructible t w Hc)
    as (w1 & Hcreate & Hs1 & Ha1 & Hp1).
  rewrite (bind_step _ _ _ _ _ Hcreate).
  unfold bind at 1, deref at 1. unfold bind at 1. rewrite probe_spec.
  rewrite Htr by reflexivity.
  unfold bind, modify_manager, modify, ret. cbn.
  eexists. split; [reflexivity|]. cbn.
  split; [reflexivity|]. rewrite Hp1. reflexivity.
Qed.

(** X15: under self-vote, an [Update] with a non-default active scenario
    that is transferable from itself does what [Observe] does and calls
    [IsTransferable] once: the active scenario stays, nothing is created. *)
Theorem update_self_vote_reuses_current (frame : Frame) (w : World)
    (current : Scenario) :
  FLAGS_enable_scenario_dispatcher = false ->
  reference_line_info frame <> [] ->
  current_scenario_ (manager w) = Some current ->
  scenario_type current <> default_scenario_type_ (manager w) ->
  IsTransferable current current frame = true ->
  exists w1,
    Observe frame w = Ok (tt, w1)
    /\ Update frame w = Ok (tt, log_probe (scenario_type current) w1).
Proof.
  intros Hflag Hne Hcur Hnd Htr.
  destruct (Observe_spec frame w) as (w1 & Hobs & Hm & _).
  exists w1. split; [exact Hobs|].
  unfold Update.
  rewrite (bool_decide_eq_false_2 _ Hne). unfold bind at 1. cbn [CHECK negb].
  rewrite (bind_step _ _ _ _ _ Hobs), Hflag.
  apply ScenarioSelfVote_reuse; rewrite ?Hm; assumption.
Qed.

(** ** Registration, initialisation and the factory *)

(** X16: [RegisterScenarios] either completes, and then the configuration
    map holds under each of the six constructible types what [LoadConfig]
    read from the file of that type, every other entry and the rest of the
    world being untouched; or it fails its [CHECK], and then one of the six
    files did not load.  It never runs into undefined behaviour. *)
Theorem RegisterScenarios_registers_loaded_configs (w : World) :
  match RegisterScenarios w with
  | Ok (_, w') =>
      (forall t,
          config_map_ (manager w') !! t
          = match config_file t with
            | Some file => LoadConfig file
            | None => config_map_ (manager w) !! t
            end)
      /\ (forall t, constructible t = true ->
                    is_Some (config_map_ (manager w') !! t))
      /\ w' = set_manager
                (set_config_map (config_map_ (manager w')) (manager w)) w
  | CheckFailed =>
      exists t file, config_file t = Some file /\ LoadConfig file = None
  | Undefined => False
  end.
Proof.
  pose proof (RegisterScenarios_spec w) as Hspec.
  destruct (RegisterScenarios w) as [[[] w']| |] eqn:Hrun.
  - destruct (RegisterScenarios_loaded w w' Hrun) as [Hload Hw].
    split; [exact Hload|]. split; [exact (proj2 Hspec)|exact Hw].
  - destruct Hspec as (file & Hin & Hnone). cbn in Hin.
    destruct Hin as [<-|[<-|[<-|[<-|[<-|[<-|[]]]]]]].
    + exists LANE_FOLLOW; eauto.
    + exists SIDE_PASS; eauto.
    + exists STOP_SIGN_UNPROTECTED; eauto.
    + exists TRAFFIC_LIGHT_PROTECTED; eauto.
    + exists TRAFFIC_LIGHT_UNPROTECTED_LEFT_TURN; eauto.
    + exists TRAFFIC_LIGHT_UNPROTECTED_RIGHT_TURN; eauto.
  - exact Hspec.
Qed.

(** X17: after [Init] the active scenario is a LANE_FOLLOW scenario built
    from the configuration loaded from the lane-follow file, the one object
    [Init] allocated; and for each of the six constructible types the factory
    then builds a scenario from the configuration loaded from the file of
    that type, leaving the configuration map as it is. *)
Theorem Init_builds_from_loaded_configs (supported : gset ScenarioType)
    (w w' : World) (b : bool) :
  Init supported w = Ok (b, w') ->
  (exists c,
     LoadConfig FLAGS_scenario_lane_follow_config_file = Some c
     /\ current_scenario_ (manager w')
        = Some {| scenario_type := LANE_FOLLOW;
                  GetStatus := Scenario_Init LANE_FOLLOW c;
                  config := c; instance := allocated w |}
     /\ allocated w' = S (allocated w))
  /\ (forall t, constructible t = true ->
        exists file c,
          config_file t = Some file
          /\ LoadConfig file = Some c
          /\ CreateScenario t w'
             = Ok (Some {| scenario_type := t;
                           GetStatus := Scenario_Init t c;
                           config := c; instance := allocated w' |},
                   allocate w')).
Proof.
  intros Hinit. unfold Init in Hinit. unfold bind at 1 in Hinit.
  destruct (RegisterScenarios w) as [[[] w1]| |] eqn:Hreg; try discriminate.
  destruct (RegisterScenarios_loaded w w1 Hreg) as [Hload Hw1].
  pose proof (RegisterScenarios_spec w) as Hspec. rewrite Hreg in Hspec.
  destruct Hspec as [_ Hsome].
  assert (Hentry : forall t, constructible t = true ->
            exists file c, config_file t = Some file
                           /\ LoadConfig file = Some c
                           /\ config_map_ (manager w1) !! t = Some c).
  { intros t Hc. destruct (Hsome t Hc) as [c Hlook].
    specialize (Hload t). rewrite Hlook in Hload.
    destruct t; try discriminate Hc; cbn [config_file] in *; eauto. }
  destruct (Hentry LANE_FOLLOW eq_refl) as (file & c & Hfile & Hc & Hlook).
  injection Hfile as <-.
  unfold bind at 1, modify_manager at 1, modify at 1 in Hinit.
  unfold bind at 1, modify_manager at 1, modify at 1 in Hinit.
  unfold bind at 1, gets at 1 in Hinit.
  cbn [default_scenario_type_ manager set_manager set_supported_scenarios
       set_default_scenario_type] in Hinit.
  match type of Hinit with
  | context [bind (CreateScenario LANE_FOLLOW) ?k ?w0] =>
      rewrite (bind_step _ _ _ _ _
                 (CreateScenario_registered LANE_FOLLOW w0 c eq_refl Hlook))
        in Hinit
  end.
  unfold bind, modify_manager, modify, ret in Hinit.
  assert (Ha : allocated w1 = allocated w) by (rewrite Hw1; reflexivity).
  injection Hinit as _ <-. split.
  - exists c. split; [exact Hc|]. cbn. rewrite Ha. split; reflexivity.
  - intros t Hct.
    destruct (Hentry t Hct) as (file & c' & Hfile & Hc' & Hlook').
    exists file, c'. split; [exact Hfile|]. split; [exact Hc'|].
    apply CreateScenario_registered; [exact Hct|exact Hlook'].
Qed.

(** X18: what [Update] requires.  On a frame without a reference line it
    fails its [CHECK]; on a frame with one, a manager holding no active
    scenario (one on which [Init] never ran) is dereferenced through a null
    pointer, under Dispatch and under self-vote alike. *)
Theorem Update_preconditions (frame : Frame) (w : World) :
  (reference_line_info frame = [] -> Update frame w = CheckFailed)
  /\ (reference_line_info frame <> [] ->
      current_scenario_ (manager w) = None ->
      Update frame w = Undefined).
Proof.
  split.
  - intros Hempty. unfold Update. rewrite Hempty. reflexivity.
  - intros Hne Hnull. unfold Update.
    rewrite (bool_decide_eq_false_2 _ Hne). unfold bind at 1. cbn [CHECK negb].
    destruct (Observe_spec frame w) as (w1 & Hobs & Hm & _).
    rewrite (bind_step _ _ _ _ _ Hobs).
    assert (Hcur : current_scenario w1 = Undefined).
    { unfold current_scenario, bind, gets, deref. rewrite Hm, Hnull.
      reflexivity. }
    destruct FLAGS_enable_scenario_dispatcher.
    + unfold ScenarioDispatch.
      rewrite (bool_decide_eq_false_2 _ Hne). unfold bind at 1.
      cbn [CHECK negb]. unfold bind at 1, dispatch_scenario_type.
      unfold bind at 1. rewrite Hcur. reflexivity.
    + unfold ScenarioSelfVote.
      rewrite (bool_decide_eq_false_2 _ Hne). unfold bind at 1.
      cbn [CHECK negb].
      destruct (reference_line_info frame) as [|ref rest]; [contradiction|].
      unfold bind at 1. cbn [front]. unfold bind at 1. rewrite Hcur.
      reflexivity.
Qed.

End Coverage.

(** * The properties at concrete inputs *)

(** C2 (counterexample): with threshold 10, a winning stop sign at 105 and
    the front edge at 94 (distance 11), from an active SIDE_PASS scenario that
    is DONE the candidate is still LANE_FOLLOW when the intersection block is
    entered, and the block and the whole resolution yield SIDE_PASS, not
    LANE_FOLLOW. *)
Lemma stop_sign_outside_gate_keeps_side_pass :
  let w := Example.world Example.all_supported [] SIDE_PASS STATUS_DONE in
  let frame := Example.stop_sign_frame 94 in
  (10 <? 105 - 94)%float = true
  /\ cruising SIDE_PASS = true
  /\ (exists current,
        current_scenario_ (manager w) = Some current
        /\ scenario_type current = SIDE_PASS
        /\ not_switchable current = LANE_FOLLOW)
  /\ returns (intersection_scenarios (flags := Example.dispatch)
                (scenarios := Example.stubborn) frame) w SIDE_PASS
  /\ returns (dispatch_scenario_type (flags := Example.dispatch)
                (scenarios := Example.stubborn) frame) w SIDE_PASS
  /\ ~ returns (dispatch_scenario_type (flags := Example.dispatch)
                  (scenarios := Example.stubborn) frame) w LANE_FOLLOW.
Proof.
  cbv zeta. split; [reflexivity|]. split; [reflexivity|].
  split; [eexists; repeat split|].
  split; [eexists; vm_compute; reflexivity|].
  split; [eexists; vm_compute; reflexivity|].
  intros [w' Hrun]. vm_compute in Hrun. discriminate Hrun.
Qed.

(** C2 (witness): the gate at the four front-edge positions, from an active
    LANE_FOLLOW scenario with threshold 10 and the stop sign at 105. *)
Lemma stop_sign_distance_gate_witness :
  let w := Example.cruise [] in
  returns (dispatch_scenario_type (flags := Example.dispatch)
             (scenarios := Example.stubborn) (Example.stop_sign_frame 100)) w
    STOP_SIGN_UNPROTECTED
  /\ returns (dispatch_scenario_type (flags := Example.dispatch)
                (scenarios := Example.stubborn) (Example.stop_sign_frame 96))
       w STOP_SIGN_UNPROTECTED
  /\ returns (dispatch_scenario_type (flags := Example.dispatch)
                (scenarios := Example.stubborn) (Example.stop_sign_frame 94))
       w LANE_FOLLOW
  /\ returns (dispatch_scenario_type (flags := Example.dispatch)
                (scenarios := Example.stubborn) (Example.stop_sign_frame 106))
       w LANE_FOLLOW.
Proof.
  cbv zeta. repeat split.
  - edestruct (stop_sign_distance_gate (flags := Example.dispatch)
                 (scenarios := Example.stubborn) (Example.stop_sign_frame 100)
                 (Example.cruise []))
      as (_ & (t & Hret & Hiff & _) & _); try reflexivity.
    assert (Ht : t = STOP_SIGN_UNPROTECTED)
      by (apply Hiff; vm_compute; reflexivity).
    subst t. exact Hret.
  - edestruct (stop_sign_distance_gate (flags := Example.dispatch)
                 (scenarios := Example.stubborn) (Example.stop_sign_frame 96)
                 (Example.cruise []))
      as (_ & (t & Hret & Hiff & _) & _); try reflexivity.
    assert (Ht : t = STOP_SIGN_UNPROTECTED)
      by (apply Hiff; vm_compute; reflexivity).
    subst t. exact Hret.
  - edestruct (stop_sign_distance_gate (flags := Example.dispatch)
                 (scenarios := Example.stubborn) (Example.stop_sign_frame 94)
                 (Example.cruise []))
      as (_ & (t & Hret & _ & Hout) & _); try reflexivity.
    assert (Ht : t = LANE_FOLLOW)
      by (apply Hout; [vm_compute; reflexivity|intros; reflexivity]).
    subst t. exact Hret.
  - edestruct (stop_sign_distance_gate (flags := Example.dispatch)
                 (scenarios := Example.stubborn) (Example.stop_sign_frame 106)
                 (Example.cruise []))
      as (_ & (t & Hret & _ & Hout) & _); try reflexivity.
    assert (Ht : t = LANE_FOLLOW)
      by (apply Hout; [vm_compute; reflexivity|intros; reflexivity]).
    subst t. exact Hret.
Defined.

(** C3 (counterexample): a winning traffic-light overlap at distance 8, with
    max_valid_stop_distance 15 and a right turn, is not classified when the
    active scenario is a TrafficLightProtected scenario that is DONE (the
    candidate becomes LANE_FOLLOW), nor when the planning context tracks no
    signaled overlap (the candidate stays LANE_FOLLOW). *)
Lemma traffic_light_in_range_not_classified :
  let frame := Example.signal_frame RIGHT_TURN in
  let signal := Example.overlap "signal_1" 108 in
  (start_s signal - 100 <=? 15)%float = true
  /\ returns (intersection_scenarios (flags := Example.dispatch)
                (scenarios := Example.stubborn) frame)
       (Example.world Example.all_supported [signal]
          TRAFFIC_LIGHT_PROTECTED STATUS_DONE) LANE_FOLLOW
  /\ returns (dispatch_scenario_type (flags := Example.dispatch)
                (scenarios := Example.stubborn) frame)
       (Example.world Example.all_supported [signal]
          TRAFFIC_LIGHT_PROTECTED STATUS_DONE) LANE_FOLLOW
  /\ returns (dispatch_scenario_type (flags := Example.dispatch)
                (scenarios := Example.stubborn) frame)
       (Example.cruise []) LANE_FOLLOW
  /\ ~ returns (dispatch_scenario_type (flags := Example.dispatch)
                  (scenarios := Example.stubborn) frame)
         (Example.world Example.all_supported [signal]
            TRAFFIC_LIGHT_PROTECTED STATUS_DONE)
         TRAFFIC_LIGHT_UNPROTECTED_RIGHT_TURN.
Proof.
  cbv zeta. split; [reflexivity|].
  split; [eexists; vm_compute; reflexivity|].
  split; [eexists; vm_compute; reflexivity|].
  split; [eexists; vm_compute; reflexivity|].
  intros [w' Hrun]. vm_compute in Hrun. discriminate Hrun.
Qed.

(** C3 (witness): one reference line, no stop sign, a tracked signal at
    distance 8 with max_valid_stop_distance 15, on a right turn and on a
    straight path. *)
Lemma traffic_light_classification_witness :
  let tracked := [Example.overlap "signal_1" 108] in
  returns (dispatch_scenario_type (flags := Example.dispatch)
             (scenarios := Example.stubborn)
             (Example.signal_frame RIGHT_TURN))
    (Example.cruise tracked) TRAFFIC_LIGHT_UNPROTECTED_RIGHT_TURN
  /\ returns (dispatch_scenario_type (flags := Example.dispatch)
                (scenarios := Example.stubborn)
                (Example.signal_frame NO_TURN))
       (Example.cruise tracked) TRAFFIC_LIGHT_PROTECTED.
Proof.
  cbv zeta. split.
  - edestruct (traffic_light_classification (flags := Example.dispatch)
                 (scenarios := Example.stubborn)
                 (Example.signal_frame RIGHT_TURN)
                 (Example.cruise [Example.overlap "signal_1" 108]))
      as (t & _ & Hret & Hright & _ & _);
      [reflexivity..|left; reflexivity|vm_compute; reflexivity|].
    rewrite (Hright eq_refl) in Hret. exact Hret.
  - edestruct (traffic_light_classification (flags := Example.dispatch)
                 (scenarios := Example.stubborn)
                 (Example.signal_frame NO_TURN)
                 (Example.cruise [Example.overlap "signal_1" 108]))
      as (t & _ & Hret & _ & _ & Hstraight);
      [reflexivity..|left; reflexivity|vm_compute; reflexivity|].
    rewrite (Hstraight eq_refl) in Hret. exact Hret.
Defined.


(** C5 (witness): a running stop-sign scenario stays selected although the
    stop sign is already behind the front edge. *)
Lemma dispatch_sticky_witness :
  let w :=
    Example.world Example.all_supported [] STOP_SIGN_UNPROTECTED
      STATUS_RUNNING in
  dispatch_scenario_type (flags := Example.dispatch)
    (scenarios := Example.stubborn) (Example.stop_sign_frame 106) w
  = Ok (STOP_SIGN_UNPROTECTED, w).
Proof.
  cbv zeta.
  apply (dispatch_sticky (flags := Example.dispatch)
           (scenarios := Example.stubborn) (Example.stop_sign_frame 106)
           (Example.world Example.all_supported [] STOP_SIGN_UNPROTECTED
              STATUS_RUNNING) _ eq_refl).
  - right. left. reflexivity.
  - discriminate.
Defined.

(** C6: under self-vote, with the supported set {LANE_FOLLOW, CHANGE_LANE},
    [Init] returns and leaves an active scenario, and the first [Update] on a
    frame with a reference line does not return: the walk over the supported
    set asks the factory for a CHANGE_LANE scenario, the factory returns a
    null pointer, and [SelectScenario] calls [IsTransferable] through it.
    There is no state after this [Update] in which the manager holds an
    active scenario. *)
Lemma update_dereferences_null_trial :
  exists w,
    Init (flags := Example.self_vote) (scenarios := Example.stubborn)
      {[ LANE_FOLLOW; CHANGE_LANE ]} Example.blank = Ok (true, w)
    /\ is_Some (current_scenario_ (manager w))
    /\ reference_line_info Example.open_road <> []
    /\ CreateScenario (scenarios := Example.stubborn) CHANGE_LANE w
       = Ok (None, w)
    /\ SelectScenario (scenarios := Example.stubborn) CHANGE_LANE
         Example.open_road w = Undefined
    /\ Update (flags := Example.self_vote) (scenarios := Example.stubborn)
         Example.open_road w = Undefined.
Proof.
  eexists. split; [vm_compute; reflexivity|].
  split; [eexists; reflexivity|]. split; [discriminate|].
  split; [reflexivity|]. split; vm_compute; reflexivity.
Qed.

(** X19 (witness): a self-vote cycle over the six types the factory has a
    case for, and a Dispatch cycle with CHANGE_LANE in the supported set. *)
Lemma active_scenario_invariant_witness :
  (exists w' s,
     Update (flags := Example.self_vote) (scenarios := Example.stubborn)
       Example.obstacle_frame (Example.cruise []) = Ok (tt, w')
     /\ current_scenario_ (manager w') = Some s
     /\ default_scenario_type_ (manager w') = LANE_FOLLOW
     /\ supported_scenarios_ (manager w') = Example.all_supported)
  /\ (let w :=
        Example.world {[ LANE_FOLLOW; CHANGE_LANE ]} [] LANE_FOLLOW
          STATUS_RUNNING in
      exists w' s,
        Update (flags := Example.dispatch) (scenarios := Example.stubborn)
          (Example.stop_sign_frame 100) w = Ok (tt, w')
        /\ current_scenario_ (manager w') = Some s
        /\ default_scenario_type_ (manager w') = LANE_FOLLOW
        /\ supported_scenarios_ (manager w')
           = supported_scenarios_ (manager w)).
Proof.
  split.
  - eapply (proj2 (active_scenario_invariant (flags := Example.self_vote)
                     (scenarios := Example.stubborn))
              Example.obstacle_frame (Example.cruise [])).
    + discriminate.
    + reflexivity.
    + reflexivity.
    + right. vm_compute. reflexivity.
  - cbv zeta.
    eapply (proj2 (active_scenario_invariant (flags := Example.dispatch)
                     (scenarios := Example.stubborn))
              (Example.stop_sign_frame 100)
              (Example.world {[ LANE_FOLLOW; CHANGE_LANE ]} [] LANE_FOLLOW
                 STATUS_RUNNING)).
    + discriminate.
    + reflexivity.
    + reflexivity.
    + left. reflexivity.
Defined.

(** C7 (witness): entering the stop-sign gate from LANE_FOLLOW replaces the
    active object by a new STOP_SIGN_UNPROTECTED one. *)
Lemma dispatch_replaces_iff_type_differs_witness :
  exists t w',
    returns (dispatch_scenario_type (flags := Example.dispatch)
               (scenarios := Example.stubborn) (Example.stop_sign_frame 100))
      (Example.cruise []) t
    /\ ScenarioDispatch (flags := Example.dispatch)
         (scenarios := Example.stubborn) (Example.stop_sign_frame 100)
         (Example.cruise []) = Ok (tt, w')
    /\ t = STOP_SIGN_UNPROTECTED
    /\ exists fresh,
         current_scenario_ (manager w') = Some fresh
         /\ scenario_type fresh = STOP_SIGN_UNPROTECTED
         /\ 1 <= instance fresh.
Proof.
  edestruct (dispatch_replaces_iff_type_differs (flags := Example.dispatch)
               (scenarios := Example.stubborn) (Example.stop_sign_frame 100)
               (Example.cruise []))
    as (t & w' & Hret & Hrun & _ & Hdiff & _);
    [discriminate|reflexivity|].
  assert (Ht : t = STOP_SIGN_UNPROTECTED).
  { destruct Hret as [w1 Hret]. vm_compute in Hret. congruence. }
  subst t. exists STOP_SIGN_UNPROTECTED, w'.
  split; [exact Hret|]. split; [exact Hrun|]. split; [reflexivity|].
  apply Hdiff. discriminate.
Defined.

(** C8: a self-vote over the supported set {LANE_FOLLOW, CHANGE_LANE}, of
    size 2, from an active LANE_FOLLOW scenario and on a frame with a
    reference line, ends with no decision: the factory returns a null pointer
    for CHANGE_LANE, and the walk over the supported set calls
    [IsTransferable] through it; neither [ScenarioSelfVote] nor the [Update]
    that runs it returns. *)
Lemma self_vote_without_decision :
  let w :=
    Example.world {[ LANE_FOLLOW; CHANGE_LANE ]} [] LANE_FOLLOW
      STATUS_RUNNING in
  size (supported_scenarios_ (manager w)) = 2
  /\ reference_line_info Example.open_road <> []
  /\ CreateScenario (scenarios := Example.stubborn) CHANGE_LANE w
     = Ok (None, w)
  /\ ScenarioSelfVote (flags := Example.self_vote)
       (scenarios := Example.stubborn) Example.open_road w = Undefined
  /\ Update (flags := Example.self_vote) (scenarios := Example.stubborn)
       Example.open_road w = Undefined.
Proof.
  cbv zeta. split; [vm_compute; reflexivity|]. split; [discriminate|].
  split; [reflexivity|]. split; vm_compute; reflexivity.
Qed.

(** X20 (witness): a self-vote cycle with an obstacle and a stop sign ahead,
    no scenario being transferable. *)
Lemma self_vote_terminates_within_bound_witness :
  let w := Example.cruise [] in
  exists w' tried,
    Update (flags := Example.self_vote) (scenarios := Example.stubborn)
      Example.obstacle_frame w = Ok (tt, w')
    /\ probes w' = probes w ++ tried
    /\ NoDup tried
    /\ (forall t, t ∈ tried -> t ∈ supported_scenarios_ (manager w))
    /\ length tried <= size (supported_scenarios_ (manager w))
    /\ default_scenario_type_ (manager w') = LANE_FOLLOW
    /\ supported_scenarios_ (manager w') = supported_scenarios_ (manager w)
    /\ exists s,
         current_scenario_ (manager w') = Some s
         /\ (scenario_type s = LANE_FOLLOW
             \/ scenario_type s ∈ supported_scenarios_ (manager w')).
Proof.
  cbv zeta.
  eapply (self_vote_terminates_within_bound (flags := Example.self_vote)
            (scenarios := Example.stubborn) Example.obstacle_frame
            (Example.cruise [])).
  - reflexivity.
  - discriminate.
  - reflexivity.
  - reflexivity.
  - left. reflexivity.
  - vm_compute. reflexivity.
Defined.

(** C9 (counterexample): once [Init] has registered the configurations,
    none is registered for CHANGE_LANE, and [CreateScenario] asked for
    CHANGE_LANE returns a null pointer and leaves the manager as it is: it
    does not fail. *)
Lemma CreateScenario_returns_null :
  exists w,
    Init (flags := Example.dispatch) (scenarios := Example.stubborn)
      Example.all_supported Example.blank = Ok (true, w)
    /\ config_map_ (manager w) !! CHANGE_LANE = None
    /\ CreateScenario (scenarios := Example.stubborn) CHANGE_LANE w
       = Ok (None, w)
    /\ CreateScenario (scenarios := Example.stubborn) CHANGE_LANE w
       <> CheckFailed.
Proof.
  eexists. split; [vm_compute; reflexivity|].
  split; [vm_compute; reflexivity|]. split; [reflexivity|discriminate].
Qed.

(** C9 (witness): the factory asked for STOP_SIGN_PROTECTED and for SIDE_PASS
    on a manager whose six configurations are registered, and the
    configuration map after a registration from an empty map. *)
Lemma CreateScenario_null_or_built_witness :
  CreateScenario (scenarios := Example.stubborn) STOP_SIGN_PROTECTED
    (Example.cruise []) = Ok (None, Example.cruise [])
  /\ CreateScenario (scenarios := Example.stubborn) SIDE_PASS
       (Example.cruise [])
     = Ok (Some {| scenario_type := SIDE_PASS;
                   GetStatus := STATUS_RUNNING;
                   config := Example.config_;
                   instance := 1 |}, allocate (Example.cruise []))
  /\ exists w,
       RegisterScenarios (flags := Example.dispatch)
         (scenarios := Example.stubborn) Example.blank = Ok (tt, w)
       /\ config_map_ (manager w) !! APPROACH = None.
Proof.
  split; [|split].
  - apply (proj1 (CreateScenario_null_or_built (flags := Example.dispatch)
                    (scenarios := Example.stubborn) STOP_SIGN_PROTECTED
                    (Example.cruise []))).
    reflexivity.
  - apply (proj1 (proj2 (CreateScenario_null_or_built
                           (flags := Example.dispatch)
                           (scenarios := Example.stubborn) SIDE_PASS
                           (Example.cruise []))) eq_refl Example.config_).
    vm_compute. reflexivity.
  - destruct (RegisterScenarios (flags := Example.dispatch)
                (scenarios := Example.stubborn) Example.blank)
      as [[[] w]| |] eqn:Hrun;
      try (vm_compute in Hrun; discriminate Hrun).
    exists w. split; [reflexivity|].
    apply (proj2 (proj2 (CreateScenario_null_or_built
                           (flags := Example.dispatch)
                           (scenarios := Example.stubborn) APPROACH w))
             Example.blank eq_refl Hrun).
    reflexivity.
Defined.

(** C10 (witness): a tracked signal one metre behind the front edge selects
    a traffic-light scenario; a stop sign at the same place selects none. *)
Lemma traffic_light_gate_has_no_lower_bound_witness :
  let behind := Example.overlap "signal_1" 99 in
  let w := Example.cruise [behind] in
  (start_s behind - 100 <? 0)%float = true
  /\ (exists t,
        returns (SelectTrafficLightScenario (scenarios := Example.stubborn)
                   Example.open_road behind) w t
        /\ IsTrafficLightScenario t = true
        /\ t = TRAFFIC_LIGHT_PROTECTED)
  /\ returns (SelectStopSignScenario (scenarios := Example.stubborn)
                Example.open_road behind) w LANE_FOLLOW.
Proof.
  cbv zeta. split; [reflexivity|].
  edestruct (traffic_light_gate_has_no_lower_bound
               (scenarios := Example.stubborn) Example.open_road
               (Example.overlap "signal_1" 99)
               (Example.cruise [Example.overlap "signal_1" 99]))
    as [Hlight Hstop];
    [reflexivity|reflexivity|reflexivity|left; reflexivity
    |vm_compute; reflexivity|].
  split; [exact Hlight|].
  exact (proj1 (Hstop (Example.overlap "signal_1" 99) eq_refl)).
Defined.

(** ** More of the manager, at concrete inputs *)

(** X1 (witness): a message reporting "tl_1" red, then "tl_2", then "tl_1"
    green leaves "tl_1" green and nothing under "tl_3". *)
Lemma Observe_keeps_last_report_witness :
  let frame :=
    Example.frame 100 NO_TURN [] (Some Example.repeated_detection) in
  exists w',
    Observe frame Example.blank = Ok (tt, w')
    /\ traffic_lights (scenario_info w') !! "tl_1"%string
       = Some {| id := "tl_1"; color := GREEN |}
    /\ traffic_lights (scenario_info w') !! "tl_3"%string = None
    /\ size (traffic_lights (scenario_info w')) <= 3.
Proof.
  cbv zeta.
  destruct (Observe_keeps_last_report
              (Example.frame 100 NO_TURN [] (Some Example.repeated_detection))
              Example.blank Example.repeated_detection eq_refl)
    as (w' & Hrun & Hlookup & Hsize & _).
  { vm_compute. reflexivity. }
  exists w'. split; [exact Hrun|].
  split; [rewrite Hlookup; vm_compute; reflexivity|].
  split; [rewrite Hlookup; vm_compute; reflexivity|exact Hsize].
Defined.

(** X3 (witness): resolving LANE_FOLLOW while a stop sign is recorded empties
    the list of done stop signs and keeps the recorded overlap. *)
Lemma UpdatePlanningContext_frame_witness :
  let w := Example.at_stop_sign (Example.cruise []) in
  exists w',
    UpdatePlanningContext Example.open_road LANE_FOLLOW w = Ok (tt, w')
    /\ manager w' = manager w
    /\ stop_done_overlap_ids (scenario_info w) = ["stop_sign_0"%string]
    /\ stop_done_overlap_ids (scenario_info w') = []
    /\ current_stop_sign_overlap (scenario_info w')
       = Example.overlap "stop_sign_1" 105.
Proof.
  cbv zeta.
  edestruct (UpdatePlanningContext_frame Example.open_road LANE_FOLLOW
               (Example.at_stop_sign (Example.cruise [])))
    as (w' & Hrun & Hm & _ & _ & _ & _ & _ & Hdone & Hkeep & _);
    [discriminate|reflexivity|].
  exists w'. split; [exact Hrun|]. split; [exact Hm|].
  split; [reflexivity|]. split; [exact Hdone|]. exact (Hkeep eq_refl).
Defined.

(** X4 (witness): the stop sign "stop_sign_1", recorded at 105, is refreshed
    from the reference line, which has it at 104. *)
Lemma UpdatePlanningContext_refresh_keeps_id_witness :
  let w :=
    Example.at_stop_sign
      (Example.world Example.all_supported [] STOP_SIGN_UNPROTECTED
         STATUS_RUNNING) in
  exists w',
    UpdatePlanningContext Example.stop_line_frame STOP_SIGN_UNPROTECTED w
    = Ok (tt, w')
    /\ current_stop_sign_overlap (scenario_info w)
       = Example.overlap "stop_sign_1" 105
    /\ current_stop_sign_overlap (scenario_info w')
       = Example.overlap "stop_sign_1" 104.
Proof.
  cbv zeta.
  edestruct (UpdatePlanningContext_refresh_keeps_id Example.stop_line_frame
               (Example.at_stop_sign
                  (Example.world Example.all_supported []
                     STOP_SIGN_UNPROTECTED STATUS_RUNNING)))
    as (w' & Hrun & Hid & Hin & _); [reflexivity..|].
  exists w'. split; [exact Hrun|]. split; [reflexivity|].
  assert (Hmember : current_stop_sign_overlap (scenario_info w')
                    ∈ [ Example.overlap "stop_sign_2" 150;
                        Example.overlap "stop_sign_1" 104 ]).
  { apply Hin. exists (Example.overlap "stop_sign_1" 104).
    split; [right; left|reflexivity]. }
  apply elem_of_cons in Hmember as [Heq|Hmember].
  { rewrite Heq in Hid. discriminate Hid. }
  apply elem_of_cons in Hmember as [Heq|Hmember]; [exact Heq|].
  apply elem_of_nil in Hmember. destruct Hmember.
Defined.

(** X5 (witness): a stop sign at 105, five metres ahead of the front edge,
    with threshold 10. *)
Lemma dispatch_records_triggering_stop_sign_witness :
  exists w' s,
    ScenarioDispatch (flags := Example.dispatch)
      (scenarios := Example.stubborn) (Example.stop_sign_frame 100)
      (Example.cruise []) = Ok (tt, w')
    /\ current_scenario_ (manager w') = Some s
    /\ scenario_type s = STOP_SIGN_UNPROTECTED
    /\ current_stop_sign_overlap (scenario_info w')
       = Example.overlap "stop_sign_1" 105
    /\ stop_done_overlap_ids (scenario_info w') = [].
Proof.
  eapply (dispatch_records_triggering_stop_sign (flags := Example.dispatch)
            (scenarios := Example.stubborn) (Example.stop_sign_frame 100)
            (Example.cruise []));
    first [reflexivity | vm_compute; reflexivity].
Defined.

(** X6 (witness): a Dispatch cycle on an open road, from LANE_FOLLOW, empties
    the list of done stop signs. *)
Lemma ScenarioDispatch_stop_done_overlap_ids_witness :
  let w := Example.at_stop_sign (Example.cruise []) in
  exists w' s,
    ScenarioDispatch (flags := Example.dispatch)
      (scenarios := Example.stubborn) Example.open_road w = Ok (tt, w')
    /\ current_scenario_ (manager w') = Some s
    /\ stop_done_overlap_ids (scenario_info w) = ["stop_sign_0"%string]
    /\ stop_done_overlap_ids (scenario_info w') = [].
Proof.
  cbv zeta.
  edestruct (ScenarioDispatch_stop_done_overlap_ids (flags := Example.dispatch)
               (scenarios := Example.stubborn) Example.open_road
               (Example.at_stop_sign (Example.cruise [])))
    as (w' & s & Hrun & Hs & Hdone); [discriminate|reflexivity|].
  assert (Ht : scenario_type s = LANE_FOLLOW).
  { vm_compute in Hrun. injection Hrun as <-.
    vm_compute in Hs. injection Hs as <-. reflexivity. }
  rewrite Ht in Hdone.
  exists w', s. split; [exact Hrun|]. split; [exact Hs|].
  split; [reflexivity|exact Hdone].
Defined.

(** X7 (witness): a Dispatch cycle entering the stop-sign gate. *)
Lemma ScenarioDispatch_targets_witness :
  exists w' s,
    ScenarioDispatch (flags := Example.dispatch)
      (scenarios := Example.stubborn) (Example.stop_sign_frame 100)
      (Example.cruise []) = Ok (tt, w')
    /\ current_scenario_ (manager w') = Some s
    /\ (s = {| scenario_type := LANE_FOLLOW; GetStatus := STATUS_RUNNING;
               config := Example.config_; instance := 0 |}
        \/ In (scenario_type s)
             [LANE_FOLLOW; SIDE_PASS; STOP_SIGN_UNPROTECTED;
              TRAFFIC_LIGHT_PROTECTED;
              TRAFFIC_LIGHT_UNPROTECTED_RIGHT_TURN]).
Proof.
  eapply (ScenarioDispatch_targets (flags := Example.dispatch)
            (scenarios := Example.stubborn) (Example.stop_sign_frame 100)
            (Example.cruise [])); [discriminate|reflexivity].
Defined.

(** X8 (witness): a stop-sign scenario that is DONE stays resolved while a
    signal lies ahead, and is left on an open road. *)
Lemma dispatch_leaves_done_stop_sign_witness :
  let w :=
    Example.world Example.all_supported [] STOP_SIGN_UNPROTECTED
      STATUS_DONE in
  returns (dispatch_scenario_type (flags := Example.dispatch)
             (scenarios := Example.stubborn) (Example.signal_frame NO_TURN))
    w STOP_SIGN_UNPROTECTED
  /\ exists t,
       returns (dispatch_scenario_type (flags := Example.dispatch)
                  (scenarios := Example.stubborn) Example.open_road) w t
       /\ (t = LANE_FOLLOW \/ t = SIDE_PASS).
Proof.
  cbv zeta. split.
  - edestruct (dispatch_leaves_done_stop_sign (flags := Example.dispatch)
                 (scenarios := Example.stubborn)
                 (Example.signal_frame NO_TURN)
                 (Example.world Example.all_supported []
                    STOP_SIGN_UNPROTECTED STATUS_DONE))
      as (t & Hret & Ht); [reflexivity..|].
    vm_compute in Ht. subst t. exact Hret.
  - edestruct (dispatch_leaves_done_stop_sign (flags := Example.dispatch)
                 (scenarios := Example.stubborn) Example.open_road
                 (Example.world Example.all_supported []
                    STOP_SIGN_UNPROTECTED STATUS_DONE))
      as (t & Hret & Ht); [reflexivity..|].
    exists t. split; [exact Hret|exact Ht].
Defined.

(** X9 (witness): a traffic-light scenario that is DONE stays resolved while
    a stop sign lies ahead, and is left on an open road. *)
Lemma dispatch_leaves_done_traffic_light_witness :
  let w :=
    Example.world Example.all_supported [] TRAFFIC_LIGHT_PROTECTED
      STATUS_DONE in
  returns (dispatch_scenario_type (flags := Example.dispatch)
             (scenarios := Example.stubborn) (Example.stop_sign_frame 100))
    w TRAFFIC_LIGHT_PROTECTED
  /\ exists t,
       returns (dispatch_scenario_type (flags := Example.dispatch)
                  (scenarios := Example.stubborn) Example.open_road) w t
       /\ (t = LANE_FOLLOW \/ t = SIDE_PASS).
Proof.
  cbv zeta. split.
  - edestruct (dispatch_leaves_done_traffic_light (flags := Example.dispatch)
                 (scenarios := Example.stubborn)
                 (Example.stop_sign_frame 100)
                 (Example.world Example.all_supported []
                    TRAFFIC_LIGHT_PROTECTED STATUS_DONE))
      as (t & Hret & Ht); [reflexivity..|].
    vm_compute in Ht. subst t. exact Hret.
  - edestruct (dispatch_leaves_done_traffic_light (flags := Example.dispatch)
                 (scenarios := Example.stubborn) Example.open_road
                 (Example.world Example.all_supported []
                    TRAFFIC_LIGHT_PROTECTED STATUS_DONE))
      as (t & Hret & Ht); [reflexivity..|].
    exists t. split; [exact Hret|exact Ht].
Defined.

(** X10 (witness): with the features off, a stop sign and a signal ahead
    leave the resolution to the side-pass selection. *)
Lemma dispatch_without_intersection_features_witness :
  dispatch_scenario_type (flags := Example.featureless true)
    (scenarios := Example.stubborn) (Example.junction_frame 105 110)
    (Example.cruise [])
  = SelectSidePassScenario (scenarios := Example.stubborn)
      (Example.junction_frame 105 110) (Example.cruise []).
Proof.
  eapply (dispatch_without_intersection_features
            (flags := Example.featureless true)
            (scenarios := Example.stubborn) (Example.junction_frame 105 110)
            (Example.cruise []));
    [reflexivity|reflexivity|discriminate|reflexivity|reflexivity].
Defined.

(** X11 (witness): from LANE_FOLLOW, a side-pass scenario not being
    transferable, the selection allocates one scenario, asks once and yields
    LANE_FOLLOW. *)
Lemma SelectSidePassScenario_decision_witness :
  exists w',
    SelectSidePassScenario (scenarios := Example.stubborn) Example.open_road
      (Example.cruise []) = Ok (LANE_FOLLOW, w')
    /\ current_scenario_ (manager w')
       = current_scenario_ (manager (Example.cruise []))
    /\ allocated w' = 2
    /\ probes w' = [SIDE_PASS].
Proof.
  edestruct (SelectSidePassScenario_decision (scenarios := Example.stubborn)
               Example.open_road (Example.cruise []))
    as (w' & Hrun & Hcur & Ha & Hp); [reflexivity|].
  exists w'. split; [exact Hrun|]. split; [exact Hcur|].
  split; [exact Ha|exact Hp].
Defined.

(** X12 (witness): from a SIDE_PASS scenario, nothing being transferable, the
    self-vote ends on a new LANE_FOLLOW scenario. *)
Lemma self_vote_falls_back_to_default_witness :
  let w :=
    Example.world Example.all_supported [] SIDE_PASS STATUS_RUNNING in
  exists w' s,
    ScenarioSelfVote (flags := Example.self_vote)
      (scenarios := Example.stubborn) Example.obstacle_frame w = Ok (tt, w')
    /\ current_scenario_ (manager w') = Some s
    /\ scenario_type s = LANE_FOLLOW
    /\ 1 <= instance s.
Proof.
  cbv zeta.
  edestruct (self_vote_falls_back_to_default (flags := Example.self_vote)
               (scenarios := Example.stubborn) Example.obstacle_frame
               (Example.world Example.all_supported [] SIDE_PASS
                  STATUS_RUNNING))
    as (w' & s & Hrun & Hs & Ht & _ & Hnew);
    [discriminate|reflexivity|reflexivity|vm_compute; reflexivity
    |intros; reflexivity|].
  exists w', s. split; [exact Hrun|]. split; [exact Hs|].
  split; [exact Ht|]. apply Hnew. discriminate.
Defined.

(** X13 (witness): from a SIDE_PASS scenario with an obstacle and a stop sign
    ahead, only a LANE_FOLLOW scenario being transferable. *)
Lemma self_vote_returns_to_lane_follow_witness :
  let w :=
    Example.world Example.all_supported [] SIDE_PASS STATUS_RUNNING in
  exists w',
    ScenarioSelfVote (flags := Example.self_vote)
      (scenarios := Example.homing) Example.obstacle_frame w = Ok (tt, w')
    /\ current_scenario_ (manager w')
       = Some {| scenario_type := LANE_FOLLOW; GetStatus := STATUS_RUNNING;
                 config := Example.config_; instance := 1 |}
    /\ probes w' = [SIDE_PASS; LANE_FOLLOW]
    /\ allocated w' = 2.
Proof.
  cbv zeta.
  edestruct (self_vote_returns_to_lane_follow (flags := Example.self_vote)
               (scenarios := Example.homing) Example.obstacle_frame
               (Example.world Example.all_supported [] SIDE_PASS
                  STATUS_RUNNING))
    as (w' & Hrun & Hs & Hp & Ha);
    [discriminate|reflexivity|reflexivity|discriminate|reflexivity
    |apply (bool_decide_unpack _); vm_compute; exact I
    |intros s Hs; apply bool_decide_eq_true_2, Hs|].
  exists w'. split; [exact Hrun|]. split; [exact Hs|].
  split; [exact Hp|exact Ha].
Defined.

(** X14 (witness): with every feature flag off, a self-vote from LANE_FOLLOW
    with a stop sign ahead still makes a stop-sign scenario active. *)
Lemma self_vote_preferred_ignores_feature_flags_witness :
  FLAGS_enable_scenario_stop_sign (PlanningGflags := Example.featureless false)
  = false
  /\ exists w',
       ScenarioSelfVote (flags := Example.featureless false)
         (scenarios := Example.eager) (Example.stop_sign_frame 100)
         (Example.cruise []) = Ok (tt, w')
       /\ current_scenario_ (manager w')
          = Some {| scenario_type := STOP_SIGN_UNPROTECTED;
                    GetStatus := STATUS_RUNNING;
                    config := Example.config_; instance := 1 |}
       /\ probes w' = [STOP_SIGN_UNPROTECTED].
Proof.
  split; [reflexivity|].
  edestruct (self_vote_preferred_ignores_feature_flags
               (flags := Example.featureless false)
               (scenarios := Example.eager) (Example.stop_sign_frame 100)
               (Example.cruise []))
    as (w' & Hrun & Hs & Hp);
    [reflexivity|reflexivity|reflexivity|reflexivity|reflexivity|reflexivity
    |apply (bool_decide_unpack _); vm_compute; exact I
    |intros; reflexivity|].
  exists w'. split; [exact Hrun|]. split; [exact Hs|exact Hp].
Defined.

(** X15 (witness): a SIDE_PASS scenario transferable from itself survives an
    update under self-vote. *)
Lemma update_self_vote_reuses_current_witness :
  let w :=
    Example.world Example.all_supported [] SIDE_PASS STATUS_RUNNING in
  exists w1,
    Observe Example.obstacle_frame w = Ok (tt, w1)
    /\ Update (flags := Example.self_vote) (scenarios := Example.eager)
         Example.obstacle_frame w = Ok (tt, log_probe SIDE_PASS w1).
Proof.
  cbv zeta.
  edestruct (update_self_vote_reuses_current (flags := Example.self_vote)
               (scenarios := Example.eager) Example.obstacle_frame
               (Example.world Example.all_supported [] SIDE_PASS
                  STATUS_RUNNING))
    as (w1 & Hobs & Hrun);
    [reflexivity|discriminate|reflexivity|discriminate|reflexivity|].
  exists w1. split; [exact Hobs|exact Hrun].
Defined.

(** X16 (witness): every file loading, registration completes and the
    lane-follow entry is the loaded configuration. *)
Lemma RegisterScenarios_registers_loaded_configs_witness :
  exists w',
    RegisterScenarios (flags := Example.dispatch)
      (scenarios := Example.stubborn) Example.blank = Ok (tt, w')
    /\ config_map_ (manager w') !! LANE_FOLLOW = Some Example.config_
    /\ config_map_ (manager w') !! CHANGE_LANE = None.
Proof.
  pose proof (RegisterScenarios_registers_loaded_configs
                (flags := Example.dispatch) (scenarios := Example.stubborn)
                Example.blank) as Hreg.
  destruct (RegisterScenarios (flags := Example.dispatch)
              (scenarios := Example.stubborn) Example.blank)
    as [[[] w']| |].
  - destruct Hreg as (Hload & _ & _). exists w'. split; [reflexivity|].
    rewrite !Hload. split; reflexivity.
  - destruct Hreg as (t & file & _ & Hnone). discriminate Hnone.
  - destruct Hreg.
Defined.

(** X17 (witness): [Init] on a manager never initialised, and the factory
    asked for a SIDE_PASS scenario afterwards. *)
Lemma Init_builds_from_loaded_configs_witness :
  exists w',
    Init (flags := Example.dispatch) (scenarios := Example.stubborn)
      Example.all_supported Example.blank = Ok (true, w')
    /\ current_scenario_ (manager w')
       = Some {| scenario_type := LANE_FOLLOW; GetStatus := STATUS_RUNNING;
                 config := Example.config_; instance := 0 |}
    /\ allocated w' = 1
    /\ CreateScenario (scenarios := Example.stubborn) SIDE_PASS w'
       = Ok (Some {| scenario_type := SIDE_PASS; GetStatus := STATUS_RUNNING;
                     config := Example.config_; instance := 1 |},
             allocate w').
Proof.
  destruct (Init (flags := Example.dispatch) (scenarios := Example.stubborn)
              Example.all_supported Example.blank)
    as [[b w']| |] eqn:Hinit;
    try (vm_compute in Hinit; discriminate Hinit).
  assert (Hb : b = true) by (vm_compute in Hinit; congruence). subst b.
  destruct (Init_builds_from_loaded_configs (flags := Example.dispatch)
              (scenarios := Example.stubborn) _ _ _ _ Hinit)
    as [(c & Hc & Hcur & Ha) Hfactory].
  injection Hc as <-.
  destruct (Hfactory SIDE_PASS eq_refl) as (file & c & _ & Hc & Hcreate).
  injection Hc as <-.
  exists w'. split; [reflexivity|]. split; [exact Hcur|].
  split; [exact Ha|]. rewrite Hcreate, Ha. reflexivity.
Defined.

(** X18 (witness): a frame without a reference line, and a frame with one
    handed to a manager never initialised. *)
Lemma Update_preconditions_witness :
  Update (flags := Example.dispatch) (scenarios := Example.stubborn)
    Example.no_reference_line (Example.cruise []) = CheckFailed
  /\ Update (flags := Example.dispatch) (scenarios := Example.stubborn)
       Example.open_road Example.blank = Undefined
  /\ Update (flags := Example.self_vote) (scenarios := Example.stubborn)
       Example.open_road Example.blank = Undefined.
Proof.
  split; [|split].
  - apply (proj1 (Update_preconditions (flags := Example.dispatch)
                    (scenarios := Example.stubborn)
                    Example.no_reference_line (Example.cruise []))).
    reflexivity.
  - apply (proj2 (Update_preconditions (flags := Example.dispatch)
                    (scenarios := Example.stubborn) Example.open_road
                    Example.blank)); [discriminate|reflexivity].
  - apply (proj2 (Update_preconditions (flags := Example.self_vote)
                    (scenarios := Example.stubborn) Example.open_road
                    Example.blank)); [discriminate|reflexivity].
Defined.
